(** * Cleaning and imputation of the real-estate listings

    A shallow embedding of the cleaning pipelines of the repository:

    - [CleanData]            src/clean_data.py
    - [AdvancedImputation]   src/real-estate-platform/data/advanced_imputation.py
    - [Platform]             src/real-estate-platform/data/clean_data.py

    Conventions.  A pandas cell that holds a float is an [option Q]: [None] is
    NaN (what [pd.isna] answers [True] on) and [Some q] a finite number; the
    arithmetic is the exact one, so the rounding of the machine floats is left
    out.  Where a division can give an infinity the result is an [fval].
    A text cell is an [option string], [None] again being the missing value. *)

From Stdlib Require Import List String Ascii Bool Arith ZArith QArith Qabs Qround Lia.
Import ListNotations.

Local Open Scope string_scope.
Local Open Scope Q_scope.

(** ** Shared vocabulary *)

(** [pd.isna] / [Series.isna] and [notna] on a cell. *)
Definition isna {A} (x : option A) : bool :=
  match x with None => true | Some _ => false end.

Definition notna {A} (x : option A) : bool := negb (isna x).

(** [x >= lo], [x <= hi], [x > lo] on a float cell: a comparison with NaN is
    always [False]. *)
Definition ge_cell (x : option Q) (lo : Q) : bool :=
  match x with Some v => Qle_bool lo v | None => false end.

Definition le_cell (x : option Q) (hi : Q) : bool :=
  match x with Some v => Qle_bool v hi | None => false end.

Definition gt_cell (x : option Q) (lo : Q) : bool :=
  match x with Some v => negb (Qle_bool v lo) | None => false end.

(** [cell == 'TEXT'] on a text cell: a missing unit equals no string. *)
Definition str_is (x : option string) (s : string) : bool :=
  match x with Some t => String.eqb t s | None => false end.

(** Floats with the two infinities and NaN, for the one place where the code
    divides by a value that may be zero. *)
Inductive fval :=
| FNum (q : Q)
| FInf (negative : bool)
| FNaN.

Definition fval_of_cell (x : option Q) : fval :=
  match x with Some q => FNum q | None => FNaN end.


Definition Qneg_bool (q : Q) : bool := negb (Qle_bool 0 q).

(** Float division as numpy does it on a column (no exception: a zero divisor
    gives an infinity, or NaN for 0/0).  The sign of a zero is not modelled. *)
Definition fdiv (a b : fval) : fval :=
  match a, b with
  | FNaN, _ | _, FNaN => FNaN
  | FNum p, FNum q =>
      if Qeq_bool q 0
      then (if Qeq_bool p 0 then FNaN else FInf (Qneg_bool p))
      else FNum (p / q)
  | FNum _, FInf _ => FNum 0
  | FInf s, FNum q => FInf (xorb s (Qneg_bool q))
  | FInf _, FInf _ => FNaN
  end.

(** A raw scraped cell: NaN, a text, or a value of another Python type. *)
Inductive cell :=
| NaN
| Str (s : string)
| Num (q : Q).

(** Insertion sort, used for medians and for [LabelEncoder.classes_]. *)
Section Sorting.
Context {A : Type} (le : A -> A -> bool).

Fixpoint insert_sorted (x : A) (l : list A) : list A :=
  match l with
  | [] => [x]
  | y :: t => if le x y then x :: l else y :: insert_sorted x t
  end.

Definition sort (l : list A) : list A := fold_right insert_sorted [] l.
End Sorting.

(** The observed (non-NaN) values of a column, in row order. *)
Fixpoint observed {A} (col : list (option A)) : list A :=
  match col with
  | [] => []
  | Some v :: t => v :: observed t
  | None :: t => observed t
  end.

(** [Series.median()]: NaN cells are skipped; NaN when nothing is observed;
    the mean of the two middle values for an even count. *)
Definition median (col : list (option Q)) : option Q :=
  let s := sort Qle_bool (observed col) in
  let n := List.length s in
  match n with
  | O => None
  | _ =>
      if Nat.even n
      then Some ((nth (n / 2 - 1) s 0 + nth (n / 2) s 0) / inject_Z 2)
      else Some (nth (n / 2) s 0)
  end.

(** [Series.unique()]: the distinct values in order of first appearance. *)
Section Unique.
Context {A : Type} (eqb : A -> A -> bool).

Fixpoint unique_acc (seen : list A) (l : list A) : list A :=
  match l with
  | [] => []
  | x :: t =>
      if existsb (eqb x) seen then unique_acc seen t
      else x :: unique_acc (x :: seen) t
  end.

Definition unique (l : list A) : list A := unique_acc [] l.
End Unique.

(** Equality of two text cells as [unique] groups them (NaN with NaN). *)
Definition cell_eqb (a b : option string) : bool :=
  match a, b with
  | Some x, Some y => String.eqb x y
  | None, None => true
  | _, _ => false
  end.

(** [Series == value]: elementwise, and NaN equals nothing, not even NaN. *)
Definition series_eq (x v : option string) : bool :=
  match x, v with
  | Some a, Some b => String.eqb a b
  | _, _ => false
  end.

(** [sklearn.preprocessing.LabelEncoder]: [classes_] are the distinct labels
    in increasing order, a label is encoded as its position. *)
Fixpoint insert_class (x : string) (l : list string) : list string :=
  match l with
  | [] => [x]
  | y :: t =>
      if String.eqb x y then l
      else if String.ltb x y then x :: l
      else y :: insert_class x t
  end.

Definition classes_of (labels : list string) : list string :=
  fold_right insert_class [] labels.

Fixpoint index_of (x : string) (l : list string) : nat :=
  match l with
  | [] => O
  | y :: t => if String.eqb x y then O else S (index_of x t)
  end.

Definition label_fit_transform (labels : list string) : list nat :=
  map (fun x => index_of x (classes_of labels)) labels.

(** [Series.astype(str)] on a text column: NaN becomes the text "nan". *)
Definition astype_str (x : option string) : string :=
  match x with Some s => s | None => "nan" end.

(** Characters, as the regular expressions of the cleaning see them.  The
    model reads a text as its bytes, so [\d] and [\s] are the ASCII ones:
    it follows the code on the texts of ASCII characters.  On a text with
    other characters Python's classes also hold the digits and blanks of
    the other scripts (and [int] and [float] read those digits), which the
    model takes for ordinary characters. *)
Definition is_digit (c : ascii) : bool :=
  let n := nat_of_ascii c in (48 <=? n)%nat && (n <=? 57)%nat.

Definition is_space (c : ascii) : bool :=
  let n := nat_of_ascii c in
  ((9 <=? n)%nat && (n <=? 13)%nat) || ((28 <=? n)%nat && (n <=? 32)%nat).

Definition digit_val (c : ascii) : Z := Z.of_nat (nat_of_ascii c - 48).

(** The value of a run of decimal digits, as [int] reads it. *)
Definition digits_val (ds : list ascii) : Z :=
  fold_left (fun acc c => (10 * acc + digit_val c)%Z) ds 0%Z.

(** Longest prefix of characters satisfying [p], and the rest. *)
Fixpoint span (p : ascii -> bool) (s : list ascii) : list ascii * list ascii :=
  match s with
  | [] => ([], [])
  | c :: t =>
      if p c then let '(a, b) := span p t in (c :: a, b) else ([], s)
  end.

(** [re.sub(r"[\[\]']", "", s)]: brackets and single quotes are removed. *)
Definition strip_list_marks (s : list ascii) : list ascii :=
  filter (fun c => negb (Ascii.eqb c "["%char || Ascii.eqb c "]"%char
                         || Ascii.eqb c "'"%char)) s.

(** ** The imputers of scikit-learn

    The code builds an imputer and calls its [fit_transform] on a numeric
    matrix.  What an imputer estimates for a missing cell is numerical library
    code and stays a parameter ([estimate]); what the claims depend on is the
    shape of its answer: an observed cell is returned as it is, a missing cell
    is replaced by the estimate, and a column with no observed cell at all is
    left out of the result (scikit-learn's [keep_empty_features=False], the
    default, which none of the calls changes). *)
Inductive simple_strategy := Mean | Median | MostFrequent.

Inductive knn_weights := Uniform | Distance.

Inductive regressor := RandomForestRegressor (n_estimators random_state : nat).

Inductive imputer :=
| SimpleImputer (strategy : simple_strategy)
| KNNImputer (n_neighbors : nat) (weights : knn_weights)
| IterativeImputer (estimator : regressor) (max_iter random_state : nat).

(** A matrix is the list of its columns. *)
Definition matrix := list (list (option Q)).

Definition estimator := imputer -> matrix -> nat -> nat -> Q.

Fixpoint enumerate_from {A} (k : nat) (l : list A) : list (nat * A) :=
  match l with
  | [] => []
  | x :: t => (k, x) :: enumerate_from (S k) t
  end.

Definition enumerate {A} (l : list A) : list (nat * A) := enumerate_from 0 l.

Definition has_observed {A} (col : list (option A)) : bool := existsb notna col.

Definition fill_column (estimate : estimator) (imp : imputer) (X : matrix)
    (j : nat) (col : list (option Q)) : list Q :=
  map (fun ix => match snd ix with
                 | Some v => v
                 | None => estimate imp X j (fst ix)
                 end) (enumerate col).

Definition sk_fit_transform (estimate : estimator) (imp : imputer) (X : matrix)
    : list (list Q) :=
  map (fun jc => fill_column estimate imp X (fst jc) (snd jc))
      (filter (fun jc => has_observed (snd jc)) (enumerate X)).

(** [mask.sum()]: the number of [True] in a boolean column. *)
Definition count_true (mask : list bool) : nat := List.length (filter id mask).

(** [X.dropna().shape[0]]: the rows of the matrix with no missing cell. *)
Definition row_complete (X : matrix) (i : nat) : bool :=
  forallb (fun col => notna (nth i col None)) X.

Definition complete_rows (X : matrix) (n_rows : nat) : nat :=
  List.length (filter (row_complete X) (seq 0 n_rows)).

(** ** src/clean_data.py *)
Module CleanData.

(** The columns of the listings table that the cleaning reads or adds.  The
    raw [Surface] and [Rooms] cells are as scraped; the [Clean...] and
    [NormalizedPrice] columns are added by the pipeline and start missing. *)
Record Row := mkRow {
  Price : option Q;
  PriceUnit : option string;
  TransactionType : option string;
  Wilaya : option string;
  Surface : cell;
  Rooms : cell;
  NormalizedPrice : option Q;
  CleanSurface : option Q;
  CleanRooms : option Q
}.

Definition DataFrame := list Row.

(** [normalize_price(row)], lines 36-56. *)
Definition normalize_price (row : Row) : option Q :=
  let price := Price row in
  let unit := PriceUnit row in
  match price with
  | None => None
  | Some p =>
      if Qle_bool p 0 then None
      else if str_is unit "MILLION" then Some (p * inject_Z 1000000)
      else if str_is unit "BILLION" then Some (p * inject_Z 1000000000)
      else if str_is unit "UNIT" then Some p
      else if str_is unit "UNIT_PER_SQUARE" then Some p
      else if str_is unit "MILLION_PER_SQUARE" then Some (p * inject_Z 1000000)
      else Some p
  end.

Definition set_NormalizedPrice (v : option Q) (r : Row) : Row :=
  mkRow (Price r) (PriceUnit r) (TransactionType r) (Wilaya r) (Surface r)
        (Rooms r) v (CleanSurface r) (CleanRooms r).

Definition set_CleanSurface (v : option Q) (r : Row) : Row :=
  mkRow (Price r) (PriceUnit r) (TransactionType r) (Wilaya r) (Surface r)
        (Rooms r) (NormalizedPrice r) v (CleanRooms r).

Definition set_CleanRooms (v : option Q) (r : Row) : Row :=
  mkRow (Price r) (PriceUnit r) (TransactionType r) (Wilaya r) (Surface r)
        (Rooms r) (NormalizedPrice r) (CleanSurface r) v.

(** [df['NormalizedPrice'] = df.apply(normalize_price, axis=1)], line 59. *)
Definition apply_normalize_price (df : DataFrame) : DataFrame :=
  map (fun r => set_NormalizedPrice (normalize_price r) r) df.

(** *** Step 4: the price range filter, lines 83-106 *)

Definition MIN_PRICE : Q := inject_Z 100000.
Definition MAX_PRICE : Q := inject_Z 1000000000.

(** [Series.isin(values)]. *)
Definition isin (x : option string) (values : list string) : bool :=
  existsb (str_is x) values.

Definition per_sqm_mask (r : Row) : bool :=
  isin (PriceUnit r) ["UNIT_PER_SQUARE"; "MILLION_PER_SQUARE"].

Definition valid_regular_prices (r : Row) : bool :=
  (ge_cell (NormalizedPrice r) MIN_PRICE && le_cell (NormalizedPrice r) MAX_PRICE)
  || isna (NormalizedPrice r).

Definition valid_per_sqm_prices (r : Row) : bool :=
  (ge_cell (NormalizedPrice r) (inject_Z 5000)
   && le_cell (NormalizedPrice r) (inject_Z 2000000))
  || isna (NormalizedPrice r).

Definition price_filter_keeps (r : Row) : bool :=
  let regular_price_mask := negb (per_sqm_mask r) in
  (regular_price_mask && valid_regular_prices r)
  || (per_sqm_mask r && valid_per_sqm_prices r).

Definition filter_unrealistic_prices (df : DataFrame) : DataFrame :=
  filter price_filter_keeps df.

(** *** Step 6: surface cleaning, lines 161-181 *)

Definition starts_with_m (s : list ascii) : bool :=
  match s with
  | c :: _ => Ascii.eqb c "m"%char || Ascii.eqb c "M"%char
  | [] => false
  end.

(** [(\d+(?:\.\d+)?)\s*m] tried at the head of [s]; the answer is the integer
    and the fractional digits of group 1.  The optional class after the [m]
    never changes whether, or where, the expression matches.  Each run is
    taken whole: a shorter run of digits or blanks is followed by a digit or
    a blank, not by what the expression wants next. *)
Definition match_surface_here (s : list ascii)
    : option (list ascii * list ascii) :=
  let '(ip, r1) := span is_digit s in
  match ip with
  | [] => None
  | _ =>
      match r1 with
      | "."%char :: r2 =>
          let '(fp, r3) := span is_digit r2 in
          match fp with
          | [] => None
          | _ => if starts_with_m (snd (span is_space r3))
                 then Some (ip, fp) else None
          end
      | _ => if starts_with_m (snd (span is_space r1))
             then Some (ip, []) else None
      end
  end.

(** [re.search]: the leftmost position where the expression matches. *)
Fixpoint search_surface (s : list ascii) : option (list ascii * list ascii) :=
  match s with
  | [] => None
  | _ :: t =>
      match match_surface_here s with
      | Some g => Some g
      | None => search_surface t
      end
  end.

(** [float("ip.fp")]. *)
Definition float_of_decimal (ip fp : list ascii) : Q :=
  inject_Z (digits_val (ip ++ fp)%list) / inject_Z (10 ^ Z.of_nat (List.length fp)).

Definition extract_surface (surface_str : cell) : option Q :=
  match surface_str with
  | NaN => None
  | Str s =>
      match search_surface (strip_list_marks (list_ascii_of_string s)) with
      | Some (ip, fp) => Some (float_of_decimal ip fp)
      | None => None
      end
  | Num _ => None
  end.

(** Lines 177-181: the parsed column, then every cell outside [5, 5000] (and
    every NaN, for which both comparisons are false) set to NaN. *)
Definition surface_mask (r : Row) : bool :=
  ge_cell (CleanSurface r) (inject_Z 5) && le_cell (CleanSurface r) (inject_Z 5000).

Definition clean_surface (df : DataFrame) : DataFrame :=
  let df := map (fun r => set_CleanSurface (extract_surface (Surface r)) r) df in
  map (fun r => if negb (surface_mask r) then set_CleanSurface None r else r) df.

(** *** Step 7: surface imputation, lines 186-227 *)

(** What the step prints about the method it used (line 215). *)
Inductive message :=
| ImputedSurfaceUsingKNN (n : nat).

(** [df['CleanSurface'] = values]. *)
Definition assign_CleanSurface (values : list (option Q)) (df : DataFrame)
    : DataFrame :=
  map (fun rv => set_CleanSurface (snd rv) (fst rv)) (combine df values).

(** [df.loc[mask, 'CleanSurface'] = value]. *)
Definition loc_set_CleanSurface (mask : list bool) (value : Q) (df : DataFrame)
    : DataFrame :=
  map (fun rm => if (snd rm : bool) then set_CleanSurface (Some value) (fst rm)
                 else fst rm)
      (combine df mask).

(** [df[mask]['CleanSurface']]. *)
Definition CleanSurface_where (mask : list bool) (df : DataFrame)
    : list (option Q) :=
  map (fun rm => CleanSurface (fst rm))
      (filter (fun rm => snd rm) (combine df mask)).

(** One round of the loop of lines 218-222. *)
Definition fill_wilaya (surface_missing_mask : list bool) (df : DataFrame)
    (wilaya : option string) : DataFrame :=
  let wilaya_mask := map (fun r => series_eq (Wilaya r) wilaya) df in
  let wilaya_median_surface := median (CleanSurface_where wilaya_mask df) in
  match wilaya_median_surface with
  | Some m =>
      loc_set_CleanSurface
        (map (fun ab => fst ab && snd ab) (combine wilaya_mask surface_missing_mask))
        m df
  | None => df
  end.

(** Lines 224-227. *)
Definition fill_global_median (df : DataFrame) : DataFrame :=
  let global_median_surface := median (map CleanSurface df) in
  match global_median_surface with
  | Some m => loc_set_CleanSurface (map (fun r => isna (CleanSurface r)) df) m df
  | None => df
  end.

(** The [else] branch, lines 217-227. *)
Definition median_fallback (surface_missing_mask : list bool) (df : DataFrame)
    : DataFrame :=
  fill_global_median
    (fold_left (fill_wilaya surface_missing_mask)
               (unique cell_eqb (map Wilaya df)) df).

Definition encoded (labels : list string) : list (option Q) :=
  map (fun n => Some (inject_Z (Z.of_nat n))) (label_fit_transform labels).

(** [features_for_imputation] restricted to the columns that are not all
    NaN, line 204 (every listed column exists in [df_temp]). *)
Definition available_features (df : DataFrame) : matrix :=
  let features_for_imputation :=
    [ map NormalizedPrice df;
      encoded (map (fun r => astype_str (Wilaya r)) df);
      encoded (map (fun r => astype_str (TransactionType r)) df) ] in
  filter (fun col => negb (forallb isna col)) features_for_imputation.

Section SurfaceImputation.
Variable estimate : estimator.

Definition impute_surface (df : DataFrame) : list message * DataFrame :=
  let surface_missing_mask := map (fun r => isna (CleanSurface r)) df in
  if (0 <? count_true surface_missing_mask)%nat then
    if (0 <? List.length (available_features df))%nat then
      let imputation_data :=
        (available_features df ++ [map CleanSurface df])%list in
      if (10 <? complete_rows imputation_data (List.length df))%nat then
        let imputed_data :=
          sk_fit_transform estimate (KNNImputer 5 Uniform) imputation_data in
        ([ImputedSurfaceUsingKNN (count_true surface_missing_mask)],
         assign_CleanSurface (map Some (last imputed_data [])) df)
      else ([], median_fallback surface_missing_mask df)
    else ([], df)
  else ([], df).
End SurfaceImputation.

(** *** Step 8: room cleaning, lines 232-250 *)

(** [re.search(r'(\d+)', s)]: the first run of digits. *)
Fixpoint search_digits (s : list ascii) : option (list ascii) :=
  match s with
  | [] => None
  | c :: t => if is_digit c then Some (fst (span is_digit s)) else search_digits t
  end.

Definition extract_rooms (rooms_str : cell) : option Z :=
  match rooms_str with
  | NaN => None
  | Str s =>
      match search_digits (strip_list_marks (list_ascii_of_string s)) with
      | Some ds =>
          let rooms := digits_val ds in
          if ((1 <=? rooms) && (rooms <=? 20))%Z then Some rooms else None
      | None => None
      end
  | Num _ => None
  end.

Definition clean_rooms (df : DataFrame) : DataFrame :=
  map (fun r => set_CleanRooms (option_map inject_Z (extract_rooms (Rooms r))) r) df.

(** *** Step 11: price per square metre, lines 321-325 *)

(** [np.where(cond, a, b)]: both arguments are computed, [cond] selects. *)
Definition np_where {A} (cond : bool) (a b : A) : A := if cond then a else b.

Definition price_per_sqm (r : Row) : fval :=
  np_where (notna (CleanSurface r) && gt_cell (CleanSurface r) 0)
           (fdiv (fval_of_cell (NormalizedPrice r)) (fval_of_cell (CleanSurface r)))
           FNaN.

End CleanData.

(** ** src/real-estate-platform/data/advanced_imputation.py *)
Module AdvancedImputation.

(** A column is numeric ([np.number]) or categorical ([object]/[category]);
    a DataFrame is the list of its named columns, in order. *)
Inductive column :=
| Numeric (values : list (option Q))
| Object (values : list (option string)).

Definition DataFrame := list (string * column).

Definition is_numeric (c : column) : bool :=
  match c with Numeric _ => true | Object _ => false end.

Definition isnull (c : column) : list bool :=
  match c with
  | Numeric xs => map isna xs
  | Object xs => map isna xs
  end.

Definition missing (c : column) : nat := count_true (isnull c).

Definition any_null (c : column) : bool := existsb id (isnull c).

Definition col_len (c : column) : nat := List.length (isnull c).

(** [len(df)]. *)
Definition len (df : DataFrame) : nat :=
  match df with
  | [] => O
  | (_, c) :: _ => col_len c
  end.

(** A Python dict with text keys, in insertion order. *)
Fixpoint dict_get {V} (d : list (string * V)) (k : string) : option V :=
  match d with
  | [] => None
  | (k', v) :: t => if String.eqb k k' then Some v else dict_get t k
  end.

Fixpoint dict_set {V} (d : list (string * V)) (k : string) (v : V)
    : list (string * V) :=
  match d with
  | [] => [(k, v)]
  | (k', v') :: t =>
      if String.eqb k k' then (k, v) :: t else (k', v') :: dict_set t k v
  end.

Definition columns {V} (d : list (string * V)) : list string := map fst d.

Definition mem (k : string) (l : list string) : bool := existsb (String.eqb k) l.

(** [list.index] / [Index.get_loc] for a name known to be in the list. *)
Definition get_loc (k : string) (l : list string) : nat := index_of k l.

(** [df.dropna()] keeps the rows with no missing cell at all. *)
Definition row_has_null (df : DataFrame) (i : nat) : bool :=
  existsb (fun nc => nth i (isnull (snd nc)) false) df.

Definition len_dropna (df : DataFrame) : nat :=
  List.length (filter (fun i => negb (row_has_null df i)) (seq 0 (len df))).

(** *** [analyze_missing_data], lines 29-61 *)

Inductive recommendation :=
| NoMissingValues
| SimpleImputationSufficient
| KNNOrIterativeRecommended
| AdvancedWithCaution
| ConsiderDropping.

(** [x < bound] on a float that may be NaN. *)
Definition lt_cell (x : option Q) (bound : Q) : bool :=
  match x with Some v => negb (Qle_bool bound v) | None => false end.

Definition eq_cell (x : option Q) (v : Q) : bool :=
  match x with Some w => Qeq_bool w v | None => false end.

(** [(missing_count / total_rows) * 100]: NaN when the table has no row
    (0/0).  The quotient is exact here; on the thresholds 5, 10 and 20 the
    machine floats agree with it. *)
Definition percentage (missing_count total_rows : nat) : option Q :=
  match total_rows with
  | O => None
  | _ => Some (inject_Z (Z.of_nat missing_count) / inject_Z (Z.of_nat total_rows)
               * inject_Z 100)
  end.

Record missing_info := mkInfo {
  missing_count : nat;
  missing_percentage : option Q;
  numeric_dtype : bool
}.

Definition recommend (info : missing_info) : recommendation :=
  if eq_cell (missing_percentage info) 0 then NoMissingValues
  else if lt_cell (missing_percentage info) (inject_Z 5) then SimpleImputationSufficient
  else if lt_cell (missing_percentage info) (inject_Z 20) then KNNOrIterativeRecommended
  else if lt_cell (missing_percentage info) (inject_Z 50) then AdvancedWithCaution
  else ConsiderDropping.

Definition analyze_missing_data (df : DataFrame)
    : list (string * missing_info) * list (string * recommendation) :=
  let total_rows := len df in
  let missing_info :=
    fold_left (fun d nc =>
                 dict_set d (fst nc)
                   (mkInfo (missing (snd nc))
                           (percentage (missing (snd nc)) total_rows)
                           (is_numeric (snd nc))))
              df [] in
  (missing_info, map (fun ki => (fst ki, recommend (snd ki))) missing_info).

(** *** The imputer object and the exceptions *)

Record column_stats := mkStats {
  strategy : string;
  missing_before : nat;
  missing_after : nat
}.

Record AdvancedImputer := mkImputer {
  numerical_imputers : list (string * imputer);
  categorical_imputers : list (string * imputer);
  label_encoders : list (string * option (list string));
  missing_analysis : list (string * missing_info);
  recommendations : list (string * recommendation);
  imputation_stats : list (string * column_stats)
}.

(** [AdvancedImputer()], lines 23-27. *)
Definition new_imputer : AdvancedImputer := mkImputer [] [] [] [] [] [].

Inductive exn :=
| KeyError (key : string)
| IndexError
| ValueError
| TypeError
| NotFittedError
| UnboundLocalError.

Inductive result (A : Type) :=
| Ok (a : A)
| Raise (e : exn).

Arguments Ok {A} a.
Arguments Raise {A} e.

(** *** [smart_impute_numerical], lines 63-104 *)
Section Selector.
(** [Series.skew()], a pandas statistic (NaN below three observations). *)
Variable skew : list (option Q) -> option Q.

Definition abs_gt (x : option Q) (bound : Q) : bool :=
  match x with Some v => negb (Qle_bool (Qabs v) bound) | None => false end.


Definition smart_impute_numerical (df : DataFrame) (column : string)
    (strategy : string) : result (imputer * string) :=
  match dict_get df column with
  | None => Raise (KeyError column)
  | Some c =>
      let missing_percentage := percentage (missing c) (len df) in
      let strategy :=
        if String.eqb strategy "auto" then
          if lt_cell missing_percentage (inject_Z 5) then "simple"
          else if lt_cell missing_percentage (inject_Z 20) then "knn"
          else "iterative"
        else strategy in
      if String.eqb strategy "simple" then
        match c with
        | Object _ => Raise TypeError
        | Numeric xs =>
            let skewness := skew xs in
            if abs_gt skewness 1
            then Ok (SimpleImputer Median, strategy)
            else Ok (SimpleImputer Mean, strategy)
        end
      else if String.eqb strategy "knn" then
        let n_neighbors := Nat.min 5 (Nat.max 3 (Nat.sqrt (len_dropna df))) in
        Ok (KNNImputer n_neighbors Distance, strategy)
      else if String.eqb strategy "iterative" then
        Ok (IterativeImputer (RandomForestRegressor 10 42) 10 42, strategy)
      else Raise UnboundLocalError
  end.

(** [smart_impute_categorical], lines 106-124. *)
Definition smart_impute_categorical (df : DataFrame) (column : string)
    (strategy : string) : result (imputer * string) :=
  match dict_get df column with
  | None => Raise (KeyError column)
  | Some c =>
      let missing_percentage := percentage (missing c) (len df) in
      let strategy :=
        if String.eqb strategy "auto" then
          if lt_cell missing_percentage (inject_Z 10) then "mode" else "knn"
        else strategy in
      if String.eqb strategy "mode" then Ok (SimpleImputer MostFrequent, strategy)
      else if String.eqb strategy "knn" then Ok (KNNImputer 5 Uniform, strategy)
      else Raise UnboundLocalError
  end.
End Selector.

(** *** [fit_transform], lines 126-222

    The method works on DataFrame objects: with [preserve_original=False]
    the name [df_imputed] is bound to the caller's own object, so every
    column assignment is seen by the caller, also when the method raises
    later on.  The objects live in a heap and are named by their address;
    the imputer object [self] is the other half of the state. *)
Definition ref := nat.

Record state := mkState {
  heap : list DataFrame;
  self : AdvancedImputer
}.

Definition M (A : Type) : Type := state -> result A * state.

Definition ret {A} (a : A) : M A := fun st => (Ok a, st).

Definition raise {A} (e : exn) : M A := fun st => (Raise e, st).

Definition bind {A B} (c : M A) (k : A -> M B) : M B :=
  fun st =>
    match c st with
    | (Ok a, st') => k a st'
    | (Raise e, st') => (Raise e, st')
    end.

Notation "x <- c ;; k" := (bind c (fun x => k))
  (at level 61, c at next level, right associativity).
Notation "c ;;; k" := (bind c (fun _ => k))
  (at level 61, right associativity).

Definition lift {A} (r : result A) : M A := fun st => (r, st).

Definition load (r : ref) : M DataFrame :=
  fun st => (Ok (nth r (heap st) []), st).

Fixpoint list_set {A} (l : list A) (i : nat) (x : A) : list A :=
  match l, i with
  | [], _ => []
  | _ :: t, O => x :: t
  | y :: t, S i' => y :: list_set t i' x
  end.

Definition store (r : ref) (df : DataFrame) : M unit :=
  fun st => (Ok tt, mkState (list_set (heap st) r df) (self st)).

(** [df.copy()] and every other operation that builds a new DataFrame. *)
Definition alloc (df : DataFrame) : M ref :=
  fun st => (Ok (List.length (heap st)),
             mkState (heap st ++ [df])%list (self st)).

Definition get_self : M AdvancedImputer := fun st => (Ok (self st), st).

Definition update_self (f : AdvancedImputer -> AdvancedImputer) : M unit :=
  fun st => (Ok tt, mkState (heap st) (f (self st))).

Fixpoint for_each {A} (l : list A) (body : A -> M unit) : M unit :=
  match l with
  | [] => ret tt
  | x :: t => body x ;;; for_each t body
  end.

(** [df[name] = values]: the column is replaced where it stands; pandas
    refuses values whose length is not the number of rows. *)
Definition setitem (r : ref) (name : string) (c : column) : M unit :=
  d <- load r ;;
  if (col_len c =? len d)%nat then store r (dict_set d name c)
  else raise ValueError.

(** [df[names]]: the named columns, in the order of [names]. *)
Definition subset (df : DataFrame) (names : list string) : DataFrame :=
  flat_map (fun n => match dict_get df n with
                     | Some c => [(n, c)]
                     | None => []
                     end) names.

Definition numeric_part (df : DataFrame) : list (string * list (option Q)) :=
  flat_map (fun nc => match snd nc with
                      | Numeric xs => [(fst nc, xs)]
                      | Object _ => []
                      end) df.

Definition object_part (df : DataFrame) : list (string * list (option string)) :=
  flat_map (fun nc => match snd nc with
                      | Object xs => [(fst nc, xs)]
                      | Numeric _ => []
                      end) df.

Definition any_null_in (df : DataFrame) (name : string) : bool :=
  match dict_get df name with
  | Some c => any_null c
  | None => false
  end.

Definition missing_in (df : DataFrame) (name : string) : nat :=
  match dict_get df name with
  | Some c => missing c
  | None => O
  end.

Definition set_stats (column strategy : string) (before after : nat)
    (s : AdvancedImputer) : AdvancedImputer :=
  mkImputer (numerical_imputers s) (categorical_imputers s) (label_encoders s)
            (missing_analysis s) (recommendations s)
            (dict_set (imputation_stats s) column (mkStats strategy before after)).

Definition set_numerical_imputer (column : string) (imp : imputer)
    (s : AdvancedImputer) : AdvancedImputer :=
  mkImputer (dict_set (numerical_imputers s) column imp) (categorical_imputers s)
            (label_encoders s) (missing_analysis s) (recommendations s)
            (imputation_stats s).

Definition set_categorical_imputer (column : string) (imp : imputer)
    (s : AdvancedImputer) : AdvancedImputer :=
  mkImputer (numerical_imputers s) (dict_set (categorical_imputers s) column imp)
            (label_encoders s) (missing_analysis s) (recommendations s)
            (imputation_stats s).

Definition set_label_encoder (column : string) (classes : option (list string))
    (s : AdvancedImputer) : AdvancedImputer :=
  mkImputer (numerical_imputers s) (categorical_imputers s)
            (dict_set (label_encoders s) column classes)
            (missing_analysis s) (recommendations s) (imputation_stats s).

Definition set_analysis (info : list (string * missing_info))
    (recs : list (string * recommendation)) (s : AdvancedImputer)
    : AdvancedImputer :=
  mkImputer (numerical_imputers s) (categorical_imputers s) (label_encoders s)
            info recs (imputation_stats s).

(** [np.round(x).astype(int)]: to the nearest integer, a half to the even
    neighbour. *)
Definition round_half_even (q : Q) : Z :=
  let f := Qfloor q in
  let d := q - inject_Z f in
  if Qeq_bool d (1 # 2) then (if Z.even f then f else f + 1)%Z
  else if Qle_bool d (1 # 2) then f
  else (f + 1)%Z.

(** [LabelEncoder.inverse_transform]: every code must be a position of
    [classes_]. *)
Definition inverse_transform (classes : list string) (codes : list Z)
    : result (list string) :=
  if forallb (fun z => (0 <=? z)%Z && (z <? Z.of_nat (List.length classes))%Z) codes
  then Ok (map (fun z => nth (Z.to_nat z) classes "") codes)
  else Raise ValueError.

(** Lines 187-196 for one categorical column: a new, unfitted encoder when
    the column has none yet; fitted on the observed labels if there are
    any, which are then replaced by their codes. *)
Definition encode_column (name : string) (xs : list (option string))
    : M (list (option Q)) :=
  s <- get_self ;;
  (match dict_get (label_encoders s) name with
   | Some _ => ret tt
   | None => update_self (set_label_encoder name None)
   end) ;;;
  if has_observed xs then
    let classes := classes_of (observed xs) in
    update_self (set_label_encoder name (Some classes)) ;;;
    ret (map (option_map (fun x => inject_Z (Z.of_nat (index_of x classes)))) xs)
  else ret (map (fun _ => None) xs).

Fixpoint encode_all (cols : list (string * list (option string))) : M matrix :=
  match cols with
  | [] => ret []
  | (name, xs) :: t =>
      c <- encode_column name xs ;;
      rest <- encode_all t ;;
      ret (c :: rest)
  end.

Section FitTransform.
Variable skew : list (option Q) -> option Q.
Variable estimate : estimator.
(** What [SimpleImputer(strategy='most_frequent')] fills a text column
    with. *)
Variable most_frequent : list (option string) -> string.

Definition fit_transform_most_frequent (xs : list (option string))
    : list (list string) :=
  if has_observed xs
  then [map (fun x => match x with Some v => v | None => most_frequent xs end) xs]
  else [].

(** The body of the first loop, lines 149-172. *)
Definition impute_numerical_column (df df_imputed : ref)
    (numerical_cols : list string) (info : list (string * missing_info))
    (column : string) : M unit :=
  d <- load df ;;
  if mem column numerical_cols && any_null_in d column then
    di <- load df_imputed ;;
    choice <- lift (smart_impute_numerical skew di column "auto") ;;
    let '(imp, strategy) := choice in
    (if String.eqb strategy "knn" || String.eqb strategy "iterative" then
       let numerical_subset := numeric_part (subset di numerical_cols) in
       let imputed_values :=
         sk_fit_transform estimate imp (map snd numerical_subset) in
       let col_index := get_loc column (map fst numerical_subset) in
       match nth_error imputed_values col_index with
       | None => raise IndexError
       | Some v => setitem df_imputed column (Numeric (map Some v))
       end
     else
       match dict_get di column with
       | Some (Numeric xs) =>
           setitem df_imputed column
             (Numeric (map Some (List.concat (sk_fit_transform estimate imp [xs]))))
       | _ => raise (KeyError column)
       end) ;;;
    update_self (set_numerical_imputer column imp) ;;;
    di' <- load df_imputed ;;
    match dict_get info column with
    | None => raise (KeyError column)
    | Some i =>
        update_self (set_stats column strategy (missing_count i)
                               (missing_in di' column))
    end
  else ret tt.

(** The body of the second loop, lines 176-220. *)
Definition impute_categorical_column (df df_imputed : ref)
    (categorical_cols : list string) (info : list (string * missing_info))
    (column : string) : M unit :=
  d <- load df ;;
  if mem column categorical_cols && any_null_in d column then
    di <- load df_imputed ;;
    choice <- lift (smart_impute_categorical di column "auto") ;;
    let '(imp, strategy) := choice in
    (if String.eqb strategy "knn" then
       let categorical_subset := object_part (subset di categorical_cols) in
       encoded_data <- encode_all categorical_subset ;;
       let imputed_encoded := sk_fit_transform estimate imp encoded_data in
       let col_index := get_loc column (map fst categorical_subset) in
       match nth_error imputed_encoded col_index with
       | None => raise IndexError
       | Some v =>
           let imputed_column := map round_half_even v in
           s <- get_self ;;
           match dict_get (label_encoders s) column with
           | None => raise (KeyError column)
           | Some None => raise NotFittedError
           | Some (Some classes) =>
               labels <- lift (inverse_transform classes imputed_column) ;;
               setitem df_imputed column (Object (map Some labels))
           end
       end
     else
       match dict_get di column with
       | Some (Object xs) =>
           setitem df_imputed column
             (Object (map Some (List.concat (fit_transform_most_frequent xs))))
       | _ => raise (KeyError column)
       end) ;;;
    update_self (set_categorical_imputer column imp) ;;;
    di' <- load df_imputed ;;
    match dict_get info column with
    | None => raise (KeyError column)
    | Some i =>
        update_self (set_stats column strategy (missing_count i)
                               (missing_in di' column))
    end
  else ret tt.

Definition fit_transform (df : ref) (target_columns : option (list string))
    (preserve_original : bool) : M ref :=
  d <- load df ;;
  df_imputed <- (if preserve_original then alloc d else ret df) ;;
  let target_columns :=
    match target_columns with
    | Some l => l
    | None => columns (filter (fun nc => any_null (snd nc)) d)
    end in
  let '(missing_info, recommendations) := analyze_missing_data d in
  update_self (set_analysis missing_info recommendations) ;;;
  let numerical_cols := columns (filter (fun nc => is_numeric (snd nc)) d) in
  let categorical_cols :=
    columns (filter (fun nc => negb (is_numeric (snd nc))) d) in
  for_each target_columns
    (impute_numerical_column df df_imputed numerical_cols missing_info) ;;;
  for_each target_columns
    (impute_categorical_column df df_imputed categorical_cols missing_info) ;;;
  ret df_imputed.

(** *** [impute_real_estate_data], lines 257-283 *)
Record config := mkConfig {
  price_strategy : string;
  location_strategy : string;
  surface_strategy : string;
  rooms_strategy : string;
  preserve_original : bool
}.

Definition default_config : config :=
  mkConfig "knn" "mode" "iterative" "knn" true.

(** The table of column aliases, lines 273-278; nothing reads it. *)
Definition real_estate_columns : list (string * list string) :=
  [ ("price", ["Price"; "price"; "Prix"; "prix"]);
    ("surface", ["Surface"; "surface"; "area"; "Area"; "superficie"]);
    ("rooms", ["Rooms"; "rooms"; "chambres"; "Chambres"; "NbRooms"]);
    ("location", ["Location"; "location"; "Wilaya"; "wilaya"; "ville"]) ].

(** The imputer is a new object; the answer is the imputed table and the
    imputer, which is the [self] of the final state. *)
Definition impute_real_estate_data (df : ref) (cfg : option config) : M ref :=
  let config := match cfg with Some c => c | None => default_config end in
  update_self (fun _ => new_imputer) ;;;
  fit_transform df None (preserve_original config).
End FitTransform.

End AdvancedImputation.

(** ** src/clean_data.py, the other steps of [clean_real_estate_data] *)
Module CleanDataSteps.
Import CleanData.

(** *** Step 2: rows with neither price nor unit, lines 30-32 *)
Definition drop_invalid_prices (df : DataFrame) : DataFrame :=
  let invalid_price_mask r := isna (Price r) && isna (PriceUnit r) in
  filter (fun r => negb (invalid_price_mask r)) df.

(** *** Step 3: price imputation by wilaya, lines 65-77 *)

(** [df.loc[mask, 'NormalizedPrice'] = value]. *)
Definition loc_set_NormalizedPrice (mask : list bool) (value : Q)
    (df : DataFrame) : DataFrame :=
  map (fun rm => if (snd rm : bool) then set_NormalizedPrice (Some value) (fst rm)
                 else fst rm)
      (combine df mask).

(** [df[mask]['NormalizedPrice']]. *)
Definition NormalizedPrice_where (mask : list bool) (df : DataFrame)
    : list (option Q) :=
  map (fun rm => NormalizedPrice (fst rm))
      (filter (fun rm => snd rm) (combine df mask)).

(** One round of the loop of lines 70-77; a missing wilaya is skipped. *)
Definition fill_price_wilaya (price_missing_mask : list bool) (df : DataFrame)
    (wilaya : option string) : DataFrame :=
  if isna wilaya then df
  else
    let wilaya_mask := map (fun r => series_eq (Wilaya r) wilaya) df in
    let wilaya_median := median (NormalizedPrice_where wilaya_mask df) in
    match wilaya_median with
    | Some m =>
        loc_set_NormalizedPrice
          (map (fun ab => fst ab && snd ab) (combine wilaya_mask price_missing_mask))
          m df
    | None => df
    end.

Definition impute_prices (df : DataFrame) : DataFrame :=
  let price_missing_mask := map (fun r => isna (NormalizedPrice r)) df in
  if (0 <? count_true price_missing_mask)%nat
  then fold_left (fill_price_wilaya price_missing_mask)
                 (unique cell_eqb (map Wilaya df)) df
  else df.

(** *** Step 4: the last fills of the location columns, lines 138-143

    The two columns side by side: a row is its [Location] and its [Wilaya]. *)
Definition places := (option string * option string)%type.

(** Line 139: a missing location next to a known wilaya. *)
Definition fill_unknown_in_wilaya (r : places) : places :=
  match r with
  | (None, Some w) => (Some ("Unknown-" ++ w), Some w)
  | _ => r
  end.

(** Line 142. *)
Definition fill_unknown_wilaya (r : places) : places :=
  match r with
  | (l, None) => (l, Some "Unknown")
  | _ => r
  end.

(** Line 143. *)
Definition fill_unknown_location (r : places) : places :=
  match r with
  | (None, w) => (Some "Unknown", w)
  | _ => r
  end.

Definition fill_unknown_places (df : list places) : list places :=
  map fill_unknown_location (map fill_unknown_wilaya (map fill_unknown_in_wilaya df)).

(** *** Step 5: transaction types, lines 150-156 *)

Definition occurrences (x : string) (l : list string) : nat :=
  List.length (filter (String.eqb x) l).

(** [Series.mode()]: the most frequent observed values, in increasing
    order; empty when nothing is observed. *)
Definition mode (col : list (option string)) : list string :=
  let values := observed col in
  let classes := classes_of values in
  let best := fold_right Nat.max O (map (fun c => occurrences c values) classes) in
  filter (fun c => (occurrences c values =? best)%nat) classes.

Definition set_TransactionType (v : option string) (r : Row) : Row :=
  mkRow (Price r) (PriceUnit r) v (Wilaya r) (Surface r)
        (Rooms r) (NormalizedPrice r) (CleanSurface r) (CleanRooms r).

Definition impute_transaction_types (df : DataFrame) : DataFrame :=
  let transaction_missing_mask := map (fun r => isna (TransactionType r)) df in
  if (0 <? count_true transaction_missing_mask)%nat then
    let most_common_transaction :=
      match mode (map TransactionType df) with
      | m :: _ => m
      | [] => "SALE"
      end in
    map (fun r => if isna (TransactionType r)
                  then set_TransactionType (Some most_common_transaction) r
                  else r) df
  else df.

(** *** Step 8: room imputation, lines 252-280 *)








(** *** Step 11: property type from the title, lines 328-347 *)

Definition to_lower (c : ascii) : ascii :=
  let n := nat_of_ascii c in
  if (65 <=? n)%nat && (n <=? 90)%nat then ascii_of_nat (n + 32) else c.

(** [str.lower()], on the ASCII letters. *)
Definition lower (s : list ascii) : list ascii := map to_lower s.

Fixpoint starts_with (k s : list ascii) : bool :=
  match k, s with
  | [], _ => true
  | a :: k', b :: s' => Ascii.eqb a b && starts_with k' s'
  | _ :: _, [] => false
  end.

(** [k in s]: [k] occurs somewhere in [s]. *)
Fixpoint contains (k s : list ascii) : bool :=
  starts_with k s
  || match s with
     | [] => false
     | _ :: t => contains k t
     end.

Definition mentions (keyword : string) (title_lower : list ascii) : bool :=
  contains (list_ascii_of_string keyword) title_lower.

Definition extract_property_type (title : option string) : string :=
  match title with
  | None => "Unknown"
  | Some t =>
      let title_lower := lower (list_ascii_of_string t) in
      if mentions "appartement" title_lower then "Appartement"
      else if mentions "villa" title_lower then "Villa"
      else if mentions "maison" title_lower then "Maison"
      else if mentions "terrain" title_lower then "Terrain"
      else if mentions "local" title_lower then "Local"
      else if mentions "studio" title_lower then "Studio"
      else "Autre"
  end.

(** *** Step 12: the last fill of the prices, line 372 *)
Definition fill_prices_with_median (df : DataFrame) : DataFrame :=
  let m := median (map NormalizedPrice df) in
  map (fun r => match NormalizedPrice r, m with
                | None, Some v => set_NormalizedPrice (Some v) r
                | _, _ => r
                end) df.

(** *** [split_data_by_transaction_type], lines 392-409

    A row of the final table is its [TransactionType] and its other
    columns; dropping the column leaves the other columns. *)
Definition split_data_by_transaction_type {A} (df : list (option string * A))
    : list A * list A :=
  let df_sales := filter (fun r => series_eq (fst r) (Some "Vente")) df in
  let df_rental := filter (fun r => series_eq (fst r) (Some "Location")) df in
  (map snd df_sales, map snd df_rental).

End CleanDataSteps.

(** ** src/real-estate-platform/data/clean_data.py *)
Module Platform.
Import AdvancedImputation.

(** [df[mask]]: the rows where the mask holds, in every column. *)
Fixpoint keep {A} (mask : list bool) (l : list A) : list A :=
  match mask, l with
  | true :: m, x :: t => x :: keep m t
  | false :: m, _ :: t => keep m t
  | _, _ => []
  end.

Definition keep_rows (mask : list bool) (c : column) : column :=
  match c with
  | Numeric xs => Numeric (keep mask xs)
  | Object xs => Object (keep mask xs)
  end.

Definition select (mask : list bool) (df : DataFrame) : DataFrame :=
  map (fun nc => (fst nc, keep_rows mask (snd nc))) df.

(** [df.dropna(subset=..., how=...)]: a row goes when every ([how='all'])
    or some ([how='any'], the default) cell of the subset is missing. *)
Inductive how := any | all.

Fixpoint first_absent (df : DataFrame) (names : list string) : option string :=
  match names with
  | [] => None
  | n :: t =>
      match dict_get df n with
      | Some _ => first_absent df t
      | None => Some n
      end
  end.

Definition null_at (c : column) (i : nat) : bool := nth i (isnull c) false.

Definition dropped (h : how) (cols : list column) (i : nat) : bool :=
  match h with
  | any => existsb (fun c => null_at c i) cols
  | all => forallb (fun c => null_at c i) cols
  end.

Definition dropna (subset_names : list string) (h : how) (df : DataFrame)
    : result DataFrame :=
  match first_absent df subset_names with
  | Some n => Raise (KeyError n)
  | None =>
      let cols := map snd (subset df subset_names) in
      Ok (select (map (fun i => negb (dropped h cols i)) (seq 0 (len df))) df)
  end.

Definition try_except {A} (body : M A) (handler : exn -> M A) : M A :=
  fun st =>
    match body st with
    | (Ok a, st') => (Ok a, st')
    | (Raise e, st') => handler e st'
    end.

Definition critical_columns : list string :=
  ["TransactionType"; "Location"; "Wilaya"; "Price"].

Section Cleaning.
Variable skew : list (option Q) -> option Q.
Variable estimate : estimator.
Variable most_frequent : list (option string) -> string.

Definition imputation_config : config :=
  mkConfig "knn" "mode" "iterative" "knn" false.

(** [clean_data], lines 26-86.  The report of lines 64-77 only prints. *)
Definition clean_data (df : ref) : M ref :=
  d <- load df ;;
  d <- lift (dropna critical_columns all d) ;;
  df <- alloc d ;;
  try_except
    (df_imputed <- impute_real_estate_data skew estimate most_frequent
                     df (Some imputation_config) ;;
     ret df_imputed)
    (fun e =>
       d <- load df ;;
       d <- lift (dropna critical_columns any d) ;;
       alloc d).
End Cleaning.

(** [filter_realistic_prices], lines 115-122. *)
Definition filter_realistic_prices (df : DataFrame) (price_column : string)
    (min_price max_price : Q) : result DataFrame :=
  match dict_get df price_column with
  | None => Raise (KeyError price_column)
  | Some (Object _) => Raise TypeError
  | Some (Numeric xs) =>
      Ok (select (map (fun x => ge_cell x min_price && le_cell x max_price) xs) df)
  end.

Definition default_min_price : Q := inject_Z 10000.
Definition default_max_price : Q := inject_Z 50000000.

Section ToNumeric.
(** [pd.to_numeric(..., errors='coerce')] on a text: its number, or NaN. *)
Variable to_numeric : string -> option Q.

Definition coerce (c : column) : list (option Q) :=
  match c with
  | Numeric xs => xs
  | Object xs => map (fun x => match x with
                               | Some t => to_numeric t
                               | None => None
                               end) xs
  end.

(** The body shared by [extract_surface_info] (lines 126-135) and by one
    round of [extract_room_info] (lines 144-153). *)
Definition coerce_and_filter (col : string) (lo hi : Q) (df : DataFrame)
    : DataFrame :=
  match dict_get df col with
  | None => df
  | Some c =>
      let xs := coerce c in
      let df := dict_set df col (Numeric xs) in
      select (map (fun x => isna x || (ge_cell x lo && le_cell x hi)) xs) df
  end.

Definition extract_surface_info (df : DataFrame) : DataFrame :=
  coerce_and_filter "Surface" (inject_Z 5) (inject_Z 10000) df.

Definition extract_room_info (df : DataFrame) : DataFrame :=
  let room_columns := ["Rooms"; "NbRooms"; "Chambres"] in
  fold_left (fun df col => coerce_and_filter col 0 (inject_Z 20) df)
            room_columns df.
End ToNumeric.

(** [Series.replace([np.inf, -np.inf], np.nan)]. *)
Definition replace_inf (x : fval) : fval :=
  match x with FInf _ => FNaN | _ => x end.

(** One cell of [df['Price'] / df['Surface']] after the replacement, lines
    196-197. *)
Definition price_per_sqm (price surface : option Q) : fval :=
  replace_inf (fdiv (fval_of_cell price) (fval_of_cell surface)).

Definition cell_of_fval (x : fval) : option Q :=
  match x with FNum q => Some q | _ => None end.

(** [add_derived_features], lines 195-197 (the price per square metre). *)
Definition add_derived_features (df : DataFrame) : result DataFrame :=
  match dict_get df "Price", dict_get df "Surface" with
  | Some (Numeric ps), Some (Numeric ss) =>
      Ok (dict_set df "PricePerSqm"
            (Numeric (map (fun px => cell_of_fval (price_per_sqm (fst px) (snd px)))
                          (combine ps ss))))
  | Some _, Some _ => Raise TypeError
  | _, _ => Ok df
  end.

(** [normalize_price(price_str)], lines 88-113, on a text cell (a cell of
    another type is first written out by [str], which is not modelled). *)

(** [str.strip()]. *)
Fixpoint lstrip (s : list ascii) : list ascii :=
  match s with
  | c :: t => if is_space c then lstrip t else s
  | [] => []
  end.

Definition strip (s : list ascii) : list ascii := rev (lstrip (rev (lstrip s))).

Definition is_comma (c : ascii) : bool := Ascii.eqb c ","%char.
Definition is_dot (c : ascii) : bool := Ascii.eqb c "."%char.

(** [re.sub(r'[^\d.,]', '', s)]. *)
Definition keep_price_chars (s : list ascii) : list ascii :=
  filter (fun c => is_digit c || is_dot c || is_comma c) s.

(** [s.replace(',', '')] and [s.replace(',', '.')]. *)
Definition remove_commas (s : list ascii) : list ascii :=
  filter (fun c => negb (is_comma c)) s.

Definition commas_to_dots (s : list ascii) : list ascii :=
  map (fun c => if is_comma c then "."%char else c) s.

(** [s.split(',')[1]]: what follows the first comma (up to the next). *)
Fixpoint after_first_comma (s : list ascii) : list ascii :=
  match s with
  | [] => []
  | c :: t => if is_comma c then fst (span (fun x => negb (is_comma x)) t)
              else after_first_comma t
  end.

(** [float(s)] on a text of digits and dots: digits with at most one dot
    and at least one digit; anything else is a [ValueError]. *)
Definition float_of_text (s : list ascii) : option Q :=
  let '(ip, r) := span is_digit s in
  match r with
  | [] => match ip with
          | [] => None
          | _ => Some (CleanData.float_of_decimal ip [])
          end
  | c :: r2 =>
      if is_dot c then
        let '(fp, r3) := span is_digit r2 in
        match r3, (ip ++ fp)%list with
        | [], _ :: _ => Some (CleanData.float_of_decimal ip fp)
        | _, _ => None
        end
      else None
  end.

Definition normalize_separators (s : list ascii) : list ascii :=
  if existsb is_comma s && existsb is_dot s then remove_commas s
  else if existsb is_comma s then
    if (count_true (map is_comma s) =? 1)%nat
       && (List.length (after_first_comma s) <=? 2)%nat
    then commas_to_dots s
    else remove_commas s
  else s.

Definition normalize_price (price_str : option string) : option Q :=
  match price_str with
  | None => None
  | Some t =>
      let price_str := strip (list_ascii_of_string t) in
      let price_str := keep_price_chars price_str in
      let price_str := normalize_separators price_str in
      float_of_text price_str
  end.

(** The property type of [add_derived_features], lines 200-205: the column
    starts as 'Unknown' and is overwritten bucket by bucket. *)
Definition property_type (surface : option Q) : string :=
  let t := "Unknown" in
  let t := if le_cell surface (inject_Z 50) then "Studio/Small Apartment" else t in
  let t := if gt_cell surface (inject_Z 50) && le_cell surface (inject_Z 100)
           then "Medium Apartment" else t in
  let t := if gt_cell surface (inject_Z 100) && le_cell surface (inject_Z 200)
           then "Large Apartment" else t in
  let t := if gt_cell surface (inject_Z 200) then "House/Villa" else t in
  t.

Definition add_property_type (df : DataFrame) : result DataFrame :=
  match dict_get df "Surface" with
  | None => Ok df
  | Some (Object _) => Raise TypeError
  | Some (Numeric ss) =>
      Ok (dict_set df "PropertyType" (Object (map (fun s => Some (property_type s)) ss)))
  end.

(** The range filters as [main] chains them, lines 327-329. *)
Definition range_filters (to_numeric : string -> option Q) (df : DataFrame)
    : result DataFrame :=
  match filter_realistic_prices df "Price" default_min_price default_max_price with
  | Raise e => Raise e
  | Ok df => Ok (extract_room_info to_numeric (extract_surface_info to_numeric df))
  end.

(** [select_final_columns], lines 229-253. *)
Definition column_mapping : list (string * string) :=
  [ ("TransactionType", "transaction_type");
    ("Price", "price");
    ("Surface", "surface");
    ("Location", "location");
    ("Wilaya", "wilaya");
    ("Rooms", "rooms");
    ("NbRooms", "rooms");
    ("Chambres", "rooms");
    ("Description", "description");
    ("PricePerSqm", "price_per_sqm");
    ("PropertyType", "property_type") ].

Definition select_final_columns (df : DataFrame) : DataFrame :=
  let available_columns :=
    filter (fun col => mem col (columns df)) (columns column_mapping) in
  let df_final := subset df available_columns in
  map (fun nc => (match dict_get column_mapping (fst nc) with
                  | Some name => name
                  | None => fst nc
                  end, snd nc)) df_final.

(** [split_data_by_transaction_type], lines 255-264. *)
Definition to_lower_text (x : option string) : option string :=
  option_map (fun t => string_of_list_ascii
                         (CleanDataSteps.lower (list_ascii_of_string t))) x.

Definition sales_labels : list string := ["sale"; "vente"; "sell"].
Definition rental_labels : list string := ["rent"; "rental"; "location"; "louer"].

Definition is_sale (x : option string) : bool :=
  CleanData.isin (to_lower_text x) sales_labels.

Definition is_rental (x : option string) : bool :=
  CleanData.isin (to_lower_text x) rental_labels.

Inductive split_outcome :=
| Split (sales_data rental_data : DataFrame)
| NoSuchColumn
| NotATextColumn.

Definition split_data_by_transaction_type (df : DataFrame) : split_outcome :=
  match dict_get df "transaction_type" with
  | None => NoSuchColumn
  | Some (Numeric _) => NotATextColumn
  | Some (Object xs) =>
      Split (select (map is_sale xs) df) (select (map is_rental xs) df)
  end.

End Platform.

(** * Properties *)

(** ** Comparisons on cells *)

Lemma Qle_bool_false_iff (x y : Q) : Qle_bool x y = false <-> y < x.
Proof.
  split; intro H.
  - apply Qnot_le_lt. intro Hle. apply Qle_bool_iff in Hle. congruence.
  - destruct (Qle_bool x y) eqn:E; [|reflexivity].
    apply Qle_bool_iff in E. exfalso. exact (Qlt_not_le _ _ H E).
Qed.

Lemma str_is_true (x : option string) (s : string) :
  str_is x s = true <-> x = Some s.
Proof.
  destruct x as [t|]; simpl; split; intro H; try discriminate.
  - apply String.eqb_eq in H. now subst.
  - injection H as ->. apply String.eqb_refl.
Qed.

Lemma str_is_false (x : option string) (s : string) :
  x <> Some s -> str_is x s = false.
Proof.
  intro H. destruct (str_is x s) eqn:E; [|reflexivity].
  apply str_is_true in E. contradiction.
Qed.

(** ** The price normalizer of src/clean_data.py *)
Section NormalizePrice.
Import CleanData.

Definition million : Q := inject_Z 1000000.
Definition billion : Q := inject_Z 1000000000.

Definition recognized_units : list string :=
  ["MILLION"; "BILLION"; "UNIT"; "UNIT_PER_SQUARE"; "MILLION_PER_SQUARE"].

(** C4.  A price that is absent, or not strictly positive, normalizes to
    missing; a strictly positive price is multiplied by 1,000,000 under
    MILLION and MILLION_PER_SQUARE, by 1,000,000,000 under BILLION, and
    returned as it is under UNIT and UNIT_PER_SQUARE. *)
Theorem normalize_price_contract (row : Row) :
  (Price row = None -> normalize_price row = None) /\
  (forall p, Price row = Some p -> p <= 0 -> normalize_price row = None) /\
  (forall p, Price row = Some p -> 0 < p ->
     (PriceUnit row = Some "MILLION" ->
      normalize_price row = Some (p * million)) /\
     (PriceUnit row = Some "BILLION" ->
      normalize_price row = Some (p * billion)) /\
     (PriceUnit row = Some "UNIT" -> normalize_price row = Some p) /\
     (PriceUnit row = Some "UNIT_PER_SQUARE" -> normalize_price row = Some p) /\
     (PriceUnit row = Some "MILLION_PER_SQUARE" ->
      normalize_price row = Some (p * million))).
Proof.
  unfold normalize_price. split; [|split].
  - now intros ->.
  - intros p -> Hp. apply Qle_bool_iff in Hp. now rewrite Hp.
  - intros p -> Hp. apply Qle_bool_false_iff in Hp. rewrite Hp.
    repeat split; intros ->; reflexivity.
Qed.

Definition million_row : Row :=
  mkRow (Some (5 # 2)) (Some "MILLION") None None NaN NaN None None None.

Lemma normalize_price_contract_witness :
  normalize_price million_row = Some ((5 # 2) * million).
Proof.
  destruct (normalize_price_contract million_row) as (_ & _ & H).
  destruct (H (5 # 2) eq_refl) as (HM & _); [reflexivity|].
  exact (HM eq_refl).
Defined.

(** C10.  A strictly positive price whose unit is missing, or is none of
    the five recognized tags, is returned unchanged. *)
Theorem normalize_price_unrecognized_unit (row : Row) (p : Q) :
  Price row = Some p ->
  0 < p ->
  (forall u, In u recognized_units -> PriceUnit row <> Some u) ->
  normalize_price row = Some p.
Proof.
  intros HP Hp Hu. unfold normalize_price. rewrite HP.
  apply Qle_bool_false_iff in Hp. rewrite Hp.
  rewrite !str_is_false; [reflexivity|..]; apply Hu; simpl; tauto.
Qed.

Definition thousand_row : Row :=
  mkRow (Some 7) (Some "THOUSAND") None None NaN NaN None None None.

Lemma normalize_price_unrecognized_unit_witness :
  normalize_price thousand_row = Some 7.
Proof.
  apply (normalize_price_unrecognized_unit thousand_row 7).
  - reflexivity.
  - reflexivity.
  - intros u Hu. simpl in Hu.
    destruct Hu as [<-|[<-|[<-|[<-|[<-|[]]]]]]; discriminate.
Defined.

(** The same with no unit at all. *)
Example normalize_price_missing_unit :
  normalize_price
    (mkRow (Some 7) None None None NaN NaN None None None) = Some 7.
Proof. reflexivity. Qed.
End NormalizePrice.

(** ** Surface and room cleaning of src/clean_data.py *)
Section CleanBounds.
Import CleanData.









Definition scraped_rows : DataFrame :=
  [ mkRow None None None None (Str "['124 m2']") (Str "['3 pieces']") None None None;
    mkRow None None None None (Str "3 m2") (Str "45") None None None;
    mkRow None None None None (Str "9000 m") NaN None None None ].

Example cleaned_scraped_rows :
  map (fun r => (CleanSurface r, CleanRooms r))
      (clean_rooms (clean_surface scraped_rows))
  = [ (Some (inject_Z 124 / inject_Z 1), Some (inject_Z 3));
      (None, None); (None, None) ].
Proof. reflexivity. Qed.

End CleanBounds.

(** ** Price per square metre *)
Section PricePerArea.

Lemma Qeq_bool_false_pos (s : Q) : 0 < s -> Qeq_bool s 0 = false.
Proof.
  intro H. destruct (Qeq_bool s 0) eqn:E; [|reflexivity].
  apply Qeq_bool_iff in E. rewrite E in H. now apply Qlt_irrefl in H.
Qed.




End PricePerArea.

(** ** The range filters *)
Section RangeFilters.
Import AdvancedImputation.

(** In src/clean_data.py a missing normalized price passes the filter,
    under either kind of unit. *)
Lemma missing_price_passes (r : CleanData.Row) :
  CleanData.NormalizedPrice r = None -> CleanData.price_filter_keeps r = true.
Proof.
  intro H. unfold CleanData.price_filter_keeps, CleanData.valid_regular_prices,
    CleanData.valid_per_sqm_prices. rewrite H. simpl.
  now destruct (CleanData.per_sqm_mask r).
Qed.

Lemma missing_price_row_kept (df : CleanData.DataFrame) (r : CleanData.Row) :
  In r df -> CleanData.NormalizedPrice r = None ->
  In r (CleanData.filter_unrealistic_prices df).
Proof.
  intros Hin H. apply filter_In. split; [exact Hin|].
  now apply missing_price_passes.
Qed.

(** The surface and room filters of the platform pipeline keep a row whose
    cell is missing: its mask is [isna | in range]. *)
Lemma missing_cell_mask (x : option Q) (lo hi : Q) :
  x = None -> isna x || (ge_cell x lo && le_cell x hi) = true.
Proof. now intros ->. Qed.

Definition listings_with_missing_price : DataFrame :=
  [ ("Price", Numeric [Some (inject_Z 20000); None; Some (inject_Z 5)]);
    ("Surface", Numeric [None; Some (inject_Z 80); Some (inject_Z 60)]);
    ("Location", Object [Some "Alger"; Some "Oran"; Some "Annaba"]) ].

(** C6, on [filter_realistic_prices]: the row whose price is missing is
    removed together with the row whose price is out of range, since a
    comparison with NaN is false and the mask has no [isna] alternative. *)
Theorem price_filter_drops_missing_price :
  Platform.filter_realistic_prices listings_with_missing_price "Price"
    Platform.default_min_price Platform.default_max_price
  = Ok [ ("Price", Numeric [Some (inject_Z 20000)]);
         ("Surface", Numeric [None]);
         ("Location", Object [Some "Alger"]) ].
Proof. reflexivity. Qed.

(** The sibling filter keeps the row whose surface is missing. *)
Example surface_filter_keeps_missing_surface :
  Platform.extract_surface_info (fun _ => None) listings_with_missing_price
  = listings_with_missing_price.
Proof. reflexivity. Qed.
End RangeFilters.

(** ** The strategy selector *)
Section StrategySelector.
Import AdvancedImputation.
Variable skew : list (option Q) -> option Q.

Lemma inject_nat_pos (n : nat) : (0 < n)%nat -> 0 < inject_Z (Z.of_nat n).
Proof.
  intro H. change 0 with (inject_Z 0). rewrite <- Zlt_Qlt. lia.
Qed.

Lemma percentage_value (m n : nat) :
  (0 < n)%nat ->
  exists v, percentage m n = Some v /\
            v == inject_Z (Z.of_nat (100 * m)) / inject_Z (Z.of_nat n).
Proof.
  intro Hn. destruct n as [|n']; [lia|]. eexists. split; [reflexivity|].
  rewrite Nat2Z.inj_mul, inject_Z_mult. simpl (Z.of_nat 100).
  assert (Hb : ~ inject_Z (Z.of_nat (S n')) == 0).
  { intro E. pose proof (inject_nat_pos (S n') Hn) as P.
    rewrite E in P. now apply Qlt_irrefl in P. }
  field. exact Hb.
Qed.

(** The percentage is below a threshold [k] exactly when
    [100 * missing < k * rows]. *)
Lemma percentage_below (m n k : nat) :
  (0 < n)%nat ->
  lt_cell (percentage m n) (inject_Z (Z.of_nat k)) = true
  <-> (100 * m < k * n)%nat.
Proof.
  intro Hn. destruct (percentage_value m n Hn) as (v & -> & Hv).
  pose proof (inject_nat_pos n Hn) as Hb.
  simpl. rewrite negb_true_iff, Qle_bool_false_iff, Hv. split.
  - intro H. apply Qlt_not_le in H.
    destruct (Nat.lt_ge_cases (100 * m) (k * n)) as [L|G]; [exact L|].
    exfalso. apply H. apply Qle_shift_div_l; [exact Hb|].
    rewrite <- inject_Z_mult, <- Zle_Qle. lia.
  - intro H. apply Qlt_shift_div_r; [exact Hb|].
    rewrite <- inject_Z_mult, <- Zlt_Qlt. lia.
Qed.

Lemma percentage_not_below (m n k : nat) :
  (0 < n)%nat ->
  lt_cell (percentage m n) (inject_Z (Z.of_nat k)) = false
  <-> (k * n <= 100 * m)%nat.
Proof.
  intro Hn. pose proof (percentage_below m n k Hn) as H.
  destruct (lt_cell _ _); split; intro G; try reflexivity; try discriminate.
  - assert (100 * m < k * n)%nat by now apply H. lia.
  - destruct (Nat.lt_ge_cases (100 * m) (k * n)) as [L|G']; [|exact G'].
    apply H in L. discriminate.
Qed.

Definition highly_skewed (xs : list (option Q)) : Prop :=
  exists v, skew xs = Some v /\ 1 < Qabs v.

Lemma abs_gt_iff (xs : list (option Q)) :
  abs_gt (skew xs) 1 = true <-> highly_skewed xs.
Proof.
  unfold abs_gt, highly_skewed. destruct (skew xs) as [v|].
  - rewrite negb_true_iff, Qle_bool_false_iff. split.
    + intro H. now exists v.
    + now intros (w & [= <-] & H).
  - split; [discriminate|]. now intros (w & [=] & _).
Qed.

(** C7.  Under the 'auto' policy a numeric column of a table with at
    least one row gets: below 5% missing, a simple fill, by the median
    when the magnitude of the skewness exceeds 1 and by the mean otherwise;
    from 5% and below 20%, k nearest neighbours weighted by distance with
    k = min(5, max(3, floor(sqrt(complete rows)))); from 20% on, iterative
    regression with a random forest of 10 trees and at most 10 rounds. *)
Theorem numeric_auto_strategy (df : DataFrame) (column : string)
    (xs : list (option Q)) :
  dict_get df column = Some (Numeric xs) ->
  (0 < len df)%nat ->
  let m := missing (Numeric xs) in
  let n := len df in
  ((100 * m < 5 * n)%nat ->
     (highly_skewed xs ->
      smart_impute_numerical skew df column "auto"
      = Ok (SimpleImputer Median, "simple")) /\
     (~ highly_skewed xs ->
      smart_impute_numerical skew df column "auto"
      = Ok (SimpleImputer Mean, "simple"))) /\
  ((5 * n <= 100 * m)%nat -> (100 * m < 20 * n)%nat ->
     smart_impute_numerical skew df column "auto"
     = Ok (KNNImputer (Nat.min 5 (Nat.max 3 (Nat.sqrt (len_dropna df))))
                      Distance, "knn")) /\
  ((20 * n <= 100 * m)%nat ->
     smart_impute_numerical skew df column "auto"
     = Ok (IterativeImputer (RandomForestRegressor 10 42) 10 42, "iterative")).
Proof.
  intros Hc Hn m n. unfold smart_impute_numerical. rewrite Hc.
  fold m. fold n.
  change (inject_Z 5) with (inject_Z (Z.of_nat 5)).
  change (inject_Z 20) with (inject_Z (Z.of_nat 20)).
  split; [|split].
  - intro H5. apply (percentage_below m n 5 Hn) in H5. rewrite H5. simpl.
    split; intro Hs.
    + apply abs_gt_iff in Hs. now rewrite Hs.
    + destruct (abs_gt (skew xs) 1) eqn:E; [|reflexivity].
      apply abs_gt_iff in E. contradiction.
  - intros H5 H20. apply (percentage_not_below m n 5 Hn) in H5.
    apply (percentage_below m n 20 Hn) in H20. rewrite H5, H20. reflexivity.
  - intro H20.
    assert (H5 : (5 * n <= 100 * m)%nat) by lia.
    apply (percentage_not_below m n 5 Hn) in H5.
    apply (percentage_not_below m n 20 Hn) in H20. rewrite H5, H20. reflexivity.
Qed.
End StrategySelector.

Section StrategySelectorExamples.
Import AdvancedImputation.

Definition no_skew : list (option Q) -> option Q := fun _ => None.

(** Twenty rows, three of them (15%) without a surface. *)
Definition surfaces_15_percent : list (option Q) :=
  (repeat None 3 ++ repeat (Some (inject_Z 80)) 17)%list.

Definition table_15_percent : DataFrame :=
  [ ("Surface", Numeric surfaces_15_percent);
    ("Price", Numeric (repeat (Some (inject_Z 900000)) 20)) ].

Lemma numeric_auto_strategy_witness :
  smart_impute_numerical no_skew table_15_percent "Surface" "auto"
  = Ok (KNNImputer 4 Distance, "knn").
Proof.
  destruct (numeric_auto_strategy no_skew table_15_percent "Surface"
              surfaces_15_percent eq_refl) as (_ & H & _).
  - vm_compute. lia.
  - apply H; vm_compute; lia.
Defined.
End StrategySelectorExamples.

(** ** The fallback of the surface imputation *)
Section SurfaceFallback.
Import CleanData.

(** *** The fallback in the words of the specification

    A missing surface takes the median of the surfaces observed in its
    own wilaya, when there is one; whatever is still missing then takes
    the median of the whole column, when there is one. *)
Definition wilaya_median (df : DataFrame) (w : option string) : option Q :=
  median (map CleanSurface (filter (fun r => series_eq (Wilaya r) w) df)).

Definition fill_missing_with (m : option Q) (r : Row) : Row :=
  match CleanSurface r, m with
  | None, Some v => set_CleanSurface (Some v) r
  | _, _ => r
  end.

Definition groupwise_median_fill (df : DataFrame) : DataFrame :=
  map (fun r => fill_missing_with (wilaya_median df (Wilaya r)) r) df.

Definition global_median_fill (df : DataFrame) : DataFrame :=
  map (fill_missing_with (median (map CleanSurface df))) df.

Definition groupwise_then_global (df : DataFrame) : DataFrame :=
  global_median_fill (groupwise_median_fill df).

(** *** The loop of the code computes it *)

Lemma combine_map_map {A B C} (f : A -> B) (g : A -> C) (l : list A) :
  combine (map f l) (map g l) = map (fun x => (f x, g x)) l.
Proof. induction l; simpl; congruence. Qed.

Lemma combine_map_r {A B} (g : A -> B) (l : list A) :
  combine l (map g l) = map (fun x => (x, g x)) l.
Proof. induction l; simpl; congruence. Qed.

Lemma filter_map_comm {A B} (f : A -> B) (p : B -> bool) (l : list A) :
  filter p (map f l) = map f (filter (fun x => p (f x)) l).
Proof.
  induction l as [|x t IH]; simpl; [reflexivity|].
  destruct (p (f x)); simpl; congruence.
Qed.

Lemma series_eq_true (a b : option string) :
  series_eq a b = true <-> exists s, a = Some s /\ b = Some s.
Proof.
  destruct a as [x|], b as [y|]; simpl; split; try discriminate.
  - intro H. apply String.eqb_eq in H. subst. now exists y.
  - intros (s & [= ->] & [= ->]). apply String.eqb_refl.
  - now intros (s & _ & [=]).
  - now intros (s & [=] & _).
  - now intros (s & [=] & _).
Qed.

Lemma cell_eqb_true (a b : option string) : cell_eqb a b = true <-> a = b.
Proof.
  destruct a as [x|], b as [y|]; simpl; split; try discriminate; try reflexivity.
  - intro H. apply String.eqb_eq in H. now subst.
  - intros [= ->]. apply String.eqb_refl.
Qed.

Lemma existsb_cell_eqb (x : option string) (l : list (option string)) :
  existsb (cell_eqb x) l = true <-> In x l.
Proof.
  rewrite existsb_exists. split.
  - intros (y & Hy & E). apply cell_eqb_true in E. now subst.
  - intro H. exists x. split; [exact H|]. now apply cell_eqb_true.
Qed.

(** The table after the wilayas of [done] have had their round. *)
Definition filled_in (df0 : DataFrame) (done : list (option string)) (r : Row)
    : Row :=
  if existsb (series_eq (Wilaya r)) done
  then fill_missing_with (wilaya_median df0 (Wilaya r)) r
  else r.

Lemma Wilaya_fill_missing_with m r : Wilaya (fill_missing_with m r) = Wilaya r.
Proof. unfold fill_missing_with. now destruct (CleanSurface r), m. Qed.

Lemma Wilaya_filled_in df0 done r : Wilaya (filled_in df0 done r) = Wilaya r.
Proof.
  unfold filled_in. destruct (existsb _ done); [|reflexivity].
  apply Wilaya_fill_missing_with.
Qed.

Lemma existsb_series_eq_In (s : string) (l : list (option string)) :
  existsb (series_eq (Some s)) l = true <-> In (Some s) l.
Proof.
  rewrite existsb_exists. split.
  - intros (y & Hy & E). apply series_eq_true in E.
    destruct E as (t & [= <-] & ->). exact Hy.
  - intro H. exists (Some s). split; [exact H|]. simpl. apply String.eqb_refl.
Qed.

(** A row of a wilaya whose round is still to come is as it was. *)
Lemma filled_in_pending df0 done w r :
  ~ In w done -> series_eq (Wilaya r) w = true -> filled_in df0 done r = r.
Proof.
  intros Hw E. apply series_eq_true in E. destruct E as (s & Hr & ->).
  unfold filled_in. rewrite Hr.
  destruct (existsb (series_eq (Some s)) done) eqn:X; [|reflexivity].
  apply existsb_series_eq_In in X. contradiction.
Qed.

Lemma pending_group_unchanged df0 done w (l : DataFrame) :
  ~ In w done ->
  CleanSurface_where
    (map (fun r => series_eq (Wilaya r) w) (map (filled_in df0 done) l))
    (map (filled_in df0 done) l)
  = map CleanSurface (filter (fun r => series_eq (Wilaya r) w) l).
Proof.
  intro Hw. unfold CleanSurface_where.
  rewrite combine_map_r, filter_map_comm, !map_map. simpl.
  rewrite filter_map_comm, map_map.
  induction l as [|r t IH]; simpl; [reflexivity|].
  rewrite Wilaya_filled_in.
  destruct (series_eq (Wilaya r) w) eqn:E; simpl; [|exact IH].
  rewrite (filled_in_pending _ done w r Hw E). now f_equal.
Qed.

Lemma filled_in_next df0 done w r :
  ~ In w done ->
  (if series_eq (Wilaya (filled_in df0 done r)) w && isna (CleanSurface r)
   then match wilaya_median df0 w with
        | Some m => set_CleanSurface (Some m) (filled_in df0 done r)
        | None => filled_in df0 done r
        end
   else filled_in df0 done r)
  = filled_in df0 (w :: done) r.
Proof.
  intro Hw. rewrite Wilaya_filled_in.
  destruct (series_eq (Wilaya r) w) eqn:E.
  - rewrite (filled_in_pending _ done w r Hw E).
    unfold filled_in. simpl existsb. rewrite E. simpl.
    apply series_eq_true in E. destruct E as (s & Hr & ->). rewrite Hr.
    unfold fill_missing_with.
    destruct (CleanSurface r); simpl; [reflexivity|].
    now destruct (wilaya_median df0 (Some s)).
  - simpl. unfold filled_in at 2. simpl existsb. rewrite E. reflexivity.
Qed.

(** One round of the loop. *)
Lemma fill_wilaya_round df0 done w :
  ~ In w done ->
  fill_wilaya (map (fun r => isna (CleanSurface r)) df0)
              (map (filled_in df0 done) df0) w
  = map (filled_in df0 (w :: done)) df0.
Proof.
  intro Hw. unfold fill_wilaya.
  rewrite (pending_group_unchanged df0 done w df0 Hw).
  fold (wilaya_median df0 w).
  destruct (wilaya_median df0 w) as [m|] eqn:M.
  - unfold loc_set_CleanSurface.
    rewrite (map_map (filled_in df0 done)), combine_map_map, map_map.
    rewrite combine_map_map, map_map. simpl.
    apply map_ext. intro r.
    rewrite <- (filled_in_next df0 done w r Hw), M. reflexivity.
  - apply map_ext. intro r.
    rewrite <- (filled_in_next df0 done w r Hw), M.
    now destruct (_ && _).
Qed.

(** The wilayas seen once [unique] has gone through [l]. *)
Definition seen_after (seen l : list (option string)) : list (option string) :=
  fold_left (fun s x => if existsb (cell_eqb x) s then s else x :: s) l seen.

Lemma fill_wilaya_loop df0 (l seen : list (option string)) :
  fold_left (fill_wilaya (map (fun r => isna (CleanSurface r)) df0))
            (unique_acc cell_eqb seen l)
            (map (filled_in df0 seen) df0)
  = map (filled_in df0 (seen_after seen l)) df0.
Proof.
  revert seen. induction l as [|x t IH]; intro seen; simpl; [reflexivity|].
  destruct (existsb (cell_eqb x) seen) eqn:E.
  - apply IH.
  - simpl. rewrite fill_wilaya_round.
    + apply IH.
    + intro H. apply existsb_cell_eqb in H. congruence.
Qed.

Lemma seen_after_keeps x (l seen : list (option string)) :
  In x seen -> In x (seen_after seen l).
Proof.
  revert seen. induction l as [|y t IH]; intros seen H; simpl; [exact H|].
  apply IH. destruct (existsb (cell_eqb y) seen); [exact H|now right].
Qed.

Lemma seen_after_all x (l seen : list (option string)) :
  In x l -> In x (seen_after seen l).
Proof.
  revert seen. induction l as [|y t IH]; intros seen H; simpl; [destruct H|].
  destruct H as [->|H]; [|now apply IH].
  apply seen_after_keeps.
  destruct (existsb (cell_eqb x) seen) eqn:E; [|now left].
  now apply existsb_cell_eqb.
Qed.

Lemma filled_in_nothing df0 r : filled_in df0 [] r = r.
Proof. reflexivity. Qed.

Lemma filled_in_everything df0 r :
  In r df0 ->
  filled_in df0 (seen_after [] (map Wilaya df0)) r
  = fill_missing_with (wilaya_median df0 (Wilaya r)) r.
Proof.
  intro Hin. unfold filled_in. destruct (Wilaya r) as [s|] eqn:W.
  - assert (X : existsb (series_eq (Some s))
                        (seen_after [] (map Wilaya df0)) = true).
    { apply existsb_series_eq_In, seen_after_all. rewrite <- W.
      now apply in_map. }
    now rewrite X.
  - destruct (existsb _ _); [|]; unfold fill_missing_with, wilaya_median.
    + reflexivity.
    + assert (F : filter (fun r0 => series_eq (Wilaya r0) None) df0 = []).
      { clear. induction df0 as [|a t IH]; simpl; [reflexivity|].
        now destruct (Wilaya a). }
      rewrite F. simpl. now destruct (CleanSurface r).
Qed.

Lemma fill_global_median_spec (df : DataFrame) :
  fill_global_median df = global_median_fill df.
Proof.
  unfold fill_global_median, global_median_fill, loc_set_CleanSurface.
  destruct (median (map CleanSurface df)) as [m|].
  - rewrite combine_map_r, map_map. apply map_ext. intro r. simpl.
    unfold fill_missing_with. now destruct (CleanSurface r).
  - rewrite <- (map_id df) at 1. apply map_ext. intro r.
    unfold fill_missing_with. now destruct (CleanSurface r).
Qed.

(** The branch of lines 217-227 is the fill of the specification. *)
Lemma median_fallback_spec (df : DataFrame) :
  median_fallback (map (fun r => isna (CleanSurface r)) df) df
  = groupwise_then_global df.
Proof.
  unfold median_fallback, groupwise_then_global, unique.
  rewrite fill_global_median_spec. f_equal.
  pose proof (fill_wilaya_loop df (map Wilaya df) []) as L.
  rewrite (map_ext _ id (filled_in_nothing df)), map_id in L.
  rewrite L. unfold groupwise_median_fill.
  apply map_ext_in. intros r Hr. now apply filled_in_everything.
Qed.
End SurfaceFallback.

Section SurfaceImputationMethod.
Import CleanData.
Variable estimate : estimator.

Lemma count_true_zero {A} (f : A -> bool) (l : list A) :
  count_true (map f l) = O -> forall x, In x l -> f x = false.
Proof.
  unfold count_true. induction l as [|a t IH]; simpl; intros H x Hx.
  - destruct Hx.
  - destruct (f a) eqn:E; simpl in H; [discriminate|].
    destruct Hx as [<-|Hx]; [exact E|now apply IH].
Qed.

Lemma nothing_missing_nothing_filled (df : DataFrame) :
  count_true (map (fun r => isna (CleanSurface r)) df) = O ->
  groupwise_then_global df = df.
Proof.
  intro H. pose proof (count_true_zero _ df H) as Hall.
  assert (G : groupwise_median_fill df = df).
  { unfold groupwise_median_fill. rewrite <- (map_id df) at 2.
    apply map_ext_in. intros r Hr. specialize (Hall r Hr). simpl in Hall.
    unfold fill_missing_with. now destruct (CleanSurface r). }
  unfold groupwise_then_global. rewrite G. unfold global_median_fill.
  rewrite <- (map_id df) at 3. apply map_ext_in. intros r Hr.
  specialize (Hall r Hr). simpl in Hall. unfold fill_missing_with.
  now destruct (CleanSurface r).
Qed.

(** The encoded wilaya is never missing, so a table with a row always has
    a feature to impute from. *)
Lemma some_feature_available (df : DataFrame) :
  df <> [] -> (0 <? List.length (available_features df))%nat = true.
Proof.
  destruct df as [|r t]; [congruence|]. intros _.
  unfold available_features. simpl filter.
  destruct (negb _); reflexivity.
Qed.

(** C3.  When fewer than 10 rows are complete over the imputation
    features and the surface, the surface step does not run the k nearest
    neighbours (it prints no such message and its answer does not depend
    on the imputer): a missing surface takes the median of its wilaya, and
    what is still missing takes the median of the column. *)
Theorem few_complete_rows_use_medians (df : DataFrame) :
  (complete_rows (available_features df ++ [map CleanSurface df])%list
                 (List.length df) < 10)%nat ->
  impute_surface estimate df = ([], groupwise_then_global df).
Proof.
  intro Hfew. unfold impute_surface.
  destruct (0 <? count_true (map (fun r => isna (CleanSurface r)) df))%nat eqn:Hm.
  - assert (Hne : df <> []).
    { intros ->. discriminate Hm. }
    rewrite (some_feature_available df Hne).
    destruct (10 <? _)%nat eqn:Hk.
    + apply Nat.ltb_lt in Hk. lia.
    + now rewrite median_fallback_spec.
  - apply Nat.ltb_ge in Hm.
    rewrite nothing_missing_nothing_filled; [reflexivity|lia].
Qed.
End SurfaceImputationMethod.

Section SurfaceImputationExamples.
Import CleanData.

Definition listing (w : string) (price surface : option Q) : Row :=
  mkRow None None (Some "SALE") (Some w) NaN NaN price surface None.

(** Twenty rows, three of them (15%) without a surface, and only six with
    both a price and a surface. *)
Definition six_complete_rows : DataFrame :=
  ([ listing "Alger" (Some (inject_Z 900000)) None;
     listing "Oran" (Some (inject_Z 700000)) None;
     listing "Adrar" None None ]
   ++ repeat (listing "Alger" (Some (inject_Z 900000)) (Some (inject_Z 80))) 3
   ++ repeat (listing "Oran" (Some (inject_Z 700000)) (Some (inject_Z 60))) 3
   ++ repeat (listing "Alger" None (Some (inject_Z 100))) 6
   ++ repeat (listing "Oran" None (Some (inject_Z 60))) 5)%list.

Definition zero_estimate : estimator := fun _ _ _ _ => 0.

Lemma few_complete_rows_use_medians_witness :
  impute_surface zero_estimate six_complete_rows
  = ([], groupwise_then_global six_complete_rows).
Proof.
  apply (few_complete_rows_use_medians zero_estimate six_complete_rows).
  vm_compute. lia.
Defined.

(** The three missing surfaces become the median of Alger (100), the
    median of Oran (the mean of 60 and 60) and, for the wilaya with no
    surface at all, the median of the column (80). *)
Example six_complete_rows_filled :
  map CleanSurface
      (firstn 3 (snd (impute_surface zero_estimate six_complete_rows)))
  = [ Some (inject_Z 100); Some (120 # 2); Some (inject_Z 80) ].
Proof. vm_compute. reflexivity. Qed.
End SurfaceImputationExamples.

(** ** The imputation entry point *)
Section EntryPoint.
Import AdvancedImputation.

Definition first_label : list (option string) -> string :=
  fun xs => hd "" (observed xs).

Definition run {A} (m : M A) (tables : list DataFrame) : result A * state :=
  m (mkState tables new_imputer).

(** The strategies recorded in [imputation_stats], column by column. *)
Definition strategies_used (st : state) : list (string * string) :=
  map (fun kv => (fst kv, strategy (snd kv))) (imputation_stats (self st)).

(** The strategies of the configuration play no part in the answer. *)
Lemma configured_strategies_ignored skew estimate most_frequent df
    (c1 c2 : config) :
  preserve_original c1 = preserve_original c2 ->
  impute_real_estate_data skew estimate most_frequent df (Some c1)
  = impute_real_estate_data skew estimate most_frequent df (Some c2).
Proof. unfold impute_real_estate_data. now intros ->. Qed.

(** Twenty-five listings: one price (4%), two surfaces (8%) and three
    locations (12%) are missing. *)
Definition listings_25 : DataFrame :=
  [ ("Price",
     Numeric (None :: repeat (Some (inject_Z 900000)) 24));
    ("Surface",
     Numeric (Some (inject_Z 70) :: None :: None
              :: repeat (Some (inject_Z 80)) 22));
    ("Rooms", Numeric (repeat (Some (inject_Z 3)) 25));
    ("Location",
     Object (Some "Alger" :: Some "Oran" :: Some "Oran" :: None :: None
             :: None :: repeat (Some "Alger") 19)) ].

(** C2, at a table the entry point can receive: with the overrides of
    [clean_data] (price by k nearest neighbours, location by mode, surface
    by iterative regression) the price is filled by the simple strategy,
    the surface by k nearest neighbours and the location by k nearest
    neighbours, as the percentages alone decide. *)
Theorem overrides_not_applied :
  strategies_used
    (snd (run (impute_real_estate_data no_skew zero_estimate first_label 0%nat
                 (Some Platform.imputation_config))
              [listings_25]))
  = [ ("Price", "simple"); ("Surface", "knn"); ("Location", "knn") ].
Proof. vm_compute. reflexivity. Qed.

(** Ten listings whose first numeric column has no observed value; one
    surface (10%) is missing. *)
Definition listings_empty_column : DataFrame :=
  [ ("Rooms", Numeric (repeat None 10));
    ("Surface",
     Numeric (Some (inject_Z 80) :: None :: Some (inject_Z 60)
              :: repeat (Some (inject_Z 120)) 7));
    ("Price",
     Numeric (Some (inject_Z 900000) :: Some (inject_Z 700000)
              :: Some (inject_Z 650000) :: repeat (Some (inject_Z 1200000)) 7)) ].

Definition column_of (res : result ref * state) (name : string)
    : option column :=
  match fst res with
  | Ok r => dict_get (nth r (heap (snd res)) []) name
  | Raise _ => None
  end.

(** C1, at a table with an empty numeric column before the target: the
    imputer (k nearest neighbours here) leaves the empty column out of its
    answer, the position of the target is looked up in the table it was
    given, and the surfaces are overwritten with the prices, observed ones
    included. *)
Theorem observed_surfaces_overwritten skew estimate most_frequent :
  column_of (run (fit_transform skew estimate most_frequent 0%nat
                    (Some ["Surface"]) true)
                 [listings_empty_column])
            "Surface"
  = Some (Numeric (Some (inject_Z 900000) :: Some (inject_Z 700000)
                   :: Some (inject_Z 650000)
                   :: repeat (Some (inject_Z 1200000)) 7))
  /\ strategies_used
       (snd (run (fit_transform skew estimate most_frequent 0%nat
                    (Some ["Surface"]) true)
                 [listings_empty_column]))
     = [("Surface", "knn")].
Proof. split; vm_compute; reflexivity. Qed.
End EntryPoint.

(** ** The fallback of [clean_data] *)
Section ColumnsPreserved.
Import AdvancedImputation.
Variable skew : list (option Q) -> option Q.
Variable estimate : estimator.
Variable most_frequent : list (option string) -> string.

(** A computation keeps a property of the state, however it ends. *)
Definition preserves {A} (I : state -> Prop) (m : M A) : Prop :=
  forall st, I st -> I (snd (m st)).

Lemma preserves_ret {A} I (a : A) : preserves I (ret a).
Proof. now intros st H. Qed.

Lemma preserves_raise {A} I e : preserves I (@raise A e).
Proof. now intros st H. Qed.

Lemma preserves_lift {A} I (r : result A) : preserves I (lift r).
Proof. now intros st H. Qed.

Lemma preserves_load I r : preserves I (load r).
Proof. now intros st H. Qed.

Lemma preserves_get_self I : preserves I get_self.
Proof. now intros st H. Qed.

Lemma preserves_bind {A B} I (c : M A) (k : A -> M B) :
  preserves I c -> (forall a, preserves I (k a)) -> preserves I (bind c k).
Proof.
  intros Hc Hk st H. unfold bind. specialize (Hc st H).
  destruct (c st) as [[a|e] st']; simpl in *; [now apply Hk|exact Hc].
Qed.

Lemma preserves_for_each {A} I (l : list A) (body : A -> M unit) :
  (forall x, preserves I (body x)) -> preserves I (for_each l body).
Proof.
  intro Hb. induction l as [|x t IH]; simpl.
  - apply preserves_ret.
  - apply preserves_bind; [apply Hb|intros _; exact IH].
Qed.

(** The names of the columns of the object at address [r]. *)
Definition columns_at (r : ref) (names : list string) (st : state) : Prop :=
  columns (nth r (heap st) []) = names.

Lemma preserves_update_self r names f :
  preserves (columns_at r names) (update_self f).
Proof. now intros st H. Qed.

Lemma columns_dict_set {V} (d : list (string * V)) k v :
  In k (columns d) -> columns (dict_set d k v) = columns d.
Proof.
  unfold columns. induction d as [|[k' v'] t IH]; simpl; intro H.
  - destruct H.
  - destruct (String.eqb_spec k k') as [->|N]; simpl; [reflexivity|].
    f_equal. apply IH. destruct H as [H|H]; [congruence|exact H].
Qed.

Lemma nth_list_set {A} (h : list A) r x d :
  (r < List.length h)%nat -> nth r (list_set h r x) d = x.
Proof.
  revert r. induction h as [|y t IH]; intros r H; simpl in *; [lia|].
  destruct r; simpl; [reflexivity|]. apply IH. lia.
Qed.

Lemma list_set_beyond {A} (h : list A) r x :
  (List.length h <= r)%nat -> list_set h r x = h.
Proof.
  revert r. induction h as [|y t IH]; intros r H; simpl in *; [reflexivity|].
  destruct r; [lia|]. f_equal. apply IH. lia.
Qed.

Lemma preserves_setitem r names name c :
  In name names -> preserves (columns_at r names) (setitem r name c).
Proof.
  intros Hin st H. unfold setitem, bind, load, store, raise. simpl.
  destruct (col_len c =? len _)%nat; simpl; [|exact H].
  unfold columns_at in *. simpl.
  destruct (Nat.lt_ge_cases r (List.length (heap st))) as [L|G].
  - rewrite nth_list_set by exact L. rewrite columns_dict_set; [exact H|].
    now rewrite H.
  - now rewrite list_set_beyond.
Qed.

Lemma preserves_encode_all r names cols :
  preserves (columns_at r names) (encode_all cols).
Proof.
  induction cols as [|[name xs] t IH]; simpl.
  - apply preserves_ret.
  - apply preserves_bind.
    + unfold encode_column. apply preserves_bind; [apply preserves_get_self|].
      intro s. apply preserves_bind.
      * destruct (dict_get _ _); [apply preserves_ret|apply preserves_update_self].
      * intros _. destruct (has_observed xs).
        -- apply preserves_bind; [apply preserves_update_self|].
           intros _. apply preserves_ret.
        -- apply preserves_ret.
    + intro c. apply preserves_bind; [exact IH|]. intro rest. apply preserves_ret.
Qed.

Lemma mem_In k l : mem k l = true -> In k l.
Proof.
  unfold mem. rewrite existsb_exists. intros (x & Hx & E).
  apply String.eqb_eq in E. now subst.
Qed.

Lemma preserves_stats r names info column strategy di' :
  preserves (columns_at r names)
    (match dict_get info column with
     | None => raise (KeyError column)
     | Some i => update_self (set_stats column strategy (missing_count i)
                                        (missing_in di' column))
     end).
Proof.
  destruct (dict_get info column);
    [apply preserves_update_self|apply preserves_raise].
Qed.

Lemma preserves_numerical r names cols info column :
  (forall c, In c cols -> In c names) ->
  preserves (columns_at r names)
            (impute_numerical_column skew estimate r r cols info column).
Proof.
  intro Hsub. unfold impute_numerical_column.
  apply preserves_bind; [apply preserves_load|]. intro d.
  destruct (mem column cols && any_null_in d column) eqn:C;
    [|apply preserves_ret].
  apply andb_true_iff in C. destruct C as [C _].
  apply mem_In, Hsub in C.
  apply preserves_bind; [apply preserves_load|]. intro di.
  apply preserves_bind; [apply preserves_lift|]. intros [imp strategy].
  apply preserves_bind.
  - destruct (_ || _).
    + destruct (nth_error _ _);
        [now apply preserves_setitem|apply preserves_raise].
    + destruct (dict_get di column) as [[xs|xs]|];
        [now apply preserves_setitem|apply preserves_raise..].
  - intros _. apply preserves_bind; [apply preserves_update_self|].
    intros _. apply preserves_bind; [apply preserves_load|]. intro di'.
    apply preserves_stats.
Qed.

Lemma preserves_categorical r names cols info column :
  (forall c, In c cols -> In c names) ->
  preserves (columns_at r names)
            (impute_categorical_column estimate most_frequent r r cols info column).
Proof.
  intro Hsub. unfold impute_categorical_column.
  apply preserves_bind; [apply preserves_load|]. intro d.
  destruct (mem column cols && any_null_in d column) eqn:C;
    [|apply preserves_ret].
  apply andb_true_iff in C. destruct C as [C _].
  apply mem_In, Hsub in C.
  apply preserves_bind; [apply preserves_load|]. intro di.
  apply preserves_bind; [apply preserves_lift|]. intros [imp strategy].
  apply preserves_bind.
  - destruct (String.eqb strategy "knn").
    + apply preserves_bind; [apply preserves_encode_all|]. intro X.
      destruct (nth_error _ _); [|apply preserves_raise].
      apply preserves_bind; [apply preserves_get_self|]. intro s.
      destruct (dict_get (label_encoders s) column) as [[classes|]|];
        [|apply preserves_raise..].
      apply preserves_bind; [apply preserves_lift|]. intro labels.
      now apply preserves_setitem.
    + destruct (dict_get di column) as [[xs|xs]|];
        [apply preserves_raise|now apply preserves_setitem|apply preserves_raise].
  - intros _. apply preserves_bind; [apply preserves_update_self|].
    intros _. apply preserves_bind; [apply preserves_load|]. intro di'.
    apply preserves_stats.
Qed.

Lemma columns_filter_subset (p : string * column -> bool) (d : DataFrame) c :
  In c (columns (filter p d)) -> In c (columns d).
Proof.
  unfold columns. rewrite !in_map_iff. intros (x & E & H).
  apply filter_In in H. exists x. tauto.
Qed.

Lemma preserves_bind_load {B} I r (k : DataFrame -> M B) :
  (forall st, I st -> preserves I (k (nth r (heap st) []))) ->
  preserves I (bind (load r) k).
Proof. intros Hk st H. unfold bind, load. simpl. now apply Hk. Qed.

Lemma bind_ret {A B} (a : A) (k : A -> M B) : bind (ret a) k = k a.
Proof. reflexivity. Qed.

Lemma preserves_fit_transform_in_place r names targets :
  preserves (columns_at r names)
            (fit_transform skew estimate most_frequent r targets false).
Proof.
  unfold fit_transform. apply preserves_bind_load. intros st0 H0.
  set (d := nth r (heap st0) []). fold d in H0.
  unfold columns_at in H0. rewrite bind_ret.
  destruct (analyze_missing_data d) as [info recs].
  apply preserves_bind; [apply preserves_update_self|]. intros _.
  apply preserves_bind.
  - apply preserves_for_each. intro column. apply preserves_numerical.
    intros c Hc. rewrite <- H0. now apply columns_filter_subset in Hc.
  - intros _. apply preserves_bind; [|intros _; apply preserves_ret].
    apply preserves_for_each. intro column. apply preserves_categorical.
    intros c Hc. rewrite <- H0. now apply columns_filter_subset in Hc.
Qed.

(** Imputing in place keeps the columns of the caller's table, whether
    the call returns or raises. *)
Lemma impute_in_place_columns r cfg st :
  preserve_original cfg = false ->
  columns (nth r (heap (snd (impute_real_estate_data skew estimate most_frequent
                               r (Some cfg) st))) [])
  = columns (nth r (heap st) []).
Proof.
  intro Hp.
  assert (P : preserves (columns_at r (columns (nth r (heap st) [])))
                (impute_real_estate_data skew estimate most_frequent r (Some cfg))).
  { unfold impute_real_estate_data. rewrite Hp.
    apply preserves_bind; [apply preserves_update_self|]. intros _.
    apply preserves_fit_transform_in_place. }
  now apply P.
Qed.
End ColumnsPreserved.

Section DropNa.
Import AdvancedImputation Platform.

Lemma dict_get_None {V} (d : list (string * V)) k :
  dict_get d k = None <-> ~ In k (columns d).
Proof.
  unfold columns. induction d as [|[k' v] t IH]; simpl.
  - tauto.
  - destruct (String.eqb_spec k k') as [->|N].
    + split; [discriminate|]. intro H. exfalso. apply H. now left.
    + rewrite IH. split; intro H; [intros [E|I]; [congruence|tauto]|tauto].
Qed.

Lemma first_absent_columns (d d' : DataFrame) names :
  columns d = columns d' -> first_absent d names = first_absent d' names.
Proof.
  intro E. induction names as [|n t IH]; simpl; [reflexivity|].
  destruct (dict_get d n) eqn:G, (dict_get d' n) eqn:G'; try assumption;
    try reflexivity.
  - apply dict_get_None in G'. rewrite <- E in G'.
    apply dict_get_None in G'. congruence.
  - apply dict_get_None in G. rewrite E in G.
    apply dict_get_None in G. congruence.
Qed.

Lemma columns_select mask (d : DataFrame) : columns (select mask d) = columns d.
Proof. unfold columns, select. rewrite map_map. reflexivity. Qed.

Lemma dropna_Ok names h d d' :
  dropna names h d = Ok d' ->
  first_absent d names = None /\ columns d' = columns d.
Proof.
  unfold dropna. destruct (first_absent d names); [discriminate|].
  intros [= <-]. split; [reflexivity|apply columns_select].
Qed.

Lemma dict_get_select mask (d : DataFrame) k :
  dict_get (select mask d) k = option_map (keep_rows mask) (dict_get d k).
Proof.
  induction d as [|[k' c] t IH]; simpl; [reflexivity|].
  destruct (String.eqb k k'); [reflexivity|exact IH].
Qed.

Lemma keep_map {A B} (f : A -> B) mask (l : list A) :
  keep mask (map f l) = map f (keep mask l).
Proof.
  revert l. induction mask as [|b m IH]; intros [|x t]; simpl;
    try reflexivity; try (now destruct b).
  destruct b; simpl; now rewrite IH.
Qed.

Lemma isnull_keep_rows mask c :
  isnull (keep_rows mask c) = keep mask (isnull c).
Proof. destruct c; simpl; now rewrite keep_map. Qed.

Lemma keep_no_true mask (l : list bool) :
  (forall i, nth i mask false = true -> nth i l false = false) ->
  existsb id (keep mask l) = false.
Proof.
  revert l. induction mask as [|b m IH]; intros [|x t] H; simpl;
    try reflexivity; try (now destruct b).
  destruct b; simpl.
  - pose proof (H 0%nat eq_refl) as Hx. simpl in Hx. rewrite Hx. simpl.
    apply IH. intros i Hi. exact (H (S i) Hi).
  - apply IH. intros i Hi. exact (H (S i) Hi).
Qed.

Lemma nth_map_seq (f : nat -> bool) a n i :
  nth i (map f (seq a n)) false = true -> f (a + i)%nat = true.
Proof.
  revert a i. induction n as [|n IH]; intros a i; simpl.
  - now destruct i.
  - destruct i; simpl.
    + now rewrite Nat.add_0_r.
    + intro H. apply IH in H. now rewrite Nat.add_succ_r.
Qed.

Lemma subset_has d names n c :
  In n names -> dict_get d n = Some c -> In c (map snd (subset d names)).
Proof.
  intros Hn G. apply in_map_iff. exists (n, c). split; [reflexivity|].
  unfold subset. apply in_flat_map. exists n. split; [exact Hn|].
  rewrite G. now left.
Qed.

Lemma first_absent_None d names n :
  first_absent d names = None -> In n names -> exists c, dict_get d n = Some c.
Proof.
  induction names as [|k t IH]; simpl; intros H Hn; [destruct Hn|].
  destruct (dict_get d k) as [c|] eqn:G; [|discriminate].
  destruct Hn as [<-|Hn]; [now exists c|now apply IH].
Qed.

(** After [dropna] with [how='any'] the columns of the subset are there
    and hold no missing cell. *)
Lemma dropna_any_complete names d d' n :
  dropna names any d = Ok d' -> In n names ->
  exists c, dict_get d' n = Some c /\ any_null c = false.
Proof.
  intros H Hn. unfold dropna in H.
  destruct (first_absent d names) eqn:F; [discriminate|]. injection H as <-.
  destruct (first_absent_None d names n F Hn) as (c & G).
  exists (keep_rows (map (fun i => negb (dropped any (map snd (subset d names)) i))
                         (seq 0 (len d))) c).
  split; [now rewrite dict_get_select, G|].
  unfold any_null. rewrite isnull_keep_rows. apply keep_no_true.
  intros i Hi. apply nth_map_seq in Hi. simpl in Hi.
  apply negb_true_iff in Hi.
  destruct (nth i (isnull c) false) eqn:N; [|reflexivity].
  assert (X : existsb (fun c0 => null_at c0 i) (map snd (subset d names)) = true).
  { apply existsb_exists. exists c. split; [|exact N].
    now apply (subset_has d names n). }
  congruence.
Qed.
End DropNa.

Section CleanDataFallback.
Import AdvancedImputation Platform.
Variable skew : list (option Q) -> option Q.
Variable estimate : estimator.
Variable most_frequent : list (option string) -> string.

Lemma nth_length_app {A} (h : list A) x d : nth (List.length h) (h ++ [x]) d = x.
Proof. rewrite app_nth2 by lia. now rewrite Nat.sub_diag. Qed.

(** C9, amended.  When the imputation of the working table raises,
    [clean_data] does not raise: it answers a new table, got from the
    working table by dropping the rows in which any of the critical
    fields is missing, so that every critical field is present in every
    row it keeps. *)
Theorem imputation_failure_falls_back (df : ref) (st : state)
    (d1 : DataFrame) (e : exn) (st1 : state) :
  dropna critical_columns all (nth df (heap st) []) = Ok d1 ->
  impute_real_estate_data skew estimate most_frequent
    (List.length (heap st)) (Some imputation_config)
    (mkState (heap st ++ [d1]) (self st)) = (Raise e, st1) ->
  exists d2,
    dropna critical_columns any (nth (List.length (heap st)) (heap st1) []) = Ok d2
    /\ clean_data skew estimate most_frequent df st
       = (Ok (List.length (heap st1)), mkState (heap st1 ++ [d2]) (self st1))
    /\ forall c, In c critical_columns ->
         exists col, dict_get d2 c = Some col /\ any_null col = false.
Proof.
  intros Hall Himp.
  set (work := List.length (heap st)) in *.
  pose proof (impute_in_place_columns skew estimate most_frequent work
                imputation_config (mkState (heap st ++ [d1]) (self st)) eq_refl)
    as Hcols.
  rewrite Himp in Hcols. simpl in Hcols. unfold work in Hcols at 2.
  rewrite nth_length_app in Hcols.
  destruct (dropna_Ok _ _ _ _ Hall) as [Habs Hc1].
  assert (Hfa : first_absent (nth work (heap st1) []) critical_columns = None).
  { rewrite (first_absent_columns _ (nth df (heap st) [])); [exact Habs|].
    now rewrite Hcols. }
  assert (Hany : exists d2,
             dropna critical_columns any (nth work (heap st1) []) = Ok d2).
  { unfold dropna. rewrite Hfa. eexists. reflexivity. }
  destruct Hany as (d2 & Hd2). exists d2. split; [exact Hd2|]. split.
  - unfold clean_data, bind, load, lift, alloc, try_except. simpl.
    rewrite Hall. fold work. rewrite Himp. rewrite Hd2. reflexivity.
  - intros c Hc. exact (dropna_any_complete _ _ _ c Hd2 Hc).
Qed.
End CleanDataFallback.

Section CleanDataFallbackExamples.
Import AdvancedImputation Platform.

(** Four listings: one price is missing, one location is missing, and no
    surface is known, which makes the imputation of the surface raise
    after the price has been imputed. *)
Definition listings_no_surface : DataFrame :=
  [ ("Price",
     Numeric [Some (inject_Z 900000); None; Some (inject_Z 650000);
              Some (inject_Z 1200000)]);
    ("Surface", Numeric [None; None; None; None]);
    ("Location", Object [Some "Alger"; Some "Alger"; None; Some "Oran"]);
    ("Wilaya", Object [Some "Alger"; Some "Alger"; Some "Oran"; Some "Oran"]);
    ("TransactionType", Object [Some "SALE"; Some "SALE"; Some "RENT"; Some "SALE"]) ].

Definition clean_listings_no_surface : result ref * state :=
  run (clean_data no_skew zero_estimate first_label 0%nat) [listings_no_surface].

Example imputation_of_listings_no_surface_raises :
  fst (run (impute_real_estate_data no_skew zero_estimate first_label 0%nat
              (Some imputation_config)) [listings_no_surface])
  = Raise IndexError.
Proof. vm_compute. reflexivity. Qed.

Lemma imputation_failure_falls_back_witness :
  exists d2,
    fst clean_listings_no_surface = Ok 2%nat
    /\ nth 2 (heap (snd clean_listings_no_surface)) [] = d2
    /\ forall c, In c critical_columns ->
         exists col, dict_get d2 c = Some col /\ any_null col = false.
Proof.
  destruct (imputation_failure_falls_back no_skew zero_estimate first_label
              0%nat (mkState [listings_no_surface] new_imputer)
              listings_no_surface IndexError
              (snd (run (impute_real_estate_data no_skew zero_estimate
                           first_label 1%nat (Some imputation_config))
                        [listings_no_surface; listings_no_surface])))
    as (d2 & Hd & Hc & Hn).
  - vm_compute. reflexivity.
  - vm_compute. reflexivity.
  - exists d2. unfold clean_listings_no_surface, run. rewrite Hc.
    split; [vm_compute; reflexivity|]. split; [|exact Hn].
    cbn [snd heap].
    match goal with
    | |- nth _ (?h ++ _)%list _ = _ =>
        replace 2%nat with (List.length h) by (vm_compute; reflexivity)
    end.
    apply nth_length_app.
Defined.

(** C9, the claim as it stands fails: the table answered after a failed
    imputation is not the working table with exactly the rows missing all
    critical fields removed.  Here no row misses them all, yet the row
    that misses only its location is dropped (and the price imputed before
    the failure is still in the answer). *)
Lemma fallback_drops_rows_missing_any_field :
  ~ (forall skew estimate most_frequent df st d1 e st1,
       dropna critical_columns all (nth df (heap st) []) = Ok d1 ->
       impute_real_estate_data skew estimate most_frequent
         (List.length (heap st)) (Some imputation_config)
         (mkState (heap st ++ [d1]) (self st)) = (Raise e, st1) ->
       exists r st',
         clean_data skew estimate most_frequent df st = (Ok r, st')
         /\ nth r (heap st') [] = d1).
Proof.
  intro H.
  destruct (H no_skew zero_estimate first_label 0%nat
              (mkState [listings_no_surface] new_imputer)
              listings_no_surface IndexError
              (snd (run (impute_real_estate_data no_skew zero_estimate
                           first_label 1%nat (Some imputation_config))
                        [listings_no_surface; listings_no_surface])))
    as (r & st' & Hc & Hd).
  - vm_compute. reflexivity.
  - vm_compute. reflexivity.
  - vm_compute in Hc. injection Hc as <- <-. vm_compute in Hd. discriminate Hd.
Qed.

Example answer_after_failed_imputation :
  nth 2 (heap (snd clean_listings_no_surface)) []
  = [ ("Price",
       Numeric [Some (inject_Z 900000); Some 0; Some (inject_Z 1200000)]);
      ("Surface", Numeric [None; None; None]);
      ("Location", Object [Some "Alger"; Some "Alger"; Some "Oran"]);
      ("Wilaya", Object [Some "Alger"; Some "Alger"; Some "Oran"]);
      ("TransactionType", Object [Some "SALE"; Some "SALE"; Some "SALE"]) ].
Proof. vm_compute. reflexivity. Qed.
End CleanDataFallbackExamples.

(** ** Observed values under [fit_transform]

    When no column of the table is entirely missing, the imputers drop no
    column, the target is found where it is looked up, and every observed
    entry keeps its value. *)
Section ObservedKept.
Import AdvancedImputation.

(** Every observed cell of [xs0] is the same cell of [xs]. *)
Definition cells_kept {A} (xs0 xs : list (option A)) : Prop :=
  List.length xs = List.length xs0 /\
  forall i v, nth_error xs0 i = Some (Some v) -> nth_error xs i = Some (Some v).

Definition column_kept (c0 c : column) : Prop :=
  match c0, c with
  | Numeric xs0, Numeric xs => cells_kept xs0 xs
  | Object xs0, Object xs => cells_kept xs0 xs
  | _, _ => False
  end.

Definition table_kept (d0 d : DataFrame) : Prop :=
  columns d = columns d0 /\
  forall name c0, dict_get d0 name = Some c0 ->
    exists c, dict_get d name = Some c /\ column_kept c0 c.

Definition observed_somewhere (c : column) : bool :=
  match c with
  | Numeric xs => has_observed xs
  | Object xs => has_observed xs
  end.

Definition no_empty_column (d : DataFrame) : Prop :=
  forall name c, dict_get d name = Some c -> observed_somewhere c = true.

Lemma cells_kept_refl {A} (xs : list (option A)) : cells_kept xs xs.
Proof. split; [reflexivity|auto]. Qed.

Lemma cells_kept_trans {A} (xs0 xs1 xs2 : list (option A)) :
  cells_kept xs0 xs1 -> cells_kept xs1 xs2 -> cells_kept xs0 xs2.
Proof.
  intros [L1 H1] [L2 H2]. split; [congruence|]. intros i v H. auto.
Qed.

Lemma column_kept_refl c : column_kept c c.
Proof. destruct c; apply cells_kept_refl. Qed.

Lemma column_kept_trans c0 c1 c2 :
  column_kept c0 c1 -> column_kept c1 c2 -> column_kept c0 c2.
Proof.
  destruct c0, c1, c2; simpl; try tauto; apply cells_kept_trans.
Qed.

Lemma table_kept_refl d : table_kept d d.
Proof.
  split; [reflexivity|]. intros name c0 H. exists c0. split; [exact H|].
  apply column_kept_refl.
Qed.

Lemma has_observed_nth {A} (xs : list (option A)) :
  has_observed xs = true <-> exists i v, nth_error xs i = Some (Some v).
Proof.
  unfold has_observed. induction xs as [|x t IH]; simpl.
  - split; [discriminate|]. intros (i & v & H). now destruct i.
  - rewrite orb_true_iff, IH. split.
    + intros [H|(i & v & H)].
      * destruct x as [v|]; [|discriminate]. now exists 0%nat, v.
      * now exists (S i), v.
    + intros (i & v & H). destruct i as [|i]; simpl in H.
      * left. now injection H as ->.
      * right. now exists i, v.
Qed.

Lemma cells_kept_observed {A} (xs0 xs : list (option A)) :
  cells_kept xs0 xs -> has_observed xs0 = true -> has_observed xs = true.
Proof.
  intros [_ H] H0. apply has_observed_nth in H0. destruct H0 as (i & v & Hi).
  apply has_observed_nth. exists i, v. auto.
Qed.

Lemma column_kept_observed c0 c :
  column_kept c0 c -> observed_somewhere c0 = true -> observed_somewhere c = true.
Proof. destruct c0, c; simpl; try tauto; apply cells_kept_observed. Qed.

(** The missing cells of a column that keeps the observed ones are no more
    than before. *)
Lemma cells_kept_missing {A} (xs0 xs : list (option A)) :
  cells_kept xs0 xs ->
  (count_true (map isna xs) <= count_true (map isna xs0))%nat.
Proof.
  unfold count_true. revert xs. induction xs0 as [|x0 t0 IH]; intros xs [L H].
  - destruct xs; [simpl; lia|discriminate].
  - destruct xs as [|x t]; [discriminate|]. simpl in L.
    assert (Ht : cells_kept t0 t).
    { split; [lia|]. intros i v Hi. exact (H (S i) v Hi). }
    specialize (IH t Ht). simpl.
    destruct x0 as [v0|].
    + specialize (H 0%nat v0 eq_refl). simpl in H. injection H as ->.
      simpl. exact IH.
    + simpl. destruct x; simpl; lia.
Qed.

Lemma column_kept_missing c0 c :
  column_kept c0 c -> (missing c <= missing c0)%nat.
Proof.
  destruct c0, c; simpl; try tauto; unfold missing; simpl;
    apply cells_kept_missing.
Qed.

(** *** The imputer on a matrix without an empty column *)

Lemma enumerate_from_length {A} k (l : list A) :
  List.length (enumerate_from k l) = List.length l.
Proof. revert k. induction l; intro k; simpl; [reflexivity|now rewrite IHl]. Qed.

Lemma nth_error_enumerate_from {A} k (l : list A) i :
  nth_error (enumerate_from k l) i
  = option_map (fun x => ((k + i)%nat, x)) (nth_error l i).
Proof.
  revert k i. induction l as [|x t IH]; intros k i; simpl.
  - now destruct i.
  - destruct i; simpl; [now rewrite Nat.add_0_r|].
    rewrite IH. now rewrite Nat.add_succ_r.
Qed.

Lemma fill_column_kept estimate imp X j (xs : list (option Q)) :
  cells_kept xs (map Some (fill_column estimate imp X j xs)).
Proof.
  unfold fill_column, enumerate. split.
  - now rewrite !length_map, enumerate_from_length.
  - intros i v H. rewrite !nth_error_map, nth_error_enumerate_from, H. reflexivity.
Qed.

Lemma filter_all {A} (p : A -> bool) (l : list A) :
  (forall x, In x l -> p x = true) -> filter p l = l.
Proof.
  intro H. induction l as [|x t IH]; simpl; [reflexivity|].
  rewrite (H x (or_introl eq_refl)). f_equal. apply IH. intros y Hy.
  apply H. now right.
Qed.

Lemma in_enumerate_from {A} k (l : list A) j x :
  In (j, x) (enumerate_from k l) -> In x l.
Proof.
  revert k. induction l as [|y t IH]; intro k; simpl; [tauto|].
  intros [[= _ <-]|H]; [now left|right; exact (IH _ H)].
Qed.

(** With no empty column the answer has a column for each column given. *)
Lemma sk_fit_transform_full estimate imp (X : matrix) :
  (forall xs, In xs X -> has_observed xs = true) ->
  sk_fit_transform estimate imp X
  = map (fun jc => fill_column estimate imp X (fst jc) (snd jc)) (enumerate X).
Proof.
  intro H. unfold sk_fit_transform. rewrite filter_all; [reflexivity|].
  intros [j xs] Hin. simpl. apply H. exact (in_enumerate_from _ _ _ _ Hin).
Qed.

Lemma sk_fit_transform_nth estimate imp (X : matrix) p v :
  (forall xs, In xs X -> has_observed xs = true) ->
  nth_error (sk_fit_transform estimate imp X) p = Some v ->
  exists xs, nth_error X p = Some xs /\ cells_kept xs (map Some v).
Proof.
  intros H Hp. rewrite (sk_fit_transform_full _ _ _ H) in Hp.
  rewrite nth_error_map in Hp. unfold enumerate in Hp.
  rewrite nth_error_enumerate_from in Hp.
  destruct (nth_error X p) as [xs|]; [|discriminate]. simpl in Hp.
  injection Hp as <-. exists xs. split; [reflexivity|apply fill_column_kept].
Qed.

(** *** Where a name is found in a list of named columns *)

Lemma index_of_nth {V} (S : list (string * V)) name p x :
  index_of name (map fst S) = p ->
  nth_error S p = Some x ->
  fst x = name /\ dict_get S name = Some (snd x).
Proof.
  revert p. induction S as [|[k v] t IH]; intros p Hp Hn; simpl in *.
  - subst p. discriminate.
  - destruct (String.eqb_spec name k) as [->|N].
    + subst p. simpl in Hn. injection Hn as <-. now split.
    + destruct p as [|p]; [discriminate|]. injection Hp as Hp.
      simpl in Hn. exact (IH p Hp Hn).
Qed.
End ObservedKept.

Section ObservedKeptNumerical.
Import AdvancedImputation.
Variable skew : list (option Q) -> option Q.
Variable estimate : estimator.

Lemma dict_get_app {V} (a b : list (string * V)) k :
  dict_get (a ++ b)%list k
  = match dict_get a k with Some v => Some v | None => dict_get b k end.
Proof.
  induction a as [|[k' v] t IH]; simpl; [reflexivity|].
  destruct (String.eqb k k'); [reflexivity|exact IH].
Qed.

Lemma dict_get_In {V} (d : list (string * V)) k v :
  dict_get d k = Some v -> In (k, v) d.
Proof.
  induction d as [|[k' v'] t IH]; simpl; [discriminate|].
  destruct (String.eqb_spec k k') as [->|N].
  - intros [= ->]. now left.
  - intro H. right. now apply IH.
Qed.

Lemma numeric_part_subset_In (T : DataFrame) ns n xs :
  In (n, xs) (numeric_part (subset T ns)) -> dict_get T n = Some (Numeric xs).
Proof.
  unfold numeric_part, subset. rewrite in_flat_map.
  intros ([n' c] & Hin & Hx). apply in_flat_map in Hin.
  destruct Hin as (m & _ & Hm).
  destruct (dict_get T m) as [c'|] eqn:G; [|destruct Hm].
  destruct Hm as [[= <- <-]|[]]. simpl in Hx.
  destruct c' as [ys|ys]; [|destruct Hx].
  destruct Hx as [[= <- <-]|[]]. exact G.
Qed.

Lemma object_part_subset_In (T : DataFrame) ns n xs :
  In (n, xs) (object_part (subset T ns)) -> dict_get T n = Some (Object xs).
Proof.
  unfold object_part, subset. rewrite in_flat_map.
  intros ([n' c] & Hin & Hx). apply in_flat_map in Hin.
  destruct Hin as (m & _ & Hm).
  destruct (dict_get T m) as [c'|] eqn:G; [|destruct Hm].
  destruct Hm as [[= <- <-]|[]]. simpl in Hx.
  destruct c' as [ys|ys]; [destruct Hx|].
  destruct Hx as [[= <- <-]|[]]. exact G.
Qed.

Lemma dict_get_dict_set_same {V} (d : list (string * V)) k v :
  dict_get (dict_set d k v) k = Some v.
Proof.
  induction d as [|[k' v'] t IH]; simpl.
  - now rewrite String.eqb_refl.
  - destruct (String.eqb_spec k k') as [->|N]; simpl.
    + now rewrite String.eqb_refl.
    + destruct (String.eqb_spec k k'); [contradiction|exact IH].
Qed.

Lemma dict_get_dict_set_other {V} (d : list (string * V)) k k' v :
  k' <> k -> dict_get (dict_set d k v) k' = dict_get d k'.
Proof.
  intro N. induction d as [|[k0 v0] t IH]; simpl.
  - destruct (String.eqb_spec k' k); [contradiction|reflexivity].
  - destruct (String.eqb_spec k k0) as [->|N0]; simpl.
    + destruct (String.eqb_spec k' k0); [contradiction|reflexivity].
    + destruct (String.eqb k' k0); [reflexivity|exact IH].
Qed.

Lemma dict_get_Some_columns {V} (d : list (string * V)) k v :
  dict_get d k = Some v -> In k (columns d).
Proof.
  intro H. destruct (in_dec string_dec k (columns d)) as [I|N]; [exact I|].
  apply dict_get_None in N. congruence.
Qed.

(** The table imputed so far keeps the observed values of [d0]. *)
Variable d0 : DataFrame.
Variable di : ref.

Definition kept_so_far (st : state) : Prop :=
  table_kept d0 (nth di (heap st) []).

Lemma kept_update_self f : preserves kept_so_far (update_self f).
Proof. now intros st H. Qed.

Lemma table_kept_set T name c0 c' :
  table_kept d0 T ->
  dict_get d0 name = Some c0 -> column_kept c0 c' ->
  table_kept d0 (dict_set T name c').
Proof.
  intros [Hc Hk] H0 Hc'. split.
  - rewrite columns_dict_set; [exact Hc|]. rewrite Hc.
    exact (dict_get_Some_columns _ _ _ H0).
  - intros n c1 Hn. destruct (string_dec n name) as [->|N].
    + exists c'. split; [apply dict_get_dict_set_same|]. congruence.
    + rewrite dict_get_dict_set_other by exact N. now apply Hk.
Qed.

Lemma kept_setitem name c0 c' :
  dict_get d0 name = Some c0 -> column_kept c0 c' ->
  preserves kept_so_far (setitem di name c').
Proof.
  intros H0 Hc' st H. unfold setitem, bind, load, store, raise. simpl.
  destruct (col_len c' =? len _)%nat; simpl; [|exact H].
  unfold kept_so_far in *. simpl.
  destruct (Nat.lt_ge_cases di (List.length (heap st))) as [L|G].
  - rewrite nth_list_set by exact L. now apply (table_kept_set _ name c0).
  - now rewrite list_set_beyond.
Qed.

Hypothesis d0_no_empty : no_empty_column d0.

Lemma kept_no_empty T : table_kept d0 T -> no_empty_column T.
Proof.
  intros [Hc Hk] n c G.
  pose proof (dict_get_Some_columns _ _ _ G) as Hin. rewrite Hc in Hin.
  destruct (dict_get d0 n) as [c0|] eqn:G0.
  - destruct (Hk n c0 G0) as (c1 & G1 & K). rewrite G in G1. injection G1 as <-.
    exact (column_kept_observed _ _ K (d0_no_empty n c0 G0)).
  - apply dict_get_None in G0. contradiction.
Qed.

Lemma kept_column T name c :
  table_kept d0 T -> dict_get T name = Some c ->
  exists c0, dict_get d0 name = Some c0 /\ column_kept c0 c.
Proof.
  intros [Hc Hk] G.
  pose proof (dict_get_Some_columns _ _ _ G) as Hin. rewrite Hc in Hin.
  destruct (dict_get d0 name) as [c0|] eqn:G0.
  - destruct (Hk name c0 G0) as (c1 & G1 & K). rewrite G in G1.
    injection G1 as <-. now exists c0.
  - apply dict_get_None in G0. contradiction.
Qed.

(** The multivariate branch of lines 157-162 on a table [T] that keeps the
    observed values: the column written is the target's own, filled. *)
Lemma kept_multivariate T imp cols column :
  table_kept d0 T ->
  preserves kept_so_far
    (match nth_error
             (sk_fit_transform estimate imp
                (map snd (numeric_part (subset T cols))))
             (get_loc column (map fst (numeric_part (subset T cols)))) with
     | None => raise IndexError
     | Some v => setitem di column (Numeric (map Some v))
     end).
Proof.
  intro HT. set (S := numeric_part (subset T cols)).
  destruct (nth_error _ _) as [v|] eqn:Hn; [|apply preserves_raise].
  apply sk_fit_transform_nth in Hn.
  - destruct Hn as (xs & Hx & K). rewrite nth_error_map in Hx.
    destruct (nth_error S (get_loc column (map fst S))) as [[n ys]|] eqn:HS;
      [|discriminate].
    simpl in Hx. injection Hx as ->.
    destruct (index_of_nth S column _ _ eq_refl HS) as [Hname Hget].
    simpl in Hname, Hget. subst n.
    apply dict_get_In, numeric_part_subset_In in Hget.
    destruct (kept_column T column _ HT Hget) as (c0 & G0 & K0).
    apply (kept_setitem column c0); [exact G0|].
    apply (column_kept_trans _ (Numeric xs)); [exact K0|exact K].
  - intros xs Hin. apply in_map_iff in Hin. destruct Hin as ([n ys] & <- & Hin).
    apply numeric_part_subset_In in Hin.
    exact (kept_no_empty T HT n _ Hin).
Qed.

Lemma kept_simple T imp column :
  table_kept d0 T ->
  preserves kept_so_far
    (match dict_get T column with
     | Some (Numeric xs) =>
         setitem di column
           (Numeric (map Some (List.concat (sk_fit_transform estimate imp [xs]))))
     | _ => raise (KeyError column)
     end).
Proof.
  intro HT. destruct (dict_get T column) as [[xs|xs]|] eqn:G;
    [|apply preserves_raise..].
  destruct (kept_column T column _ HT G) as (c0 & G0 & K0).
  apply (kept_setitem column c0); [exact G0|].
  apply (column_kept_trans _ (Numeric xs)); [exact K0|].
  pose proof (kept_no_empty T HT column _ G) as Hobs. simpl in Hobs.
  rewrite sk_fit_transform_full.
  - simpl. rewrite app_nil_r. apply fill_column_kept.
  - intros ys [<-|[]]. exact Hobs.
Qed.

Lemma kept_numerical df cols info column :
  preserves kept_so_far
    (impute_numerical_column skew estimate df di cols info column).
Proof.
  unfold impute_numerical_column.
  apply preserves_bind; [apply preserves_load|]. intro d.
  destruct (mem column cols && any_null_in d column); [|apply preserves_ret].
  apply preserves_bind_load. intros st HT.
  set (T := nth di (heap st) []) in *.
  apply preserves_bind; [apply preserves_lift|]. intros [imp strategy].
  apply preserves_bind.
  - destruct (_ || _); [now apply kept_multivariate|now apply kept_simple].
  - intros _. apply preserves_bind; [apply kept_update_self|].
    intros _. apply preserves_bind; [apply preserves_load|]. intro di'.
    destruct (dict_get info column); [apply kept_update_self|apply preserves_raise].
Qed.
End ObservedKeptNumerical.

Section LabelEncoding.
Import AdvancedImputation.

(** What lines 187-196 leave in the encoded copy of one column. *)
Definition encode_cells (xs : list (option string)) : list (option Q) :=
  if has_observed xs
  then map (option_map (fun x =>
              inject_Z (Z.of_nat (index_of x (classes_of (observed xs)))))) xs
  else map (fun _ => None) xs.

Lemma In_insert_class x y l : In x (insert_class y l) <-> x = y \/ In x l.
Proof.
  induction l as [|z t IH]; simpl; [intuition congruence|].
  destruct (String.eqb_spec y z) as [->|N]; simpl; [intuition congruence|].
  destruct (String.ltb y z); simpl; [intuition congruence|].
  rewrite IH. intuition congruence.
Qed.

Lemma In_classes_of x l : In x (classes_of l) <-> In x l.
Proof.
  unfold classes_of. induction l as [|y t IH]; simpl; [tauto|].
  rewrite In_insert_class, IH. intuition congruence.
Qed.

Lemma nth_index_of x l : In x l -> nth (index_of x l) l "" = x.
Proof.
  induction l as [|y t IH]; simpl; [tauto|].
  destruct (String.eqb_spec x y) as [->|N]; [reflexivity|].
  intros [E|H]; [congruence|now apply IH].
Qed.

Lemma observed_In {A} (xs : list (option A)) i v :
  nth_error xs i = Some (Some v) -> In v (observed xs).
Proof.
  revert i. induction xs as [|x t IH]; intros i H; [now destruct i|].
  destruct i as [|i]; simpl in H.
  - injection H as ->. now left.
  - destruct x; simpl; [right|]; exact (IH i H).
Qed.

(** A label is decoded to itself. *)
Lemma decode_encode xs i s :
  nth_error xs i = Some (Some s) ->
  nth (index_of s (classes_of (observed xs))) (classes_of (observed xs)) "" = s.
Proof.
  intro H. apply nth_index_of, In_classes_of. exact (observed_In xs i s H).
Qed.

Lemma round_half_even_integer (z : Z) : round_half_even (inject_Z z) = z.
Proof.
  unfold round_half_even. rewrite Qfloor_Z.
  assert (E : inject_Z z - inject_Z z == 0) by ring.
  assert (B : Qeq_bool (inject_Z z - inject_Z z) (1 # 2) = false).
  { destruct (Qeq_bool _ _) eqn:X; [|reflexivity].
    apply Qeq_bool_iff in X. rewrite E in X. discriminate X. }
  rewrite B.
  assert (L : Qle_bool (inject_Z z - inject_Z z) (1 # 2) = true).
  { apply Qle_bool_iff. rewrite E. discriminate. }
  now rewrite L.
Qed.

Lemma encode_cells_observed xs :
  has_observed xs = true -> has_observed (encode_cells xs) = true.
Proof.
  intro H. unfold encode_cells. rewrite H.
  apply has_observed_nth in H. destruct H as (i & v & Hi).
  apply has_observed_nth. eexists i, _. rewrite nth_error_map, Hi. reflexivity.
Qed.

(** The encoders after the loop of lines 187-196, and its answer. *)
Lemma encode_all_spec (S : list (string * list (option string))) (st : state) :
  exists st',
    encode_all S st = (Ok (map (fun nx => encode_cells (snd nx)) S), st')
    /\ heap st' = heap st
    /\ (forall n, ~ In n (map fst S) ->
          dict_get (label_encoders (self st')) n
          = dict_get (label_encoders (self st)) n)
    /\ (forall n xs,
          In (n, xs) S -> (forall xs', In (n, xs') S -> xs' = xs) ->
          has_observed xs = true ->
          dict_get (label_encoders (self st')) n
          = Some (Some (classes_of (observed xs)))).
Proof.
  revert st. induction S as [|[name xs] t IH]; intro st.
  - exists st. simpl. repeat split; try reflexivity. intros n xs [].
  - set (le1 := match dict_get (label_encoders (self st)) name with
                | Some _ => self st
                | None => set_label_encoder name None (self st)
                end).
    set (s2 := if has_observed xs
               then set_label_encoder name (Some (classes_of (observed xs))) le1
               else le1).
    assert (E1 : encode_column name xs st
                 = (Ok (encode_cells xs), mkState (heap st) s2)).
    { unfold encode_column, bind, get_self, update_self, ret, encode_cells.
      simpl. subst s2 le1.
      destruct (dict_get (label_encoders (self st)) name);
        destruct (has_observed xs); simpl; try reflexivity;
        now destruct st. }
    destruct (IH (mkState (heap st) s2)) as (st' & E & Hh & Hframe & Henc).
    exists st'. split; [|split; [|split]].
    + simpl. unfold bind at 1. rewrite E1. unfold bind at 1. rewrite E.
      reflexivity.
    + exact Hh.
    + intros n Hn.
      assert (Hn1 : n <> name) by (intros ->; apply Hn; now left).
      assert (Hn2 : ~ In n (map fst t)) by (intro X; apply Hn; now right).
      rewrite Hframe by exact Hn2. simpl. subst s2 le1.
      destruct (has_observed xs), (dict_get (label_encoders (self st)) name);
        simpl; rewrite ?dict_get_dict_set_other by assumption; reflexivity.
    + intros n ys Hin Huniq Hobs.
      destruct (in_dec string_dec n (map fst t)) as [I|N].
      * apply in_map_iff in I. destruct I as ([n' zs] & Hn' & Hz).
        simpl in Hn'. subst n'.
        assert (zs = ys) by (apply Huniq; now right). subst zs.
        apply Henc; [exact Hz| |exact Hobs].
        intros xs' Hx. apply Huniq. now right.
      * rewrite Hframe by exact N. simpl.
        destruct Hin as [[= -> ->]|Hin].
        -- subst s2. rewrite Hobs. simpl. apply dict_get_dict_set_same.
        -- exfalso. apply N. apply in_map_iff. now exists (n, ys).
Qed.
End LabelEncoding.

Section ObservedKeptCategorical.
Import AdvancedImputation.
Variable skew : list (option Q) -> option Q.
Variable estimate : estimator.
Variable most_frequent : list (option string) -> string.
Variable d0 : DataFrame.
Variable di : ref.
Hypothesis d0_no_empty : no_empty_column d0.

Lemma inverse_transform_Ok classes codes labels :
  inverse_transform classes codes = Ok labels ->
  labels = map (fun z => nth (Z.to_nat z) classes "") codes.
Proof.
  unfold inverse_transform. destruct (forallb _ codes); [|discriminate].
  now intros [= <-].
Qed.

(** Decoding the rounded answer of the imputer gives back every observed
    label. *)
Lemma decoded_kept ys (v : list Q) labels :
  has_observed ys = true ->
  cells_kept (encode_cells ys) (map Some v) ->
  inverse_transform (classes_of (observed ys)) (map round_half_even v) = Ok labels ->
  cells_kept ys (map Some labels).
Proof.
  intros Hobs [L K] Hinv. apply inverse_transform_Ok in Hinv. subst labels.
  unfold encode_cells in L, K. rewrite Hobs in L, K. split.
  - rewrite !length_map in *. exact L.
  - intros i s Hi.
    assert (Hv : nth_error (map Some v) i
                 = Some (Some (inject_Z (Z.of_nat
                     (index_of s (classes_of (observed ys))))))).
    { apply K. now rewrite nth_error_map, Hi. }
    rewrite nth_error_map in Hv.
    destruct (nth_error v i) as [q|] eqn:Hq; [|discriminate].
    simpl in Hv. injection Hv as ->.
    rewrite !nth_error_map, Hq. simpl.
    rewrite round_half_even_integer, Nat2Z.id.
    now rewrite (decode_encode ys i s Hi).
Qed.

Lemma kept_categorical_knn T imp cols column :
  table_kept d0 T ->
  preserves (kept_so_far d0 di)
    (encoded_data <- encode_all (object_part (subset T cols)) ;;
     match nth_error (sk_fit_transform estimate imp encoded_data)
             (get_loc column (map fst (object_part (subset T cols)))) with
     | None => raise IndexError
     | Some v =>
         s <- get_self ;;
         match dict_get (label_encoders s) column with
         | None => raise (KeyError column)
         | Some None => raise NotFittedError
         | Some (Some classes) =>
             labels <- lift (inverse_transform classes (map round_half_even v)) ;;
             setitem di column (Object (map Some labels))
         end
     end).
Proof.
  intros HT st HI. set (S := object_part (subset T cols)).
  destruct (encode_all_spec S st) as (st' & E & Hh & _ & Henc).
  assert (HI' : kept_so_far d0 di st').
  { unfold kept_so_far in *. now rewrite Hh. }
  unfold bind at 1. rewrite E.
  destruct (nth_error _ _) as [v|] eqn:Hn; [|exact HI'].
  apply sk_fit_transform_nth in Hn.
  - destruct Hn as (es & Hx & K). rewrite nth_error_map in Hx.
    destruct (nth_error S (get_loc column (map fst S))) as [[n ys]|] eqn:HS;
      [|discriminate].
    simpl in Hx. injection Hx as <-.
    destruct (index_of_nth S column _ _ eq_refl HS) as [Hname Hget].
    simpl in Hname, Hget. subst n.
    pose proof (dict_get_In _ _ _ Hget) as Hin.
    pose proof (object_part_subset_In _ _ _ _ Hin) as HTc.
    pose proof (kept_no_empty d0 d0_no_empty T HT column _ HTc) as Hobs.
    simpl in Hobs.
    assert (Huniq : forall xs', In (column, xs') S -> xs' = ys).
    { intros xs' Hx'. apply object_part_subset_In in Hx'. congruence. }
    unfold bind, get_self. simpl.
    rewrite (Henc column ys Hin Huniq Hobs).
    unfold lift.
    destruct (inverse_transform _ _) as [labels|e] eqn:Hinv; [|exact HI'].
    destruct (kept_column d0 T column _ HT HTc) as (c0 & G0 & K0).
    apply (kept_setitem d0 di column c0); [exact G0| |exact HI'].
    apply (column_kept_trans _ (Object ys)); [exact K0|].
    exact (decoded_kept ys v labels Hobs K Hinv).
  - intros xs Hin. apply in_map_iff in Hin. destruct Hin as ([n ys] & <- & Hin).
    apply object_part_subset_In in Hin. simpl.
    apply encode_cells_observed.
    exact (kept_no_empty d0 d0_no_empty T HT n _ Hin).
Qed.

Lemma kept_mode T column :
  table_kept d0 T ->
  preserves (kept_so_far d0 di)
    (match dict_get T column with
     | Some (Object xs) =>
         setitem di column
           (Object (map Some (List.concat (fit_transform_most_frequent
                                             most_frequent xs))))
     | _ => raise (KeyError column)
     end).
Proof.
  intro HT. destruct (dict_get T column) as [[xs|xs]|] eqn:G;
    [apply preserves_raise| |apply preserves_raise].
  destruct (kept_column d0 T column _ HT G) as (c0 & G0 & K0).
  apply (kept_setitem d0 di column c0); [exact G0|].
  apply (column_kept_trans _ (Object xs)); [exact K0|].
  pose proof (kept_no_empty d0 d0_no_empty T HT column _ G) as Hobs.
  simpl in Hobs. unfold fit_transform_most_frequent. rewrite Hobs.
  simpl. rewrite app_nil_r. split.
  - now rewrite !length_map.
  - intros i v Hi. now rewrite !nth_error_map, Hi.
Qed.

Lemma kept_categorical df cols info column :
  preserves (kept_so_far d0 di)
    (impute_categorical_column estimate most_frequent df di cols info column).
Proof.
  unfold impute_categorical_column.
  apply preserves_bind; [apply preserves_load|]. intro d.
  destruct (mem column cols && any_null_in d column); [|apply preserves_ret].
  apply preserves_bind_load. intros st HT.
  set (T := nth di (heap st) []) in *.
  apply preserves_bind; [apply preserves_lift|]. intros [imp strategy].
  apply preserves_bind.
  - destruct (String.eqb strategy "knn");
      [now apply kept_categorical_knn|now apply kept_mode].
  - intros _. apply preserves_bind; [apply kept_update_self|].
    intros _. apply preserves_bind; [apply preserves_load|]. intro di'.
    destruct (dict_get info column); [apply kept_update_self|apply preserves_raise].
Qed.

(** The two loops and the bookkeeping before them. *)
Lemma kept_loops df targets info recs ncols ccols :
  preserves (kept_so_far d0 di)
    (update_self (set_analysis info recs) ;;;
     for_each targets (impute_numerical_column skew estimate df di ncols info) ;;;
     for_each targets
       (impute_categorical_column estimate most_frequent df di ccols info) ;;;
     ret di).
Proof.
  apply preserves_bind; [apply kept_update_self|]. intros _.
  apply preserves_bind.
  - apply preserves_for_each. intro c. now apply kept_numerical.
  - intros _. apply preserves_bind; [|intros _; apply preserves_ret].
    apply preserves_for_each. intro c. apply kept_categorical.
Qed.
End ObservedKeptCategorical.

Section ObservedKeptResult.
Import AdvancedImputation.
Variable skew : list (option Q) -> option Q.
Variable estimate : estimator.
Variable most_frequent : list (option string) -> string.

Lemma loops_answer {A} (m1 m2 m3 : M unit) (a : A) st x st' :
  (m1 ;;; m2 ;;; m3 ;;; ret a) st = (Ok x, st') -> x = a.
Proof.
  unfold bind, ret.
  destruct (m1 st) as [[u1|e1] s1]; [|discriminate].
  destruct (m2 s1) as [[u2|e2] s2]; [|discriminate].
  destruct (m3 s2) as [[u3|e3] s3]; [|discriminate].
  now intros [= <- _].
Qed.

Lemma kept_loops_run d0 di (Hne : no_empty_column d0)
    df targets info recs ncols ccols st x st' :
  kept_so_far d0 di st ->
  (update_self (set_analysis info recs) ;;;
   for_each targets (impute_numerical_column skew estimate df di ncols info) ;;;
   for_each targets
     (impute_categorical_column estimate most_frequent df di ccols info) ;;;
   ret di) st = (Ok x, st') ->
  x = di /\ kept_so_far d0 di st'.
Proof.
  intros I0 Hrun. split; [exact (loops_answer _ _ _ _ _ _ _ Hrun)|].
  pose proof (kept_loops skew estimate most_frequent d0 di Hne df targets
                info recs ncols ccols st I0) as I1.
  now rewrite Hrun in I1.
Qed.

(** X16.  On a table with no entirely missing column, whenever
    [fit_transform] returns, every column of the answer keeps the observed
    entries of the column it comes from, and has no more missing entries
    than before. *)
Lemma observed_values_kept (df : ref) targets preserve st r' st' :
  no_empty_column (nth df (heap st) []) ->
  fit_transform skew estimate most_frequent df targets preserve st = (Ok r', st') ->
  forall name c0,
    dict_get (nth df (heap st) []) name = Some c0 ->
    exists c, dict_get (nth r' (heap st') []) name = Some c
              /\ column_kept c0 c /\ (missing c <= missing c0)%nat.
Proof.
  intros Hne Hrun.
  set (d := nth df (heap st) []) in *.
  assert (K : table_kept d (nth r' (heap st') [])).
  { unfold fit_transform in Hrun. unfold bind at 1, load at 1 in Hrun.
    simpl in Hrun. fold d in Hrun.
    destruct (analyze_missing_data d) as [info recs].
    destruct preserve.
    - unfold bind at 1, alloc at 1 in Hrun. simpl in Hrun.
      eapply (kept_loops_run d _ Hne) in Hrun.
      + destruct Hrun as [-> I1]. exact I1.
      + unfold kept_so_far. simpl. rewrite nth_length_app.
        apply table_kept_refl.
    - rewrite bind_ret in Hrun.
      eapply (kept_loops_run d _ Hne) in Hrun.
      + destruct Hrun as [-> I1]. exact I1.
      + apply table_kept_refl. }
  intros name c0 G. destruct K as [_ K]. destruct (K name c0 G) as (c & Gc & Kc).
  exists c. split; [exact Gc|]. split; [exact Kc|].
  now apply column_kept_missing.
Qed.
End ObservedKeptResult.

Section ObservedKeptExamples.
Import AdvancedImputation.

Lemma listings_25_no_empty_column : no_empty_column listings_25.
Proof.
  intros name c H. unfold listings_25 in H. simpl in H.
  repeat match type of H with
         | context [String.eqb ?a ?b] => destruct (String.eqb a b)
         end;
    try discriminate; injection H as <-; reflexivity.
Qed.

(** The run of the 25 listings, imputed on a copy. *)
Definition listings_25_run : result ref * state :=
  fit_transform no_skew zero_estimate first_label 0%nat None true
    (mkState [listings_25] new_imputer).

Lemma observed_values_kept_witness :
  exists c,
    dict_get (nth 1 (heap (snd listings_25_run)) []) "Surface" = Some c
    /\ column_kept (Numeric (Some (inject_Z 70) :: None :: None
                             :: repeat (Some (inject_Z 80)) 22)) c
    /\ (missing c <= missing (Numeric (Some (inject_Z 70) :: None :: None
                                       :: repeat (Some (inject_Z 80)) 22)))%nat.
Proof.
  apply (observed_values_kept no_skew zero_estimate first_label 0%nat None true
           (mkState [listings_25] new_imputer) 1%nat (snd listings_25_run)
           listings_25_no_empty_column).
  - vm_compute. reflexivity.
  - reflexivity.
Defined.
End ObservedKeptExamples.

(** * Further properties of the cleaning steps *)

(** ** Medians *)
Section Medians.



Lemma length_insert_sorted {A} (le : A -> A -> bool) y l :
  List.length (insert_sorted le y l) = S (List.length l).
Proof.
  induction l as [|z t IH]; simpl; [reflexivity|].
  destruct (le y z); simpl; congruence.
Qed.

Lemma length_sort {A} (le : A -> A -> bool) l :
  List.length (sort le l) = List.length l.
Proof.
  unfold sort. induction l as [|y t IH]; simpl; [reflexivity|].
  now rewrite length_insert_sorted, IH.
Qed.

(** The median is missing exactly when nothing is observed. *)
Lemma median_None (col : list (option Q)) :
  median col = None <-> observed col = [].
Proof.
  unfold median. rewrite length_sort.
  destruct (observed col) as [|v t]; [simpl; tauto|].
  cbn [List.length]. split; [|discriminate].
  now destruct (Nat.even (S (List.length t))).
Qed.


End Medians.

(** ** Room imputation of src/clean_data.py *)
Section RoomImputation.
Import CleanData CleanDataSteps.

Lemma In_observed {A} (v : A) (col : list (option A)) :
  In v (observed col) <-> In (Some v) col.
Proof.
  induction col as [|x t IH]; simpl; [tauto|].
  destruct x as [w|]; simpl; rewrite IH; intuition congruence.
Qed.













End RoomImputation.

(** ** Filling a column group by group

    The loops that fill a missing cell with the median of its wilaya, for a
    column read by [get] and written by [set]. *)
Section GroupFill.
Import CleanData.
Variable get : Row -> option Q.
Variable set : option Q -> Row -> Row.
Hypothesis get_set : forall v r, get (set v r) = v.
Hypothesis Wilaya_set : forall v r, Wilaya (set v r) = Wilaya r.

Definition cells_where (mask : list bool) (df : DataFrame) : list (option Q) :=
  map (fun rm => get (fst rm)) (filter (fun rm => snd rm) (combine df mask)).

Definition loc_set (mask : list bool) (value : Q) (df : DataFrame) : DataFrame :=
  map (fun rm => if (snd rm : bool) then set (Some value) (fst rm) else fst rm)
      (combine df mask).

Definition group_round (missing_mask : list bool) (df : DataFrame)
    (wilaya : option string) : DataFrame :=
  let wilaya_mask := map (fun r => series_eq (Wilaya r) wilaya) df in
  match median (cells_where wilaya_mask df) with
  | Some m =>
      loc_set (map (fun ab => fst ab && snd ab) (combine wilaya_mask missing_mask))
              m df
  | None => df
  end.

(** The median of the column over the rows of a wilaya. *)
Definition group_median (df : DataFrame) (w : option string) : option Q :=
  median (map get (filter (fun r => series_eq (Wilaya r) w) df)).

Definition fill_cell (m : option Q) (r : Row) : Row :=
  match get r, m with
  | None, Some v => set (Some v) r
  | _, _ => r
  end.

Definition group_filled (df0 : DataFrame) (done : list (option string))
    (r : Row) : Row :=
  if existsb (series_eq (Wilaya r)) done
  then fill_cell (group_median df0 (Wilaya r)) r
  else r.

Lemma Wilaya_group_filled df0 done r :
  Wilaya (group_filled df0 done r) = Wilaya r.
Proof.
  unfold group_filled, fill_cell. destruct (existsb _ done); [|reflexivity].
  destruct (get r), (group_median df0 (Wilaya r)); try reflexivity.
  apply Wilaya_set.
Qed.

Lemma group_filled_pending df0 done w r :
  ~ In w done -> series_eq (Wilaya r) w = true -> group_filled df0 done r = r.
Proof.
  intros Hw E. apply series_eq_true in E. destruct E as (s & Hr & ->).
  unfold group_filled. rewrite Hr.
  destruct (existsb (series_eq (Some s)) done) eqn:X; [|reflexivity].
  apply existsb_series_eq_In in X. contradiction.
Qed.

Lemma pending_cells_unchanged df0 done w (l : DataFrame) :
  ~ In w done ->
  cells_where (map (fun r => series_eq (Wilaya r) w) (map (group_filled df0 done) l))
              (map (group_filled df0 done) l)
  = map get (filter (fun r => series_eq (Wilaya r) w) l).
Proof.
  intro Hw. unfold cells_where.
  rewrite combine_map_r, filter_map_comm, !map_map. simpl.
  rewrite filter_map_comm, map_map.
  induction l as [|r t IH]; simpl; [reflexivity|].
  rewrite Wilaya_group_filled.
  destruct (series_eq (Wilaya r) w) eqn:E; simpl; [|exact IH].
  rewrite (group_filled_pending _ done w r Hw E). now f_equal.
Qed.

Lemma group_filled_next df0 done w r :
  ~ In w done ->
  (if series_eq (Wilaya (group_filled df0 done r)) w && isna (get r)
   then match group_median df0 w with
        | Some m => set (Some m) (group_filled df0 done r)
        | None => group_filled df0 done r
        end
   else group_filled df0 done r)
  = group_filled df0 (w :: done) r.
Proof.
  intro Hw. rewrite Wilaya_group_filled.
  destruct (series_eq (Wilaya r) w) eqn:E.
  - rewrite (group_filled_pending _ done w r Hw E).
    unfold group_filled. simpl existsb. rewrite E. simpl.
    apply series_eq_true in E. destruct E as (s & Hr & ->). rewrite Hr.
    unfold fill_cell.
    destruct (get r); simpl; [reflexivity|].
    now destruct (group_median df0 (Some s)).
  - simpl. unfold group_filled at 2. simpl existsb. rewrite E. reflexivity.
Qed.

Lemma group_round_next df0 done w :
  ~ In w done ->
  group_round (map (fun r => isna (get r)) df0) (map (group_filled df0 done) df0) w
  = map (group_filled df0 (w :: done)) df0.
Proof.
  intro Hw. unfold group_round.
  rewrite (pending_cells_unchanged df0 done w df0 Hw).
  fold (group_median df0 w).
  destruct (group_median df0 w) as [m|] eqn:M.
  - unfold loc_set.
    rewrite (map_map (group_filled df0 done)), combine_map_map, map_map.
    rewrite combine_map_map, map_map. simpl.
    apply map_ext. intro r.
    rewrite <- (group_filled_next df0 done w r Hw), M. reflexivity.
  - apply map_ext. intro r.
    rewrite <- (group_filled_next df0 done w r Hw), M.
    now destruct (_ && _).
Qed.

Lemma group_rounds df0 (l seen : list (option string)) :
  fold_left (group_round (map (fun r => isna (get r)) df0))
            (unique_acc cell_eqb seen l)
            (map (group_filled df0 seen) df0)
  = map (group_filled df0 (seen_after seen l)) df0.
Proof.
  revert seen. induction l as [|x t IH]; intro seen; simpl; [reflexivity|].
  destruct (existsb (cell_eqb x) seen) eqn:E.
  - apply IH.
  - simpl. rewrite group_round_next.
    + apply IH.
    + intro H. apply existsb_cell_eqb in H. congruence.
Qed.

Lemma group_median_no_wilaya df0 : group_median df0 None = None.
Proof.
  unfold group_median.
  assert (F : filter (fun r0 => series_eq (Wilaya r0) None) df0 = []).
  { induction df0 as [|a t IH]; simpl; [reflexivity|]. now destruct (Wilaya a). }
  now rewrite F.
Qed.

Lemma group_filled_all df0 r :
  In r df0 ->
  group_filled df0 (seen_after [] (map Wilaya df0)) r
  = fill_cell (group_median df0 (Wilaya r)) r.
Proof.
  intro Hin. unfold group_filled. destruct (Wilaya r) as [s|] eqn:W.
  - assert (X : existsb (series_eq (Some s))
                        (seen_after [] (map Wilaya df0)) = true).
    { apply existsb_series_eq_In, seen_after_all. rewrite <- W.
      now apply in_map. }
    now rewrite X.
  - destruct (existsb _ _); [reflexivity|].
    rewrite group_median_no_wilaya. unfold fill_cell. now destruct (get r).
Qed.

(** All the rounds together: every missing cell has taken the median of
    its wilaya in the table the loop started from, when there is one. *)
Lemma group_fill_loop (df : DataFrame) :
  fold_left (group_round (map (fun r => isna (get r)) df))
            (unique cell_eqb (map Wilaya df)) df
  = map (fun r => fill_cell (group_median df (Wilaya r)) r) df.
Proof.
  pose proof (group_rounds df (map Wilaya df) []) as L.
  assert (E : map (group_filled df []) df = df).
  { transitivity (map id df); [apply map_ext; reflexivity|apply map_id]. }
  rewrite E in L. unfold unique. rewrite L.
  apply map_ext_in. intros r Hr. now apply group_filled_all.
Qed.
End GroupFill.

(** ** Price imputation of src/clean_data.py *)
Section PriceImputation.
Import CleanData CleanDataSteps.

Lemma series_eq_None_r (x : option string) : series_eq x None = false.
Proof. now destruct x. Qed.

Lemma fill_price_wilaya_round mask (df : DataFrame) w :
  fill_price_wilaya mask df w
  = group_round NormalizedPrice set_NormalizedPrice mask df w.
Proof.
  destruct w as [s|]; [reflexivity|].
  unfold fill_price_wilaya, group_round, cells_where. simpl.
  assert (F : filter (fun rm : Row * bool => snd rm)
                     (combine df (map (fun r => series_eq (Wilaya r) None) df)) = []).
  { rewrite combine_map_r. induction df as [|r t IH]; simpl; [reflexivity|].
    now rewrite series_eq_None_r. }
  now rewrite F.
Qed.

Lemma fold_left_ext {A B} (f g : A -> B -> A) l a :
  (forall x y, f x y = g x y) -> fold_left f l a = fold_left g l a.
Proof.
  intro H. revert a. induction l as [|y t IH]; intro a; simpl; [reflexivity|].
  now rewrite H, IH.
Qed.

(** The median of the prices observed in a wilaya. *)
Definition wilaya_price_median (df : DataFrame) (w : option string) : option Q :=
  median (map NormalizedPrice (filter (fun r => series_eq (Wilaya r) w) df)).

Definition with_price (m : option Q) (r : Row) : Row :=
  match NormalizedPrice r, m with
  | None, Some v => set_NormalizedPrice (Some v) r
  | _, _ => r
  end.

Lemma impute_prices_rows (df : DataFrame) :
  impute_prices df
  = map (fun r => with_price (wilaya_price_median df (Wilaya r)) r) df.
Proof.
  unfold impute_prices. destruct (0 <? count_true _)%nat eqn:C.
  - rewrite (fold_left_ext _ _ _ _ (fill_price_wilaya_round _)).
    apply (group_fill_loop NormalizedPrice set_NormalizedPrice).
    reflexivity.
  - apply Nat.ltb_ge in C.
    assert (C0 : count_true (map (fun r => isna (NormalizedPrice r)) df) = 0%nat)
      by lia.
    pose proof (count_true_zero _ df C0) as Hall.
    transitivity (map id df); [now rewrite map_id|].
    apply map_ext_in. intros r Hr. specialize (Hall r Hr). simpl in Hall.
    unfold with_price. now destruct (NormalizedPrice r).
Qed.

(** X2.  The price imputation keeps every row and every observed price,
    and changes no other column; a missing price becomes the median of the
    prices observed in the row's wilaya, and stays missing when the wilaya
    is missing or has no observed price. *)
Theorem prices_imputed_by_wilaya_median (df : DataFrame) :
  List.length (impute_prices df) = List.length df /\
  forall i r, nth_error df i = Some r ->
    exists r', nth_error (impute_prices df) i = Some r' /\
      Price r' = Price r /\ PriceUnit r' = PriceUnit r /\
      TransactionType r' = TransactionType r /\ Wilaya r' = Wilaya r /\
      Surface r' = Surface r /\ Rooms r' = Rooms r /\
      CleanSurface r' = CleanSurface r /\ CleanRooms r' = CleanRooms r /\
      (forall v, NormalizedPrice r = Some v -> NormalizedPrice r' = Some v) /\
      (NormalizedPrice r = None ->
       NormalizedPrice r' = wilaya_price_median df (Wilaya r)) /\
      (NormalizedPrice r = None -> Wilaya r = None -> NormalizedPrice r' = None).
Proof.
  rewrite impute_prices_rows. split; [apply length_map|].
  intros i r Hi. eexists. split; [rewrite nth_error_map, Hi; reflexivity|].
  unfold with_price.
  destruct (NormalizedPrice r) as [p|] eqn:P.
  - repeat split; try reflexivity; try congruence.
  - assert (N : Wilaya r = None -> wilaya_price_median df (Wilaya r) = None).
    { intros ->. unfold wilaya_price_median.
      assert (F : filter (fun r0 => series_eq (Wilaya r0) None) df = []).
      { clear. induction df as [|a t IH]; simpl; [reflexivity|].
        now rewrite series_eq_None_r. }
      now rewrite F. }
    destruct (wilaya_price_median df (Wilaya r)) as [m|] eqn:M; simpl;
      repeat split; try reflexivity; try congruence.
    + intros _ W. specialize (N W). discriminate.
Qed.
End PriceImputation.

(** ** The price range filter of src/clean_data.py *)
Section PriceRangeFilter.
Import CleanData.

Lemma filter_idempotent {A} (p : A -> bool) (l : list A) :
  filter p (filter p l) = filter p l.
Proof.
  induction l as [|x t IH]; simpl; [reflexivity|].
  destruct (p x) eqn:E; simpl; [rewrite E; now f_equal|exact IH].
Qed.

(** X3.  A listing that passes the price filter was in the table, and its
    normalized price, when it has one, lies in [5,000, 2,000,000] for a
    per-square-metre unit and in [100,000, 1,000,000,000] for any other
    unit; filtering a second time removes nothing more. *)
Theorem price_filter_bounds (df : DataFrame) :
  (forall r, In r (filter_unrealistic_prices df) ->
     In r df /\
     forall p, NormalizedPrice r = Some p ->
       if per_sqm_mask r
       then inject_Z 5000 <= p /\ p <= inject_Z 2000000
       else MIN_PRICE <= p /\ p <= MAX_PRICE) /\
  filter_unrealistic_prices (filter_unrealistic_prices df)
  = filter_unrealistic_prices df.
Proof.
  split; [|apply filter_idempotent].
  intros r Hr. apply filter_In in Hr. destruct Hr as [Hin K].
  split; [exact Hin|]. intros p Hp.
  unfold price_filter_keeps, valid_regular_prices, valid_per_sqm_prices in K.
  rewrite Hp in K. simpl in K. rewrite !orb_false_r in K.
  destruct (per_sqm_mask r); simpl in K.
  - apply andb_true_iff in K. now rewrite !Qle_bool_iff in K.
  - rewrite orb_false_r in K.
    apply andb_true_iff in K. now rewrite !Qle_bool_iff in K.
Qed.
End PriceRangeFilter.

(** ** The last fills of the location columns *)
Section UnknownPlaces.
Import CleanDataSteps.

Definition fill_places (r : places) : places :=
  fill_unknown_location (fill_unknown_wilaya (fill_unknown_in_wilaya r)).

Lemma fill_unknown_places_rows (df : list places) :
  fill_unknown_places df = map fill_places df.
Proof. unfold fill_unknown_places. now rewrite !map_map. Qed.

(** X4.  After the last fills of lines 138-143 no location and no wilaya
    is missing, and no row was added or removed: a known value is kept,
    a missing location next to a known wilaya w becomes "Unknown-w", a
    missing wilaya becomes "Unknown", and a location missing together with
    its wilaya becomes "Unknown". *)
Theorem places_never_missing (df : list places) :
  List.length (fill_unknown_places df) = List.length df /\
  forall i l w, nth_error df i = Some (l, w) ->
    exists l' w',
      nth_error (fill_unknown_places df) i = Some (Some l', Some w') /\
      (forall x, l = Some x -> l' = x) /\
      (forall y, w = Some y -> w' = y) /\
      (forall y, l = None -> w = Some y -> l' = "Unknown-" ++ y) /\
      (w = None -> w' = "Unknown") /\
      (l = None -> w = None -> l' = "Unknown").
Proof.
  rewrite fill_unknown_places_rows. split; [apply length_map|].
  intros i l w Hi. rewrite nth_error_map, Hi. simpl.
  destruct l as [x|], w as [y|]; simpl; eexists _, _;
    (split; [reflexivity|]); repeat split; intros;
    first [ discriminate
          | repeat match goal with
                   | H : Some _ = Some _ |- _ => injection H as H; subst
                   end; reflexivity ].
Qed.
End UnknownPlaces.

(** ** Transaction types *)
Section TransactionTypes.
Import CleanData CleanDataSteps.

(** The value that fills the missing transaction types. *)
Definition most_common_transaction (df : DataFrame) : string :=
  match mode (map TransactionType df) with
  | m :: _ => m
  | [] => "SALE"
  end.

Lemma impute_transaction_types_rows (df : DataFrame) :
  impute_transaction_types df
  = map (fun r => if isna (TransactionType r)
                  then set_TransactionType (Some (most_common_transaction df)) r
                  else r) df.
Proof.
  unfold impute_transaction_types. destruct (0 <? count_true _)%nat eqn:C.
  - reflexivity.
  - apply Nat.ltb_ge in C.
    assert (C0 : count_true (map (fun r => isna (TransactionType r)) df) = 0%nat)
      by lia.
    pose proof (count_true_zero _ df C0) as Hall.
    transitivity (map id df); [now rewrite map_id|].
    apply map_ext_in. intros r Hr. specialize (Hall r Hr). simpl in Hall.
    now rewrite Hall.
Qed.

Lemma max_bound (l : list nat) x : In x l -> (x <= fold_right Nat.max O l)%nat.
Proof.
  induction l as [|y t IH]; simpl; [tauto|].
  intros [->|H]; [lia|]. specialize (IH H). lia.
Qed.

Lemma occurrences_absent x l : ~ In x l -> occurrences x l = O.
Proof.
  unfold occurrences. induction l as [|y t IH]; simpl; [reflexivity|].
  intro H. destruct (String.eqb_spec x y) as [->|N]; simpl.
  - exfalso. apply H. now left.
  - apply IH. tauto.
Qed.

(** A mode is an observed value that no other value outnumbers. *)
Lemma mode_is_most_frequent (col : list (option string)) m :
  In m (mode col) ->
  In m (observed col) /\
  forall x, (occurrences x (observed col) <= occurrences m (observed col))%nat.
Proof.
  unfold mode. intro H. apply filter_In in H. destruct H as [Hc Hb].
  apply Nat.eqb_eq in Hb. split; [now apply In_classes_of|].
  intro x. rewrite Hb.
  destruct (in_dec string_dec x (observed col)) as [I|N].
  - apply max_bound. apply in_map_iff. exists x. split; [reflexivity|].
    now apply In_classes_of.
  - rewrite (occurrences_absent x _ N). lia.
Qed.

Lemma mode_empty (col : list (option string)) :
  observed col = [] -> mode col = [].
Proof. unfold mode. now intros ->. Qed.

Lemma most_common_when_unlabelled (df : DataFrame) :
  (forall r, In r df -> TransactionType r = None) ->
  most_common_transaction df = "SALE".
Proof.
  intro Hall. unfold most_common_transaction. rewrite mode_empty; [reflexivity|].
  destruct (observed (map TransactionType df)) as [|v t] eqn:O; [reflexivity|].
  assert (I : In v (observed (map TransactionType df))) by (rewrite O; now left).
  apply In_observed, in_map_iff in I. destruct I as (r & E & Hr).
  rewrite (Hall r Hr) in E. discriminate.
Qed.

(** X5.  After the imputation of the transaction types none is missing
    and no row was added or removed: an observed type is kept, and every
    missing one takes the same value, an observed type that no other type
    outnumbers, or "SALE" when no type is observed at all. *)
Theorem transaction_types_never_missing (df : DataFrame) :
  List.length (impute_transaction_types df) = List.length df /\
  (forall i r, nth_error df i = Some r ->
     exists r', nth_error (impute_transaction_types df) i = Some r' /\
       (forall t, TransactionType r = Some t -> r' = r) /\
       (TransactionType r = None ->
        TransactionType r' = Some (most_common_transaction df))) /\
  ((forall r, In r df -> TransactionType r = None) ->
   most_common_transaction df = "SALE") /\
  ((exists r t, In r df /\ TransactionType r = Some t) ->
   In (most_common_transaction df) (observed (map TransactionType df)) /\
   forall x, (occurrences x (observed (map TransactionType df))
              <= occurrences (most_common_transaction df)
                             (observed (map TransactionType df)))%nat).
Proof.
  rewrite impute_transaction_types_rows. split; [apply length_map|].
  split; [|split].
  - intros i r Hi. eexists. split; [rewrite nth_error_map, Hi; reflexivity|].
    destruct (TransactionType r) as [t|] eqn:T; simpl; split;
      try reflexivity; try discriminate; intros; reflexivity.
  - apply most_common_when_unlabelled.
  - intros (r & t & Hr & Ht).
    unfold most_common_transaction.
    destruct (mode (map TransactionType df)) as [|m ms] eqn:M.
    + exfalso.
      assert (I : In t (observed (map TransactionType df))).
      { apply In_observed, in_map_iff. now exists r. }
      set (vals := observed (map TransactionType df)) in *.
      set (best := fold_right Nat.max O
                     (map (fun c => occurrences c vals) (classes_of vals))).
      assert (Hne : classes_of vals <> []).
      { intro E. apply In_classes_of in I. rewrite E in I. destruct I. }
      assert (Hex : exists c, In c (classes_of vals) /\ occurrences c vals = best).
      { subst best. clear -Hne. induction (classes_of vals) as [|c cs IH];
          [congruence|]. simpl.
        destruct cs as [|c' cs'].
        - exists c. split; [now left|]. simpl. lia.
        - destruct IH as (d & Hd & Ed); [discriminate|].
          destruct (Nat.max_spec (occurrences c vals)
                      (fold_right Nat.max O
                         (map (fun c0 => occurrences c0 vals) (c' :: cs'))))
            as [[_ E]|[_ E]].
          + exists d. split; [now right|]. now rewrite E.
          + exists c. split; [now left|]. now rewrite E. }
      destruct Hex as (c & Hc & Ec).
      assert (Hin : In c (mode (map TransactionType df))).
      { unfold mode. fold vals. fold best. apply filter_In. split; [exact Hc|].
        now apply Nat.eqb_eq. }
      rewrite M in Hin. destruct Hin.
    + apply mode_is_most_frequent. rewrite M. now left.
Qed.
End TransactionTypes.

(** ** Reading surfaces and room counts *)
Section Parsing.
Import CleanData.

Definition is_list_mark (c : ascii) : bool :=
  Ascii.eqb c "["%char || Ascii.eqb c "]"%char || Ascii.eqb c "'"%char.

Definition is_m (c : ascii) : bool :=
  Ascii.eqb c "m"%char || Ascii.eqb c "M"%char.

Definition not_digit_first (s : list ascii) : Prop :=
  match s with
  | c :: _ => is_digit c = false
  | [] => True
  end.

Lemma digit_not_mark c : is_digit c = true -> is_list_mark c = false.
Proof. destruct c as [[] [] [] [] [] [] [] []]; try reflexivity; discriminate. Qed.

Lemma space_not_mark c : is_space c = true -> is_list_mark c = false.
Proof. destruct c as [[] [] [] [] [] [] [] []]; try reflexivity; discriminate. Qed.

Lemma space_not_digit c : is_space c = true -> is_digit c = false.
Proof. destruct c as [[] [] [] [] [] [] [] []]; try reflexivity; discriminate. Qed.

Lemma m_facts c :
  is_m c = true ->
  is_list_mark c = false /\ is_digit c = false /\ is_space c = false
  /\ Ascii.eqb c "."%char = false.
Proof.
  destruct c as [[] [] [] [] [] [] [] []]; try discriminate; intros _;
    repeat split.
Qed.

Lemma space_not_dot c : is_space c = true -> Ascii.eqb c "."%char = false.
Proof. destruct c as [[] [] [] [] [] [] [] []]; try reflexivity; discriminate. Qed.

Lemma strip_list_marks_app a b :
  strip_list_marks (a ++ b) = (strip_list_marks a ++ strip_list_marks b)%list.
Proof. unfold strip_list_marks. apply filter_app. Qed.

Lemma strip_marks_only pre :
  forallb is_list_mark pre = true -> strip_list_marks pre = [].
Proof.
  induction pre as [|c t IH]; simpl; [reflexivity|].
  intro H. apply andb_true_iff in H. destruct H as [Hc Ht].
  unfold is_list_mark in Hc. rewrite Hc. simpl. now apply IH.
Qed.

Lemma strip_no_mark s :
  forallb (fun c => negb (is_list_mark c)) s = true -> strip_list_marks s = s.
Proof.
  induction s as [|c t IH]; simpl; [reflexivity|].
  intro H. apply andb_true_iff in H. destruct H as [Hc Ht].
  unfold is_list_mark in Hc. rewrite Hc. f_equal. now apply IH.
Qed.

Lemma forallb_impl {A} (p q : A -> bool) l :
  (forall x, p x = true -> q x = true) -> forallb p l = true -> forallb q l = true.
Proof.
  intro H. induction l as [|x t IH]; simpl; [reflexivity|].
  intro E. apply andb_true_iff in E. destruct E as [E1 E2].
  now rewrite (H x E1), IH.
Qed.

Lemma strip_digits ds : forallb is_digit ds = true -> strip_list_marks ds = ds.
Proof.
  intro H. apply strip_no_mark. revert H. apply forallb_impl.
  intros c Hc. now rewrite digit_not_mark.
Qed.

Lemma strip_spaces ws : forallb is_space ws = true -> strip_list_marks ws = ws.
Proof.
  intro H. apply strip_no_mark. revert H. apply forallb_impl.
  intros c Hc. now rewrite space_not_mark.
Qed.

Lemma span_all p (a rest : list ascii) :
  forallb p a = true ->
  match rest with c :: _ => p c = false | [] => True end ->
  span p (a ++ rest) = (a, rest).
Proof.
  intros Ha Hr. induction a as [|x t IH]; simpl.
  - destruct rest as [|c r]; [reflexivity|]. simpl. now rewrite Hr.
  - simpl in Ha. apply andb_true_iff in Ha. destruct Ha as [Hx Ht].
    rewrite Hx. now rewrite (IH Ht).
Qed.

Lemma strip_cons_kept c rest :
  is_list_mark c = false ->
  strip_list_marks (c :: rest) = c :: strip_list_marks rest.
Proof.
  intro H. unfold strip_list_marks, is_list_mark in *. simpl. now rewrite H.
Qed.

(** What is left of a text of the shape "digits blanks m ..." once the list
    marks are gone. *)
Lemma stripped_surface pre ds ws c rest :
  forallb is_list_mark pre = true -> forallb is_digit ds = true ->
  forallb is_space ws = true -> is_m c = true ->
  strip_list_marks (pre ++ ds ++ ws ++ c :: rest)
  = (ds ++ ws ++ c :: strip_list_marks rest)%list.
Proof.
  intros Hp Hd Hw Hc. rewrite !strip_list_marks_app.
  rewrite (strip_marks_only pre Hp), (strip_digits ds Hd), (strip_spaces ws Hw).
  rewrite strip_cons_kept by apply (m_facts c Hc). reflexivity.
Qed.

Lemma blanks_then_m ws c rest :
  forallb is_space ws = true -> is_m c = true ->
  starts_with_m (snd (span is_space (ws ++ c :: rest))) = true
  /\ match (ws ++ c :: rest)%list with
     | x :: _ => is_digit x = false /\ Ascii.eqb x "."%char = false
     | [] => False
     end.
Proof.
  intros Hw Hc. destruct (m_facts c Hc) as (_ & Hd & Hs & Hdot).
  rewrite (span_all is_space ws (c :: rest) Hw Hs). split; [exact Hc|].
  destruct ws as [|x t]; simpl; [now split|].
  simpl in Hw. apply andb_true_iff in Hw. destruct Hw as [Hx _].
  split; [now apply space_not_digit|now apply space_not_dot].
Qed.

Lemma search_surface_head s g :
  s <> [] -> match_surface_here s = Some g -> search_surface s = Some g.
Proof. destruct s; [congruence|]. intros _ H. simpl search_surface. now rewrite H. Qed.

(** X6.  A surface written as a run of digits, optional blanks and the
    letter m (either case) is read as the value of the digits, whatever
    list marks (brackets, quotes) come first and whatever text follows;
    with a fractional part "digits.digits" it is read as that decimal. *)
Theorem surface_text_is_read (pre ds fs ws rest : list ascii) (c : ascii) :
  forallb is_list_mark pre = true ->
  ds <> [] -> forallb is_digit ds = true ->
  forallb is_digit fs = true ->
  forallb is_space ws = true -> is_m c = true ->
  extract_surface (Str (string_of_list_ascii (pre ++ ds ++ ws ++ c :: rest)))
  = Some (float_of_decimal ds [])
  /\ (fs <> [] ->
      extract_surface
        (Str (string_of_list_ascii (pre ++ ds ++ "."%char :: fs ++ ws ++ c :: rest)))
      = Some (float_of_decimal ds fs)).
Proof.
  intros Hp Hne Hd Hf Hw Hc.
  destruct (blanks_then_m ws c (strip_list_marks rest) Hw Hc) as [Hm Hhead].
  split.
  - unfold extract_surface. rewrite list_ascii_of_string_of_list_ascii.
    rewrite (stripped_surface pre ds ws c rest Hp Hd Hw Hc).
    rewrite (search_surface_head _ (ds, [])); [reflexivity| |].
    + destruct ds; [congruence|discriminate].
    + unfold match_surface_here.
      rewrite (span_all is_digit ds _ Hd).
      * destruct ds as [|d t]; [congruence|].
        destruct (ws ++ c :: strip_list_marks rest)%list as [|x r] eqn:E;
          [destruct Hhead|].
        destruct Hhead as [_ Hdot].
        destruct x as [[] [] [] [] [] [] [] []]; try discriminate Hdot;
          now rewrite Hm.
      * destruct (ws ++ c :: strip_list_marks rest)%list; [exact I|tauto].
  - intro Hfne. unfold extract_surface. rewrite list_ascii_of_string_of_list_ascii.
    assert (S : strip_list_marks (pre ++ ds ++ "."%char :: fs ++ ws ++ c :: rest)
                = (ds ++ "."%char :: fs ++ ws ++ c :: strip_list_marks rest)%list).
    { rewrite (strip_list_marks_app pre), (strip_list_marks_app ds).
      rewrite (strip_marks_only pre Hp), (strip_digits ds Hd).
      rewrite strip_cons_kept by reflexivity.
      pose proof (stripped_surface [] fs ws c rest eq_refl Hf Hw Hc) as X.
      change ([] ++ fs ++ ws ++ c :: rest)%list
        with (fs ++ ws ++ c :: rest)%list in X.
      now rewrite X. }
    rewrite S.
    rewrite (search_surface_head _ (ds, fs)); [reflexivity| |].
    + destruct ds; [congruence|discriminate].
    + unfold match_surface_here.
      rewrite (span_all is_digit ds _ Hd); [|reflexivity].
      destruct ds as [|d t]; [congruence|].
      rewrite (span_all is_digit fs _ Hf).
      * destruct fs as [|f t']; [congruence|]. now rewrite Hm.
      * destruct (ws ++ c :: strip_list_marks rest)%list; [exact I|tauto].
Qed.

Definition surface_124 : list ascii := list_ascii_of_string "124".

Lemma surface_text_is_read_witness :
  extract_surface (Str "['124 m2']") = Some (float_of_decimal surface_124 []).
Proof.
  exact (proj1 (surface_text_is_read
                  (list_ascii_of_string "['") surface_124 []
                  (list_ascii_of_string " ") (list_ascii_of_string "2']")
                  "m"%char eq_refl ltac:(discriminate) eq_refl eq_refl
                  eq_refl eq_refl)).
Defined.

Lemma search_digits_skip pre s :
  forallb (fun c => negb (is_digit c)) pre = true ->
  search_digits (pre ++ s) = search_digits s.
Proof.
  induction pre as [|c t IH]; simpl; [reflexivity|].
  intro H. apply andb_true_iff in H. destruct H as [Hc Ht].
  apply negb_true_iff in Hc. rewrite Hc. now apply IH.
Qed.

Lemma filter_keeps_property {A} (p q : A -> bool) l :
  forallb p l = true -> forallb p (filter q l) = true.
Proof.
  induction l as [|x t IH]; simpl; [reflexivity|].
  intro H. apply andb_true_iff in H. destruct H as [Hx Ht].
  destruct (q x); simpl; [rewrite Hx|]; now apply IH.
Qed.

(** A character of the ASCII range: in a text of such characters the
    digits and blanks of the regular expressions are the ASCII ones, and a
    character is one byte. *)
Definition is_ascii (c : ascii) : bool := (nat_of_ascii c <? 128)%nat.

(** X7.  In a text of ASCII characters the room count is the first run of
    digits: before it there may be any text without a digit, after it any
    text that starts with neither a digit nor a list mark.  The count is
    kept when it lies in [1, 20] and is missing otherwise.  (The run has
    at most 4300 digits, the longest that [int] converts.) *)
Theorem rooms_text_is_read (pre ds rest : list ascii) :
  forallb is_ascii pre = true ->
  forallb (fun c => negb (is_digit c)) pre = true ->
  ds <> [] -> forallb is_digit ds = true ->
  (List.length ds <= 4300)%nat ->
  match rest with
  | c :: _ => is_ascii c = true /\ is_digit c = false /\ is_list_mark c = false
  | [] => True
  end ->
  extract_rooms (Str (string_of_list_ascii (pre ++ ds ++ rest)))
  = if ((1 <=? digits_val ds) && (digits_val ds <=? 20))%Z
    then Some (digits_val ds) else None.
Proof.
  intros _ Hp Hne Hd _ Hr0.
  assert (Hr : match rest with
               | c :: _ => is_digit c = false /\ is_list_mark c = false
               | [] => True
               end) by (destruct rest; [exact I|tauto]).
  clear Hr0. unfold extract_rooms.
  rewrite list_ascii_of_string_of_list_ascii.
  rewrite !strip_list_marks_app, (strip_digits ds Hd).
  rewrite search_digits_skip
    by (unfold strip_list_marks; now apply filter_keeps_property).
  assert (S : search_digits (ds ++ strip_list_marks rest) = Some ds).
  { destruct ds as [|d t]; [congruence|].
    assert (Hd0 : is_digit d = true).
    { simpl in Hd. now apply andb_true_iff in Hd. }
    change ((d :: t) ++ strip_list_marks rest)%list
      with (d :: (t ++ strip_list_marks rest))%list.
    cbn [search_digits]. rewrite Hd0.
    change (d :: (t ++ strip_list_marks rest))%list
      with ((d :: t) ++ strip_list_marks rest)%list.
    rewrite (span_all is_digit (d :: t) _ Hd); [reflexivity|].
    destruct rest as [|c r]; [exact I|]. destruct Hr as [Hc Hm].
    simpl. unfold is_list_mark in Hm. rewrite Hm. simpl. exact Hc. }
  now rewrite S.
Qed.

Lemma rooms_text_is_read_witness :
  extract_rooms (Str "['3 pieces']") = Some 3%Z.
Proof.
  refine (rooms_text_is_read (list_ascii_of_string "['")
            (list_ascii_of_string "3") (list_ascii_of_string " pieces']")
            eq_refl eq_refl _ eq_refl _ _).
  - discriminate.
  - simpl. lia.
  - repeat split.
Defined.
End Parsing.

(** ** Property type from the title *)
Section PropertyTypeFromTitle.
Import CleanDataSteps.

(** [k] is a substring of [s]. *)
Definition occurs_in (k s : list ascii) : Prop :=
  exists a b, s = (a ++ k ++ b)%list.

Lemma starts_with_spec k s :
  starts_with k s = true <-> exists b, s = (k ++ b)%list.
Proof.
  revert s. induction k as [|x t IH]; intro s; simpl.
  - split; [intros _; now exists s|reflexivity].
  - destruct s as [|y r]; simpl.
    + split; [discriminate|]. intros (b & E). discriminate.
    + rewrite andb_true_iff, IH. split.
      * intros [E (b & ->)]. apply Ascii.eqb_eq in E. subst. now exists b.
      * intros (b & [= -> ->]). split; [apply Ascii.eqb_refl|now exists b].
Qed.

Lemma contains_spec k s : contains k s = true <-> occurs_in k s.
Proof.
  unfold occurs_in. induction s as [|y r IH].
  - simpl. rewrite orb_false_r, starts_with_spec. split.
    + intros (b & E). now exists [], b.
    + intros (a & b & E). destruct a as [|x a']; [now exists b|discriminate].
  - cbn [contains]. rewrite orb_true_iff, starts_with_spec, IH. split.
    + intros [(b & E)|(a & b & E)].
      * now exists [], b.
      * exists (y :: a), b. simpl. now rewrite E.
    + intros (a & b & E). destruct a as [|x a'].
      * left. now exists b.
      * right. injection E as -> E. now exists a', b.
Qed.

Definition title_mentions (keyword title : string) : Prop :=
  occurs_in (list_ascii_of_string keyword) (lower (list_ascii_of_string title)).

Lemma mentions_spec keyword title :
  mentions keyword (lower (list_ascii_of_string title)) = true
  <-> title_mentions keyword title.
Proof. apply contains_spec. Qed.

Lemma mentions_false keyword title :
  ~ title_mentions keyword title ->
  mentions keyword (lower (list_ascii_of_string title)) = false.
Proof.
  intro H. destruct (mentions _ _) eqn:E; [|reflexivity].
  apply mentions_spec in E. contradiction.
Qed.

(** X8.  The property type is decided by the first keyword, in the order
    appartement, villa, maison, terrain, local, studio, that occurs in the
    title once its capital letters are lowered: a title that mentions
    "appartement" is an Appartement whatever else it mentions, and a title
    that mentions none of the six is "Autre". *)
Theorem property_type_first_keyword (title : string) :
  (title_mentions "appartement" title ->
   extract_property_type (Some title) = "Appartement") /\
  (~ title_mentions "appartement" title -> title_mentions "villa" title ->
   extract_property_type (Some title) = "Villa") /\
  (~ title_mentions "appartement" title -> ~ title_mentions "villa" title ->
   title_mentions "maison" title ->
   extract_property_type (Some title) = "Maison") /\
  (~ title_mentions "appartement" title -> ~ title_mentions "villa" title ->
   ~ title_mentions "maison" title -> title_mentions "terrain" title ->
   extract_property_type (Some title) = "Terrain") /\
  (~ title_mentions "appartement" title -> ~ title_mentions "villa" title ->
   ~ title_mentions "maison" title -> ~ title_mentions "terrain" title ->
   title_mentions "local" title ->
   extract_property_type (Some title) = "Local") /\
  (~ title_mentions "appartement" title -> ~ title_mentions "villa" title ->
   ~ title_mentions "maison" title -> ~ title_mentions "terrain" title ->
   ~ title_mentions "local" title -> title_mentions "studio" title ->
   extract_property_type (Some title) = "Studio") /\
  (~ title_mentions "appartement" title -> ~ title_mentions "villa" title ->
   ~ title_mentions "maison" title -> ~ title_mentions "terrain" title ->
   ~ title_mentions "local" title -> ~ title_mentions "studio" title ->
   extract_property_type (Some title) = "Autre").
Proof.
  unfold extract_property_type.
  repeat split; intros;
    repeat match goal with
           | H : title_mentions _ _ |- _ => apply mentions_spec in H; rewrite H
           | H : ~ title_mentions _ _ |- _ => apply mentions_false in H; rewrite H
           end; reflexivity.
Qed.

Lemma property_type_first_keyword_witness :
  extract_property_type (Some "VILLA avec appartement") = "Appartement".
Proof.
  apply (proj1 (property_type_first_keyword "VILLA avec appartement")).
  exists (list_ascii_of_string "villa avec "), []. reflexivity.
Defined.
End PropertyTypeFromTitle.

(** ** Splitting by transaction type, src/clean_data.py *)
Section SplitByTransaction.
Import CleanData CleanDataSteps.

Definition in_neither {A} (r : option string * A) : bool :=
  negb (series_eq (fst r) (Some "Vente"))
  && negb (series_eq (fst r) (Some "Location")).

Lemma series_eq_Some x s : series_eq x (Some s) = true <-> x = Some s.
Proof.
  rewrite series_eq_true. split.
  - now intros (t & -> & [= ->]).
  - intros ->. now exists s.
Qed.

Lemma split_counts {A} (df : list (option string * A)) :
  (List.length (filter (fun r => series_eq (fst r) (Some "Vente")) df)
   + List.length (filter (fun r => series_eq (fst r) (Some "Location")) df)
   + List.length (filter in_neither df) = List.length df)%nat.
Proof.
  induction df as [|[x a] t IH]; simpl; [reflexivity|].
  unfold in_neither at 1. simpl.
  destruct (series_eq x (Some "Vente")) eqn:V.
  - apply series_eq_Some in V. subst x. simpl. lia.
  - destruct (series_eq x (Some "Location")); simpl; lia.
Qed.

(** X9.  The split puts in the sales output exactly the rows labelled
    "Vente" and in the rental output exactly the rows labelled "Location";
    every row is in one output or in neither, never in both, so the two
    sizes and the number of rows with another label or none add up to the
    size of the table.  A row labelled "SALE" is in neither output. *)
Theorem split_by_exact_label {A} (df : list (option string * A)) :
  let out := split_data_by_transaction_type df in
  (forall x, In x (fst out) <-> In (Some "Vente", x) df) /\
  (forall x, In x (snd out) <-> In (Some "Location", x) df) /\
  (List.length (fst out) + List.length (snd out)
   + List.length (filter in_neither df) = List.length df)%nat /\
  (forall x : A, in_neither (Some "SALE", x) = true) /\
  (forall x : A, in_neither (None, x) = true).
Proof.
  simpl. repeat split.
  - intro H. apply in_map_iff in H. destruct H as ([l y] & E & H).
    simpl in E. subst y. apply filter_In in H. destruct H as [H L].
    simpl in L. apply series_eq_Some in L. now subst l.
  - intro H. apply in_map_iff. exists (Some "Vente", x). split; [reflexivity|].
    apply filter_In. now split.
  - intro H. apply in_map_iff in H. destruct H as ([l y] & E & H).
    simpl in E. subst y. apply filter_In in H. destruct H as [H L].
    simpl in L. apply series_eq_Some in L. now subst l.
  - intro H. apply in_map_iff. exists (Some "Location", x). split; [reflexivity|].
    apply filter_In. now split.
  - rewrite !length_map. apply split_counts.
Qed.

Definition labelled_with (t : string) (r : Row) : Row :=
  if isna (TransactionType r) then set_TransactionType (Some t) r else r.

Lemma no_row_with_other_label (t lbl : string) (l : DataFrame) :
  lbl <> t ->
  (forall r, In r l -> TransactionType r = None) ->
  filter (fun r : option string * Row => series_eq (fst r) (Some lbl))
         (map (fun r => (TransactionType (labelled_with t r), labelled_with t r)) l)
  = [].
Proof.
  intros Hl Hall. induction l as [|r rs IH]; simpl; [reflexivity|].
  unfold labelled_with at 1. rewrite (Hall r (or_introl eq_refl)). simpl.
  destruct (String.eqb_spec t lbl) as [E|N]; [congruence|].
  apply IH. intros r0 H0. apply Hall. now right.
Qed.

(** X10.  When no listing of the table has a transaction type, the
    imputation labels every listing "SALE", and the split, which reads the
    labels "Vente" and "Location" only, leaves both outputs empty. *)
Theorem unlabelled_table_splits_to_nothing (df : DataFrame) :
  (forall r, In r df -> TransactionType r = None) ->
  split_data_by_transaction_type
    (map (fun r => (TransactionType r, r)) (impute_transaction_types df))
  = ([], []).
Proof.
  intro Hall.
  rewrite impute_transaction_types_rows, (most_common_when_unlabelled df Hall).
  unfold split_data_by_transaction_type. rewrite map_map.
  fold (labelled_with "SALE").
  change (fun x : Row =>
            (TransactionType
               (if isna (TransactionType x)
                then set_TransactionType (Some "SALE") x else x),
             if isna (TransactionType x)
             then set_TransactionType (Some "SALE") x else x))
    with (fun x : Row => (TransactionType (labelled_with "SALE" x),
                          labelled_with "SALE" x)).
  rewrite (no_row_with_other_label "SALE" "Vente" df) by (discriminate || exact Hall).
  rewrite (no_row_with_other_label "SALE" "Location" df)
    by (discriminate || exact Hall).
  reflexivity.
Qed.

Definition unlabelled_listings : DataFrame :=
  [ mkRow (Some 5) None None (Some "Alger") NaN NaN None None None;
    mkRow (Some 7) None None (Some "Oran") NaN NaN None None None ].

Lemma unlabelled_table_splits_to_nothing_witness :
  split_data_by_transaction_type
    (map (fun r => (TransactionType r, r))
         (impute_transaction_types unlabelled_listings))
  = ([], []).
Proof.
  apply (unlabelled_table_splits_to_nothing unlabelled_listings).
  intros r [<-|[<-|[]]]; reflexivity.
Defined.

(** X11.  The last fill of the prices (line 372) keeps every observed
    price, and once one price is observed in the table it leaves none
    missing: each missing price becomes the median of the observed ones. *)
Theorem prices_filled_with_median (df : DataFrame) :
  (exists r v, In r df /\ NormalizedPrice r = Some v) ->
  exists m, median (map NormalizedPrice df) = Some m /\
    forall i r, nth_error df i = Some r ->
      exists r', nth_error (fill_prices_with_median df) i = Some r' /\
        NormalizedPrice r'
        = Some (match NormalizedPrice r with Some v => v | None => m end).
Proof.
  intros (r0 & v0 & H0 & E0).
  destruct (median (map NormalizedPrice df)) as [m|] eqn:M.
  - exists m. split; [reflexivity|]. intros i r Hi.
    unfold fill_prices_with_median. rewrite M.
    eexists. split; [rewrite nth_error_map, Hi; reflexivity|].
    destruct (NormalizedPrice r) eqn:E; simpl; [exact E|reflexivity].
  - exfalso. apply median_None in M.
    assert (I : In v0 (observed (map NormalizedPrice df))).
    { apply In_observed, in_map_iff. now exists r0. }
    rewrite M in I. destruct I.
Qed.

Definition half_priced_listings : DataFrame :=
  [ mkRow (Some 5) None None (Some "Alger") NaN NaN (Some 5) None None;
    mkRow None None None (Some "Oran") NaN NaN None None None ].

Lemma prices_filled_with_median_witness :
  exists m, median (map NormalizedPrice half_priced_listings) = Some m /\
    forall i r, nth_error half_priced_listings i = Some r ->
      exists r', nth_error (fill_prices_with_median half_priced_listings) i = Some r'
        /\ NormalizedPrice r'
           = Some (match NormalizedPrice r with Some v => v | None => m end).
Proof.
  apply (prices_filled_with_median half_priced_listings).
  exists (mkRow (Some 5) None None (Some "Alger") NaN NaN (Some 5) None None), 5.
  split; [now left|reflexivity].
Defined.
End SplitByTransaction.

(** ** Invariants of [fit_transform] *)
Section FitTransformInvariants.
Import AdvancedImputation.
Variable skew : list (option Q) -> option Q.
Variable estimate : estimator.
Variable most_frequent : list (option string) -> string.

Lemma preserves_for_each_in {A} I (l : list A) (body : A -> M unit) :
  (forall x, In x l -> preserves I (body x)) -> preserves I (for_each l body).
Proof.
  induction l as [|x t IH]; intro Hb; simpl.
  - apply preserves_ret.
  - apply preserves_bind; [apply Hb; now left|].
    intros _. apply IH. intros y Hy. apply Hb. now right.
Qed.

(** A property of the state that ignores the imputer object. *)
Definition heap_only (I : state -> Prop) : Prop :=
  forall f, preserves I (update_self f).

Lemma heap_only_encode_all I cols :
  heap_only I -> preserves I (encode_all cols).
Proof.
  intro HI. induction cols as [|[name xs] t IH]; simpl.
  - apply preserves_ret.
  - apply preserves_bind.
    + unfold encode_column. apply preserves_bind; [apply preserves_get_self|].
      intro s. apply preserves_bind.
      * destruct (dict_get _ _); [apply preserves_ret|apply HI].
      * intros _. destruct (has_observed xs).
        -- apply preserves_bind; [apply HI|]. intros _. apply preserves_ret.
        -- apply preserves_ret.
    + intro c. apply preserves_bind; [exact IH|]. intro rest. apply preserves_ret.
Qed.

(** The first loop writes one column, the target, and writes it without a
    missing cell. *)
Lemma numerical_writes_target I df di cols info column :
  heap_only I ->
  (mem column cols = true ->
   forall v, preserves I (setitem di column (Numeric (map Some v)))) ->
  preserves I (impute_numerical_column skew estimate df di cols info column).
Proof.
  intros HI Hset. unfold impute_numerical_column.
  apply preserves_bind; [apply preserves_load|]. intro d.
  destruct (mem column cols && any_null_in d column) eqn:C;
    [|apply preserves_ret].
  apply andb_true_iff in C. destruct C as [C _]. specialize (Hset C).
  apply preserves_bind; [apply preserves_load|]. intro di0.
  apply preserves_bind; [apply preserves_lift|]. intros [imp strategy].
  apply preserves_bind.
  - destruct (_ || _).
    + destruct (nth_error _ _); [apply Hset|apply preserves_raise].
    + destruct (dict_get di0 column) as [[xs|xs]|];
        [apply Hset|apply preserves_raise..].
  - intros _. apply preserves_bind; [apply HI|].
    intros _. apply preserves_bind; [apply preserves_load|]. intro di'.
    destruct (dict_get info column); [apply HI|apply preserves_raise].
Qed.

Lemma categorical_writes_target I df di cols info column :
  heap_only I ->
  (mem column cols = true ->
   forall labels, preserves I (setitem di column (Object (map Some labels)))) ->
  preserves I
    (impute_categorical_column estimate most_frequent df di cols info column).
Proof.
  intros HI Hset. unfold impute_categorical_column.
  apply preserves_bind; [apply preserves_load|]. intro d.
  destruct (mem column cols && any_null_in d column) eqn:C;
    [|apply preserves_ret].
  apply andb_true_iff in C. destruct C as [C _]. specialize (Hset C).
  apply preserves_bind; [apply preserves_load|]. intro di0.
  apply preserves_bind; [apply preserves_lift|]. intros [imp strategy].
  apply preserves_bind.
  - destruct (String.eqb strategy "knn").
    + apply preserves_bind; [now apply heap_only_encode_all|]. intro X.
      destruct (nth_error _ _); [|apply preserves_raise].
      apply preserves_bind; [apply preserves_get_self|]. intro s.
      destruct (dict_get (label_encoders s) column) as [[classes|]|];
        [|apply preserves_raise..].
      apply preserves_bind; [apply preserves_lift|]. intro labels. apply Hset.
    + destruct (dict_get di0 column) as [[xs|xs]|];
        [apply preserves_raise|apply Hset|apply preserves_raise].
  - intros _. apply preserves_bind; [apply HI|].
    intros _. apply preserves_bind; [apply preserves_load|]. intro di'.
    destruct (dict_get info column); [apply HI|apply preserves_raise].
Qed.

(** The table that [fit_transform] imputes, the targets it goes through,
    and what it does once they are fixed. *)
Definition effective_targets (d : DataFrame) (targets : option (list string))
    : list string :=
  match targets with
  | Some l => l
  | None => columns (filter (fun nc => any_null (snd nc)) d)
  end.

Definition numeric_names (d : DataFrame) : list string :=
  columns (filter (fun nc => is_numeric (snd nc)) d).

Definition object_names (d : DataFrame) : list string :=
  columns (filter (fun nc => negb (is_numeric (snd nc))) d).

Definition loops (d : DataFrame) (df di : ref) (targets : option (list string))
    : M ref :=
  update_self (set_analysis (fst (analyze_missing_data d))
                            (snd (analyze_missing_data d))) ;;;
  for_each (effective_targets d targets)
    (impute_numerical_column skew estimate df di (numeric_names d)
       (fst (analyze_missing_data d))) ;;;
  for_each (effective_targets d targets)
    (impute_categorical_column estimate most_frequent df di (object_names d)
       (fst (analyze_missing_data d))) ;;;
  ret di.

(** [fit_transform] is the loops run on the caller's table or on a copy. *)
Lemma fit_transform_loops df targets preserve st :
  fit_transform skew estimate most_frequent df targets preserve st
  = let d := nth df (heap st) [] in
    if preserve
    then loops d df (List.length (heap st)) targets
               (mkState (heap st ++ [d])%list (self st))
    else loops d df df targets st.
Proof.
  unfold fit_transform, loops, effective_targets, numeric_names, object_names.
  unfold bind at 1, load at 1. simpl.
  destruct (analyze_missing_data (nth df (heap st) [])) as [info recs].
  destruct preserve; reflexivity.
Qed.

Lemma loops_preserve I d df di targets :
  heap_only I ->
  (forall column v,
      In column (effective_targets d targets) ->
      mem column (numeric_names d) = true ->
      preserves I (setitem di column (Numeric (map Some v)))) ->
  (forall column labels,
      In column (effective_targets d targets) ->
      mem column (object_names d) = true ->
      preserves I (setitem di column (Object (map Some labels)))) ->
  preserves I (loops d df di targets).
Proof.
  intros HI Hn Hc. unfold loops.
  apply preserves_bind; [apply HI|]. intros _.
  apply preserves_bind.
  - apply preserves_for_each_in. intros column Hin.
    apply numerical_writes_target; [exact HI|]. intros Hm v. now apply Hn.
  - intros _. apply preserves_bind; [|intros _; apply preserves_ret].
    apply preserves_for_each_in. intros column Hin.
    apply categorical_writes_target; [exact HI|]. intros Hm l. now apply Hc.
Qed.

Lemma loops_answer_is_target d df di targets st x st' :
  loops d df di targets st = (Ok x, st') -> x = di.
Proof. unfold loops. apply loops_answer. Qed.

Lemma nth_list_set_other {A} (h : list A) r r' x d :
  r <> r' -> nth r (list_set h r' x) d = nth r h d.
Proof.
  revert r r'. induction h as [|y t IH]; intros r r' N; simpl; [reflexivity|].
  destruct r' as [|r']; destruct r as [|r]; simpl; try reflexivity; try congruence.
  apply IH. congruence.
Qed.

(** What [setitem] leaves in the heap. *)
Lemma setitem_heap r name c st :
  heap (snd (setitem r name c st)) = heap st
  \/ ((col_len c =? len (nth r (heap st) []))%nat = true
      /\ heap (snd (setitem r name c st))
         = list_set (heap st) r (dict_set (nth r (heap st) []) name c)).
Proof.
  unfold setitem, bind, load, store, raise. simpl.
  destruct (col_len c =? len _)%nat; simpl; [right; now split|now left].
Qed.

(** *** The caller's table under [preserve_original=True] *)

(** X12.  With [preserve_original=True] the table the caller passed is
    left exactly as it was, whether [fit_transform] returns or raises. *)
Theorem original_preserved (df : ref) targets (st : state) :
  (df < List.length (heap st))%nat ->
  nth df (heap (snd (fit_transform skew estimate most_frequent df targets true st))) []
  = nth df (heap st) [].
Proof.
  intro Hdf. rewrite fit_transform_loops. simpl.
  set (d := nth df (heap st) []).
  set (di := List.length (heap st)).
  assert (P : preserves (fun s => nth df (heap s) [] = d) (loops d df di targets)).
  { assert (Hset : forall name c,
               preserves (fun s => nth df (heap s) [] = d) (setitem di name c)).
    { intros name c s Hs. destruct (setitem_heap di name c s) as [E|[_ E]];
        rewrite E; [exact Hs|].
      rewrite nth_list_set_other; [exact Hs|]. unfold di. lia. }
    apply loops_preserve.
    - now intros f s Hs.
    - intros. apply Hset.
    - intros. apply Hset. }
  apply P. simpl. now rewrite app_nth1.
Qed.

End FitTransformInvariants.

Lemma original_preserved_witness :
  nth 0 (AdvancedImputation.heap
           (snd (AdvancedImputation.fit_transform no_skew zero_estimate
                   first_label 0%nat (Some ["Surface"]) true
                   (AdvancedImputation.mkState [listings_empty_column]
                      AdvancedImputation.new_imputer)))) []
  = listings_empty_column.
Proof.
  apply (original_preserved no_skew zero_estimate first_label 0%nat
           (Some ["Surface"])
           (AdvancedImputation.mkState [listings_empty_column]
              AdvancedImputation.new_imputer)).
  simpl. lia.
Defined.

Section FitTransformWrites.
Import AdvancedImputation.
Variable skew : list (option Q) -> option Q.
Variable estimate : estimator.
Variable most_frequent : list (option string) -> string.

(** The table imputed by a run: the caller's, or the copy made of it. *)
Lemma fit_transform_run df targets preserve st r' st' :
  fit_transform skew estimate most_frequent df targets preserve st = (Ok r', st') ->
  exists st0,
    nth r' (heap st0) [] = nth df (heap st) []
    /\ loops skew estimate most_frequent (nth df (heap st) []) df r' targets st0
       = (Ok r', st').
Proof.
  intro Hrun. rewrite fit_transform_loops in Hrun. cbv zeta in Hrun.
  destruct preserve.
  - exists (mkState (heap st ++ [nth df (heap st) []])%list (self st)).
    pose proof (loops_answer_is_target _ _ _ _ _ _ _ _ _ _ Hrun) as ->.
    split; [apply nth_length_app|exact Hrun].
  - exists st.
    pose proof (loops_answer_is_target _ _ _ _ _ _ _ _ _ _ Hrun) as ->.
    split; [reflexivity|exact Hrun].
Qed.

Lemma fit_transform_invariant df targets preserve st r' st'
    (I : ref -> state -> Prop) :
  (forall di st0, nth di (heap st0) [] = nth df (heap st) [] -> I di st0) ->
  (forall di, preserves (I di)
                (loops skew estimate most_frequent (nth df (heap st) []) df di
                       targets)) ->
  fit_transform skew estimate most_frequent df targets preserve st = (Ok r', st') ->
  I r' st'.
Proof.
  intros Hinit Hpres Hrun.
  destruct (fit_transform_run df targets preserve st r' st' Hrun) as (st0 & Hd & Hl).
  pose proof (Hpres r' st0 (Hinit r' st0 Hd)) as P. now rewrite Hl in P.
Qed.

(** *** Only the targets are written *)

Lemma setitem_other_column di name column c v :
  column <> name ->
  preserves (fun s => dict_get (nth di (heap s) []) name = v) (setitem di column c).
Proof.
  intros N s Hs. destruct (setitem_heap di column c s) as [E|[_ E]];
    rewrite E; [exact Hs|].
  destruct (Nat.lt_ge_cases di (List.length (heap s))) as [L|G].
  - rewrite nth_list_set by exact L.
    rewrite dict_get_dict_set_other; [exact Hs|congruence].
  - now rewrite list_set_beyond.
Qed.

(** X13.  A column that is not among the targets comes out of
    [fit_transform] exactly as it went in (the targets are the list given,
    or by default the columns that have a missing value). *)
Theorem only_targets_written df targets preserve st r' st' name :
  fit_transform skew estimate most_frequent df targets preserve st = (Ok r', st') ->
  ~ In name (effective_targets (nth df (heap st) []) targets) ->
  dict_get (nth r' (heap st') []) name = dict_get (nth df (heap st) []) name.
Proof.
  intros Hrun Hname.
  apply (fit_transform_invariant df targets preserve st r' st'
           (fun di s => dict_get (nth di (heap s) []) name
                        = dict_get (nth df (heap st) []) name)).
  - intros di st0 ->. reflexivity.
  - intro di. apply loops_preserve.
    + now intros f s Hs.
    + intros column v Hin _. apply setitem_other_column. congruence.
    + intros column l Hin _. apply setitem_other_column. congruence.
  - exact Hrun.
Qed.

(** *** No new missing value *)

Lemma missing_all_observed_numeric (v : list Q) :
  missing (Numeric (map Some v)) = O.
Proof.
  unfold missing, count_true. simpl. induction v; simpl; [reflexivity|exact IHv].
Qed.

Lemma missing_all_observed_object (v : list string) :
  missing (Object (map Some v)) = O.
Proof.
  unfold missing, count_true. simpl. induction v; simpl; [reflexivity|exact IHv].
Qed.

Lemma setitem_complete_column di d0 column c :
  missing c = O ->
  preserves (fun s => forall name,
               (missing_in (nth di (heap s) []) name <= missing_in d0 name)%nat)
            (setitem di column c).
Proof.
  intros Hc s Hs. destruct (setitem_heap di column c s) as [E|[_ E]];
    rewrite E; [exact Hs|].
  destruct (Nat.lt_ge_cases di (List.length (heap s))) as [L|G].
  - rewrite nth_list_set by exact L. intro name. unfold missing_in.
    destruct (string_dec name column) as [->|N].
    + rewrite dict_get_dict_set_same, Hc. lia.
    + rewrite dict_get_dict_set_other by exact N. apply Hs.
  - now rewrite list_set_beyond.
Qed.

(** X14.  Whenever [fit_transform] returns, no column of its answer has
    more missing values than the same column of the table it was given. *)
Theorem missing_never_increases df targets preserve st r' st' :
  fit_transform skew estimate most_frequent df targets preserve st = (Ok r', st') ->
  forall name,
    (missing_in (nth r' (heap st') []) name
     <= missing_in (nth df (heap st) []) name)%nat.
Proof.
  intro Hrun.
  apply (fit_transform_invariant df targets preserve st r' st'
           (fun di s => forall name,
                (missing_in (nth di (heap s) []) name
                 <= missing_in (nth df (heap st) []) name)%nat)).
  - intros di st0 -> name. lia.
  - intro di. apply loops_preserve.
    + now intros f s Hs.
    + intros column v _ _. apply setitem_complete_column.
      apply missing_all_observed_numeric.
    + intros column l _ _. apply setitem_complete_column.
      apply missing_all_observed_object.
  - exact Hrun.
Qed.

(** *** Shape of the answer *)

Lemma len_dict_set (T : DataFrame) name c :
  In name (columns T) -> col_len c = len T -> len (dict_set T name c) = len T.
Proof.
  destruct T as [|[k c0] t]; simpl; [tauto|].
  intros _ E. destruct (String.eqb name k); simpl; [exact E|reflexivity].
Qed.

Lemma setitem_same_shape di names n column c :
  In column names ->
  preserves (fun s => columns (nth di (heap s) []) = names
                      /\ len (nth di (heap s) []) = n)
            (setitem di column c).
Proof.
  intros Hin s [Hc Hl]. destruct (setitem_heap di column c s) as [E|[K E]];
    rewrite E; [now split|].
  apply Nat.eqb_eq in K.
  destruct (Nat.lt_ge_cases di (List.length (heap s))) as [L|G].
  - rewrite nth_list_set by exact L. split.
    + rewrite columns_dict_set; [exact Hc|now rewrite Hc].
    + rewrite len_dict_set; [exact Hl|now rewrite Hc|exact K].
  - rewrite list_set_beyond by exact G. now split.
Qed.

(** X15.  Whenever [fit_transform] returns, its answer has the columns of
    the table it was given, under the same names and in the same order,
    and the same number of rows. *)
Theorem shape_preserved df targets preserve st r' st' :
  fit_transform skew estimate most_frequent df targets preserve st = (Ok r', st') ->
  columns (nth r' (heap st') []) = columns (nth df (heap st) [])
  /\ len (nth r' (heap st') []) = len (nth df (heap st) []).
Proof.
  intro Hrun.
  apply (fit_transform_invariant df targets preserve st r' st'
           (fun di s => columns (nth di (heap s) []) = columns (nth df (heap st) [])
                        /\ len (nth di (heap s) []) = len (nth df (heap st) []))).
  - intros di st0 ->. now split.
  - intro di. apply loops_preserve.
    + now intros f s Hs.
    + intros column v _ Hm. apply setitem_same_shape.
      apply mem_In in Hm. now apply columns_filter_subset in Hm.
    + intros column l _ Hm. apply setitem_same_shape.
      apply mem_In in Hm. now apply columns_filter_subset in Hm.
  - exact Hrun.
Qed.
End FitTransformWrites.

Section FitTransformWritesExamples.
Import AdvancedImputation.

(** The run of C1's table: the surfaces are imputed on a copy. *)
Definition surfaces_run : result ref * state :=
  fit_transform no_skew zero_estimate first_label 0%nat (Some ["Surface"]) true
    (mkState [listings_empty_column] new_imputer).

Lemma only_targets_written_witness :
  dict_get (nth 1 (heap (snd surfaces_run)) []) "Price"
  = dict_get listings_empty_column "Price".
Proof.
  apply (only_targets_written no_skew zero_estimate first_label 0%nat
           (Some ["Surface"]) true (mkState [listings_empty_column] new_imputer)
           1%nat (snd surfaces_run) "Price").
  - vm_compute. reflexivity.
  - simpl. intros [H|[]]. discriminate H.
Defined.

Lemma missing_never_increases_witness :
  (missing_in (nth 1 (heap (snd surfaces_run)) []) "Surface"
   <= missing_in listings_empty_column "Surface")%nat.
Proof.
  refine (missing_never_increases no_skew zero_estimate first_label 0%nat
            (Some ["Surface"]) true (mkState [listings_empty_column] new_imputer)
            1%nat (snd surfaces_run) _ "Surface").
  vm_compute. reflexivity.
Defined.

Lemma shape_preserved_witness :
  columns (nth 1 (heap (snd surfaces_run)) []) = columns listings_empty_column
  /\ len (nth 1 (heap (snd surfaces_run)) []) = len listings_empty_column.
Proof.
  apply (shape_preserved no_skew zero_estimate first_label 0%nat
           (Some ["Surface"]) true (mkState [listings_empty_column] new_imputer)
           1%nat (snd surfaces_run)).
  vm_compute. reflexivity.
Defined.
End FitTransformWritesExamples.

(** ** The missingness analyzer and the strategy names *)
Section Analyzer.
Import AdvancedImputation.

Definition info_of (total_rows : nat) (nc : string * column) : missing_info :=
  mkInfo (missing (snd nc)) (percentage (missing (snd nc)) total_rows)
         (is_numeric (snd nc)).

Lemma info_fold_absent n (df : DataFrame) acc name :
  ~ In name (columns df) ->
  dict_get (fold_left (fun d nc => dict_set d (fst nc) (info_of n nc)) df acc) name
  = dict_get acc name.
Proof.
  revert acc. induction df as [|[k c] t IH]; intros acc H; simpl; [reflexivity|].
  rewrite IH.
  - apply dict_get_dict_set_other. intros ->. apply H. now left.
  - intro X. apply H. now right.
Qed.

Lemma info_fold_present n (df : DataFrame) acc name c :
  NoDup (columns df) -> dict_get df name = Some c ->
  dict_get (fold_left (fun d nc => dict_set d (fst nc) (info_of n nc)) df acc) name
  = Some (info_of n (name, c)).
Proof.
  revert acc. induction df as [|[k c0] t IH]; intros acc Hnd G; simpl in *;
    [discriminate|].
  inversion Hnd as [|? ? Hk Ht]; subst.
  destruct (String.eqb_spec name k) as [->|N].
  - injection G as ->. rewrite info_fold_absent by exact Hk.
    apply dict_get_dict_set_same.
  - now apply IH.
Qed.

Lemma dict_get_map_values {V W} (f : V -> W) (d : list (string * V)) name :
  dict_get (map (fun kv => (fst kv, f (snd kv))) d) name
  = option_map f (dict_get d name).
Proof.
  induction d as [|[k v] t IH]; simpl; [reflexivity|].
  destruct (String.eqb name k); [reflexivity|exact IH].
Qed.

Lemma percentage_zero (m n : nat) :
  (0 < n)%nat -> eq_cell (percentage m n) 0 = (m =? 0)%nat.
Proof.
  intro Hn. destruct (percentage_value m n Hn) as (v & E & Hv). rewrite E. simpl.
  pose proof (inject_nat_pos n Hn) as Hb.
  destruct m as [|m'].
  - simpl. apply Qeq_bool_iff. rewrite Hv. simpl. unfold Qdiv. ring.
  - simpl. apply Qeq_bool_false_pos. rewrite Hv.
    apply Qlt_shift_div_l; [exact Hb|]. rewrite Qmult_0_l.
    change 0 with (inject_Z 0). rewrite <- Zlt_Qlt. lia.
Qed.

Lemma percentage_below_bool (m n k : nat) :
  (0 < n)%nat ->
  lt_cell (percentage m n) (inject_Z (Z.of_nat k)) = (100 * m <? k * n)%nat.
Proof.
  intro Hn. destruct (100 * m <? k * n)%nat eqn:E.
  - apply Nat.ltb_lt in E. now apply percentage_below.
  - apply Nat.ltb_ge in E. now apply percentage_not_below.
Qed.

(** The advice in whole numbers: [m] missing cells among [n] rows. *)
Definition advice (m n : nat) : recommendation :=
  if (m =? 0)%nat then NoMissingValues
  else if (100 * m <? 5 * n)%nat then SimpleImputationSufficient
  else if (100 * m <? 20 * n)%nat then KNNOrIterativeRecommended
  else if (100 * m <? 50 * n)%nat then AdvancedWithCaution
  else ConsiderDropping.

(** X17.  For a table with at least one row and distinct column names, the
    analyzer records for every column its number of missing cells, and
    recommends: nothing when none is missing, a simple imputation below 5%
    missing, k nearest neighbours or iterative imputation from 5% and below
    20%, advanced imputation with caution from 20% and below 50%, and
    dropping the column from 50% on. *)
Theorem recommendation_by_percentage (df : DataFrame) (name : string) (c : column) :
  NoDup (columns df) -> dict_get df name = Some c -> (0 < len df)%nat ->
  option_map missing_count (dict_get (fst (analyze_missing_data df)) name)
  = Some (missing c)
  /\ dict_get (snd (analyze_missing_data df)) name
     = Some (advice (missing c) (len df)).
Proof.
  intros Hnd G Hn. unfold analyze_missing_data. cbn [fst snd].
  fold (info_of (len df)).
  assert (E : forall (f : DataFrame -> string * column -> DataFrame), True) by easy.
  clear E.
  pose proof (info_fold_present (len df) df [] name c Hnd G) as HI.
  unfold info_of in HI at 1.
  match type of HI with
  | dict_get ?X name = _ =>
      match goal with
      | |- context [dict_get ?Y name] => change Y with X
      end
  end.
  rewrite HI. split; [reflexivity|].
  rewrite dict_get_map_values.
  match goal with
  | |- option_map recommend (dict_get ?Y name) = _ =>
      match type of HI with dict_get ?X name = _ => change Y with X end
  end.
  rewrite HI. simpl. f_equal. unfold recommend, advice. simpl.
  rewrite (percentage_zero _ _ Hn).
  change (inject_Z 5) with (inject_Z (Z.of_nat 5)).
  change (inject_Z 20) with (inject_Z (Z.of_nat 20)).
  change (inject_Z 50) with (inject_Z (Z.of_nat 50)).
  now rewrite !(percentage_below_bool _ _ _ Hn).
Qed.
End Analyzer.

Lemma recommendation_by_percentage_witness :
  AdvancedImputation.dict_get (snd (AdvancedImputation.analyze_missing_data table_15_percent))
           "Surface"
  = Some AdvancedImputation.KNNOrIterativeRecommended.
Proof.
  refine (proj2 (recommendation_by_percentage table_15_percent "Surface"
                   (AdvancedImputation.Numeric surfaces_15_percent) _ eq_refl _)).
  - repeat constructor; simpl; intuition discriminate.
  - vm_compute. lia.
Defined.

Section CategoricalSelector.
Import AdvancedImputation.
Variable skew : list (option Q) -> option Q.

(** X18.  Under the 'auto' policy a column of a table with at least one row
    is filled, as a categorical one, by its most frequent value when less
    than 10% of its cells are missing, and by 5 nearest neighbours with
    uniform weights from 10% on. *)
Theorem categorical_auto_strategy (df : DataFrame) (c : column) (column : string) :
  dict_get df column = Some c ->
  (0 < len df)%nat ->
  smart_impute_categorical df column "auto"
  = Ok (if (100 * missing c <? 10 * len df)%nat
        then (SimpleImputer MostFrequent, "mode")
        else (KNNImputer 5 Uniform, "knn")).
Proof.
  intros Hc Hn. unfold smart_impute_categorical. rewrite Hc.
  change (inject_Z 10) with (inject_Z (Z.of_nat 10)).
  cbn [String.eqb Ascii.eqb Bool.eqb].
  rewrite (percentage_below_bool _ _ _ Hn).
  now destruct (100 * missing c <? 10 * len df)%nat.
Qed.

(** X19.  A strategy name that a selector does not know leaves its imputer
    unassigned, and the selector raises UnboundLocalError: the numerical
    one for a name other than 'auto', 'simple', 'knn' and 'iterative', the
    categorical one for a name other than 'auto', 'mode' and 'knn' (so the
    names 'simple' and 'iterative' are refused for a categorical column).
    A table without rows does not change this. *)
Theorem unknown_strategy_raises (df : DataFrame) (c : column)
    (column strategy : string) :
  dict_get df column = Some c ->
  (~ In strategy ["auto"; "simple"; "knn"; "iterative"] ->
   smart_impute_numerical skew df column strategy = Raise UnboundLocalError)
  /\ (~ In strategy ["auto"; "mode"; "knn"] ->
      smart_impute_categorical df column strategy = Raise UnboundLocalError).
Proof.
  intro Hc. split; intro H.
  - unfold smart_impute_numerical. rewrite Hc.
    destruct (String.eqb_spec strategy "auto") as [->|_];
      [exfalso; apply H; simpl; tauto|].
    destruct (String.eqb_spec strategy "simple") as [->|_];
      [exfalso; apply H; simpl; tauto|].
    destruct (String.eqb_spec strategy "knn") as [->|_];
      [exfalso; apply H; simpl; tauto|].
    destruct (String.eqb_spec strategy "iterative") as [->|_];
      [exfalso; apply H; simpl; tauto|].
    reflexivity.
  - unfold smart_impute_categorical. rewrite Hc.
    destruct (String.eqb_spec strategy "auto") as [->|_];
      [exfalso; apply H; simpl; tauto|].
    destruct (String.eqb_spec strategy "mode") as [->|_];
      [exfalso; apply H; simpl; tauto|].
    destruct (String.eqb_spec strategy "knn") as [->|_];
      [exfalso; apply H; simpl; tauto|].
    reflexivity.
Qed.
End CategoricalSelector.

Lemma categorical_auto_strategy_witness :
  AdvancedImputation.smart_impute_categorical table_15_percent "Surface" "auto"
  = AdvancedImputation.Ok (KNNImputer 5 Uniform, "knn").
Proof.
  refine (categorical_auto_strategy table_15_percent
            (AdvancedImputation.Numeric surfaces_15_percent) "Surface" eq_refl _).
  vm_compute. lia.
Defined.

Lemma unknown_strategy_raises_witness :
  AdvancedImputation.smart_impute_categorical table_15_percent "Surface" "simple"
  = AdvancedImputation.Raise AdvancedImputation.UnboundLocalError.
Proof.
  refine (proj2 (unknown_strategy_raises no_skew table_15_percent
                   (AdvancedImputation.Numeric surfaces_15_percent)
                   "Surface" "simple" eq_refl) _).
  simpl. intuition discriminate.
Defined.

(** ** The range filters of the platform's cleaning *)
Section PlatformRangeFilters.
Import AdvancedImputation.
Import Platform.

Lemma keep_mask_In {A} (p : A -> bool) (xs : list A) (x : A) :
  In x (keep (map p xs) xs) -> p x = true /\ In x xs.
Proof.
  induction xs as [|y t IH]; simpl; [contradiction|].
  destruct (p y) eqn:E; simpl.
  - intros [<-|H]; [split; [exact E|now left]|].
    destruct (IH H). split; [assumption|now right].
  - intro H. destruct (IH H). split; [assumption|now right].
Qed.

Lemma keep_sublist {A} (p : A -> bool) mask (xs : list A) :
  forallb p xs = true -> forallb p (keep mask xs) = true.
Proof.
  revert xs. induction mask as [|b m IH]; intros [|x t]; simpl;
    try reflexivity; try (now destruct b).
  intro H. apply andb_true_iff in H. destruct H as [Hx Ht].
  destruct b; simpl; [rewrite Hx|]; now apply IH.
Qed.

Lemma keep_own_mask {A} (p : A -> bool) (xs : list A) :
  forallb p (keep (map p xs) xs) = true.
Proof.
  induction xs as [|x t IH]; simpl; [reflexivity|].
  destruct (p x) eqn:E; simpl; [rewrite E|]; exact IH.
Qed.

(** X20.  What the price filter returns has the columns of its input, and
    every row of it has a price, between the two bounds (the bounds
    included): a row without a price is dropped with the rows out of
    range. *)
Theorem realistic_prices_within_bounds (df df' : DataFrame) (price_column : string)
    (min_price max_price : Q) :
  filter_realistic_prices df price_column min_price max_price = Ok df' ->
  columns df' = columns df
  /\ exists ys,
       dict_get df' price_column = Some (Numeric ys)
       /\ forall y, In y ys ->
            exists v, y = Some v /\ min_price <= v /\ v <= max_price.
Proof.
  unfold filter_realistic_prices.
  destruct (dict_get df price_column) as [[xs|xs]|] eqn:G; try discriminate.
  intros [= <-]. split; [apply columns_select|].
  exists (keep (map (fun x => ge_cell x min_price && le_cell x max_price) xs) xs).
  split.
  - rewrite dict_get_select, G. reflexivity.
  - intros y Hy. apply keep_mask_In in Hy. destruct Hy as [Hy _].
    apply andb_true_iff in Hy. destruct Hy as [Hlo Hhi].
    destruct y as [v|]; [|discriminate]. exists v. simpl in *.
    split; [reflexivity|]. split; now apply Qle_bool_iff.
Qed.

(** A cell that is missing or within the bounds, and a column of such
    cells (a table without the column has none to check). *)
Definition missing_or_within (lo hi : Q) (x : option Q) : bool :=
  isna x || (ge_cell x lo && le_cell x hi).

Definition priced_within (lo hi : Q) (x : option Q) : bool :=
  ge_cell x lo && le_cell x hi.

Definition cells_all (p : option Q -> bool) (name : string) (df : DataFrame)
    : Prop :=
  match dict_get df name with
  | Some (Numeric xs) => forallb p xs = true
  | Some (Object _) => False
  | None => True
  end.

Lemma cells_all_select p name mask df :
  cells_all p name df -> cells_all p name (select mask df).
Proof.
  unfold cells_all. rewrite dict_get_select.
  destruct (dict_get df name) as [[xs|xs]|]; simpl; auto.
  apply keep_sublist.
Qed.

Section Coerced.
Variable to_numeric : string -> option Q.

Lemma coerce_and_filter_own col lo hi df :
  cells_all (missing_or_within lo hi) col (coerce_and_filter to_numeric col lo hi df).
Proof.
  unfold cells_all, coerce_and_filter.
  destruct (dict_get df col) as [c|] eqn:G; [|now rewrite G].
  rewrite dict_get_select, dict_get_dict_set_same. simpl.
  apply (keep_own_mask (missing_or_within lo hi)).
Qed.

Lemma coerce_and_filter_other p name col lo hi df :
  name <> col ->
  cells_all p name df ->
  cells_all p name (coerce_and_filter to_numeric col lo hi df).
Proof.
  intros N H. unfold coerce_and_filter.
  destruct (dict_get df col) as [c|]; [|exact H].
  apply cells_all_select. unfold cells_all.
  rewrite dict_get_dict_set_other by exact N. exact H.
Qed.

Lemma coerce_and_filter_present name col lo hi df :
  name <> col ->
  (exists ys, dict_get df name = Some (Numeric ys)) ->
  exists ys, dict_get (coerce_and_filter to_numeric col lo hi df) name
             = Some (Numeric ys).
Proof.
  intros N [ys G]. unfold coerce_and_filter.
  destruct (dict_get df col) as [c|]; [|now exists ys].
  rewrite dict_get_select, dict_get_dict_set_other by exact N.
  rewrite G. simpl. eauto.
Qed.

(** X21.  The three range filters compose: in what they return together
    every row has a price between 10 000 and 50 000 000, a surface that is
    missing or between 5 and 10 000, and in each of the columns Rooms,
    NbRooms and Chambres a count that is missing or between 0 and 20; a
    later filter, which drops rows and rewrites its own column only, does
    not undo an earlier one. *)
Theorem range_filters_hold_together (df df' : DataFrame) :
  range_filters to_numeric df = Ok df' ->
  (exists ys, dict_get df' "Price" = Some (Numeric ys))
  /\ cells_all (priced_within default_min_price default_max_price) "Price" df'
  /\ cells_all (missing_or_within (inject_Z 5) (inject_Z 10000)) "Surface" df'
  /\ cells_all (missing_or_within 0 (inject_Z 20)) "Rooms" df'
  /\ cells_all (missing_or_within 0 (inject_Z 20)) "NbRooms" df'
  /\ cells_all (missing_or_within 0 (inject_Z 20)) "Chambres" df'.
Proof.
  unfold range_filters.
  destruct (filter_realistic_prices df "Price" default_min_price default_max_price)
    as [d|e] eqn:F; [|discriminate].
  intros [= <-].
  assert (P : (exists ys, dict_get d "Price" = Some (Numeric ys))
              /\ cells_all (priced_within default_min_price default_max_price)
                           "Price" d).
  { unfold filter_realistic_prices in F.
    destruct (dict_get df "Price") as [[xs|xs]|] eqn:G; try discriminate.
    injection F as <-. unfold cells_all. rewrite dict_get_select, G. simpl.
    split; [eauto|].
    apply (keep_own_mask (priced_within default_min_price default_max_price)). }
  destruct P as [P1 P2].
  unfold extract_room_info, extract_surface_info. cbn [fold_left].
  split; [|split; [|split; [|split; [|split]]]].
  - repeat (apply coerce_and_filter_present; [discriminate|]). exact P1.
  - repeat (apply coerce_and_filter_other; [discriminate|]). exact P2.
  - repeat (apply coerce_and_filter_other; [discriminate|]).
    apply coerce_and_filter_own.
  - repeat (apply coerce_and_filter_other; [discriminate|]).
    apply coerce_and_filter_own.
  - repeat (apply coerce_and_filter_other; [discriminate|]).
    apply coerce_and_filter_own.
  - apply coerce_and_filter_own.
Qed.
End Coerced.

(** X22.  The property type is decided by the surface alone: up to 50 a
    studio or small apartment, above 50 and up to 100 a medium apartment,
    above 100 and up to 200 a large apartment, above 200 a house or villa;
    it stays 'Unknown' exactly when the surface is missing. *)
Theorem property_type_by_surface (surface : option Q) :
  property_type surface
  = match surface with
    | None => "Unknown"
    | Some v =>
        if Qle_bool v (inject_Z 50) then "Studio/Small Apartment"
        else if Qle_bool v (inject_Z 100) then "Medium Apartment"
        else if Qle_bool v (inject_Z 200) then "Large Apartment"
        else "House/Villa"
    end.
Proof.
  destruct surface as [v|]; [|reflexivity].
  unfold property_type. simpl.
  destruct (Qle_bool v (inject_Z 50)) eqn:E50.
  - apply Qle_bool_iff in E50.
    assert (E100 : Qle_bool v (inject_Z 100) = true).
    { apply Qle_bool_iff. eapply Qle_trans; [exact E50|].
      rewrite <- Zle_Qle. lia. }
    assert (E200 : Qle_bool v (inject_Z 200) = true).
    { apply Qle_bool_iff. eapply Qle_trans; [exact E50|].
      rewrite <- Zle_Qle. lia. }
    now rewrite E100, E200.
  - simpl. destruct (Qle_bool v (inject_Z 100)) eqn:E100.
    + apply Qle_bool_iff in E100.
      assert (E200 : Qle_bool v (inject_Z 200) = true).
      { apply Qle_bool_iff. eapply Qle_trans; [exact E100|].
        rewrite <- Zle_Qle. lia. }
      now rewrite E200.
    + simpl. now destruct (Qle_bool v (inject_Z 200)).
Qed.
End PlatformRangeFilters.

Section PlatformRangeFiltersExamples.
Import AdvancedImputation.
Import Platform.

(** Four listings: one too cheap, one without a price, one with a surface
    of 3 square metres, and one that passes every filter. *)
Definition priced_listings : DataFrame :=
  [ ("Price", Numeric [Some (inject_Z 5000); None; Some (inject_Z 900000);
                       Some (inject_Z 1200000)]);
    ("Surface", Numeric [Some (inject_Z 60); Some (inject_Z 70);
                         Some (inject_Z 3); None]);
    ("Rooms", Object [Some "2"; Some "3"; Some "1"; Some "4"]) ].

Definition no_number : string -> option Q := fun _ => None.

Lemma realistic_prices_within_bounds_witness :
  columns (select [false; false; true; true] priced_listings)
  = columns priced_listings
  /\ exists ys,
       dict_get (select [false; false; true; true] priced_listings) "Price"
       = Some (Numeric ys)
       /\ forall y, In y ys ->
            exists v, y = Some v /\ default_min_price <= v /\ v <= default_max_price.
Proof.
  apply (realistic_prices_within_bounds priced_listings
           (select [false; false; true; true] priced_listings) "Price"
           default_min_price default_max_price).
  vm_compute. reflexivity.
Defined.

Lemma range_filters_hold_together_witness :
  cells_all (missing_or_within (inject_Z 5) (inject_Z 10000)) "Surface"
    [ ("Price", Numeric [Some (inject_Z 1200000)]);
      ("Surface", Numeric [None]);
      ("Rooms", Numeric [None]) ].
Proof.
  refine (proj1 (proj2 (proj2
            (range_filters_hold_together no_number priced_listings _ _)))).
  vm_compute. reflexivity.
Defined.
End PlatformRangeFiltersExamples.

(** ** The price per square metre of both pipelines *)
Section PricePerAreaContract.
Import AdvancedImputation.
Import Platform.





End PricePerAreaContract.

(** ** The final columns and the split of the platform's cleaning *)
Section PlatformSplit.
Import AdvancedImputation.
Import Platform.

Lemma sale_is_no_rental (x : option string) :
  is_sale x = true -> is_rental x = false.
Proof.
  unfold is_sale, is_rental, CleanData.isin, sales_labels, rental_labels.
  destruct (to_lower_text x) as [t|]; simpl; [|discriminate].
  intro H. repeat (apply orb_true_iff in H; destruct H as [H|H]);
    try discriminate; apply String.eqb_eq in H; subst; reflexivity.
Qed.

(** A label that is one of [labels] once its capital letters are lowered. *)
Definition reads_as (labels : list string) (x : option string) : Prop :=
  exists t, x = Some t
            /\ In (string_of_list_ascii
                     (CleanDataSteps.lower (list_ascii_of_string t))) labels.

Lemma isin_lower_spec (labels : list string) (x : option string) :
  CleanData.isin (to_lower_text x) labels = true <-> reads_as labels x.
Proof.
  unfold CleanData.isin, reads_as. rewrite existsb_exists.
  destruct x as [t|]; simpl.
  - split.
    + intros (l & Hl & E). apply String.eqb_eq in E. subst l.
      exists t. now split.
    + intros (t' & [= <-] & Hl). eexists. split; [exact Hl|].
      apply String.eqb_refl.
  - split.
    + intros (l & _ & E). discriminate.
    + intros (t & E & _). discriminate.
Qed.

Lemma nth_map_mask {A} (p : A -> bool) (xs : list A) i x :
  nth_error xs i = Some x -> nth i (map p xs) false = p x.
Proof.
  revert i. induction xs as [|y t IH]; intros [|i]; simpl; try discriminate.
  - now intros [= ->].
  - apply IH.
Qed.

Lemma disjoint_masks_count {A} (p q : A -> bool) (xs : list A) :
  (forall x, p x = true -> q x = false) ->
  (count_true (map p xs) + count_true (map q xs) <= List.length xs)%nat.
Proof.
  intro D. unfold count_true. induction xs as [|x t IH]; simpl; [lia|].
  destruct (p x) eqn:P.
  - rewrite (D x P). simpl. lia.
  - destruct (q x); simpl; lia.
Qed.

(** X23.  The split reads the labels without regard to case.  The sales
    table is the selection of exactly the rows whose label, letters
    lowered, is sale, vente or sell, and the rental table the selection of
    exactly the rows whose label is rent, rental, location or louer; no
    row is in both, and a row with another label or none is in neither, so
    the two tables have together at most the rows of the input. *)
Theorem split_without_regard_to_case (df sales_data rental_data : DataFrame) :
  split_data_by_transaction_type df = Split sales_data rental_data ->
  exists xs sales_mask rental_mask,
    dict_get df "transaction_type" = Some (Object xs)
    /\ sales_data = select sales_mask df
    /\ rental_data = select rental_mask df
    /\ List.length sales_mask = List.length xs
    /\ List.length rental_mask = List.length xs
    /\ (forall i x, nth_error xs i = Some x ->
          (nth i sales_mask false = true <-> reads_as sales_labels x)
          /\ (nth i rental_mask false = true <-> reads_as rental_labels x)
          /\ ~ (reads_as sales_labels x /\ reads_as rental_labels x))
    /\ (count_true sales_mask + count_true rental_mask <= List.length xs)%nat.
Proof.
  unfold split_data_by_transaction_type.
  destruct (dict_get df "transaction_type") as [[xs|xs]|] eqn:G; try discriminate.
  intros [= <- <-].
  exists xs, (map is_sale xs), (map is_rental xs).
  split; [reflexivity|]. split; [reflexivity|]. split; [reflexivity|].
  split; [apply length_map|]. split; [apply length_map|]. split.
  - intros i x Hx.
    rewrite (nth_map_mask is_sale xs i x Hx), (nth_map_mask is_rental xs i x Hx).
    split; [apply isin_lower_spec|]. split; [apply isin_lower_spec|].
    intros [Hs Hr]. apply isin_lower_spec in Hs. apply isin_lower_spec in Hr.
    fold (is_sale x) in Hs. fold (is_rental x) in Hr.
    apply sale_is_no_rental in Hs. congruence.
  - apply disjoint_masks_count. exact sale_is_no_rental.
Qed.

Lemma In_subset (df : DataFrame) names n c :
  In (n, c) (subset df names) -> In n names /\ dict_get df n = Some c.
Proof.
  unfold subset. rewrite in_flat_map. intros (k & Hk & H).
  destruct (dict_get df k) as [c'|] eqn:G; simpl in H; [|contradiction].
  destruct H as [[= <- <-]|[]]. now split.
Qed.

Lemma dict_get_of_column {V} (d : list (string * V)) k :
  In k (columns d) -> exists v, dict_get d k = Some v /\ In (k, v) d.
Proof.
  induction d as [|[k' v'] t IH]; simpl; [contradiction|].
  intros [E|H].
  - subst. rewrite String.eqb_refl. exists v'. split; [reflexivity|now left].
  - destruct (String.eqb_spec k k') as [->|N].
    + exists v'. split; [reflexivity|now left].
    + destruct (IH H) as (v & G & I). exists v. split; [exact G|now right].
Qed.

(** X24.  Every column of the final table is a column of the input under
    the name the mapping gives it: the data is untouched, and no column
    outside the mapping gets through. *)
Theorem final_columns_come_from_mapping (df : DataFrame) (name : string)
    (c : column) :
  In (name, c) (select_final_columns df) ->
  exists source, In (source, name) column_mapping /\ dict_get df source = Some c.
Proof.
  unfold select_final_columns. rewrite in_map_iff.
  intros ([src c'] & E & H). cbn [fst snd] in E. injection E as E <-.
  apply In_subset in H. destruct H as [Hs G].
  apply filter_In in Hs. destruct Hs as [Hs _].
  destruct (dict_get_of_column column_mapping src Hs) as (v & Gv & Iv).
  change (match dict_get column_mapping src with
          | Some n => n
          | None => src
          end = name) in E.
  rewrite Gv in E. subst v. exists src. now split.
Qed.

Lemma subset_has_pair (df : DataFrame) names n c :
  In n names -> dict_get df n = Some c -> In (n, c) (subset df names).
Proof.
  intros Hn G. unfold subset. rewrite in_flat_map. exists n.
  split; [exact Hn|]. rewrite G. now left.
Qed.

Lemma dict_get_mem {V} (d : list (string * V)) k v :
  dict_get d k = Some v -> mem k (columns d) = true.
Proof.
  induction d as [|[k' v'] t IH]; simpl; [discriminate|].
  destruct (String.eqb k k'); [reflexivity|exact IH].
Qed.

Lemma NoDup_map_injective {A B} (f : A -> B) (l : list A) x y :
  NoDup (map f l) -> In x l -> In y l -> f x = f y -> x = y.
Proof.
  induction l as [|a t IH]; simpl; [contradiction|].
  intros Hnd Hx Hy E. inversion Hnd as [|? ? Ha Ht]; subst.
  destruct Hx as [<-|Hx], Hy as [<-|Hy]; try reflexivity.
  - exfalso. apply Ha. rewrite E. now apply in_map.
  - exfalso. apply Ha. rewrite <- E. now apply in_map.
  - now apply IH.
Qed.

(** X25.  The mapping sends Rooms, NbRooms and Chambres to the one name
    'rooms': for a table that has two of them, here Rooms and NbRooms, the
    final table has two columns of that name. *)
Theorem two_room_columns_share_a_name (df : DataFrame) (a b : column) :
  dict_get df "Rooms" = Some a ->
  dict_get df "NbRooms" = Some b ->
  In ("rooms", a) (select_final_columns df)
  /\ In ("rooms", b) (select_final_columns df)
  /\ ~ NoDup (columns (select_final_columns df)).
Proof.
  intros Ga Gb.
  assert (Ha : In ("Rooms", a)
                 (subset df (filter (fun col => mem col (columns df))
                                    (columns column_mapping)))).
  { apply subset_has_pair; [|exact Ga]. apply filter_In. split.
    - simpl. tauto.
    - exact (dict_get_mem _ _ _ Ga). }
  assert (Hb : In ("NbRooms", b)
                 (subset df (filter (fun col => mem col (columns df))
                                    (columns column_mapping)))).
  { apply subset_has_pair; [|exact Gb]. apply filter_In. split.
    - simpl. tauto.
    - exact (dict_get_mem _ _ _ Gb). }
  unfold select_final_columns. split; [|split].
  - apply in_map_iff. exists ("Rooms", a). now split.
  - apply in_map_iff. exists ("NbRooms", b). now split.
  - unfold columns at 1. rewrite map_map. intro Hnd.
    pose proof (NoDup_map_injective _ _ _ _ Hnd Ha Hb eq_refl) as E.
    discriminate E.
Qed.
End PlatformSplit.

Section PlatformSplitExamples.
Import AdvancedImputation.
Import Platform.

Definition labelled_listings : DataFrame :=
  [ ("transaction_type", Object [Some "SALE"; Some "Louer"; None; Some "swap"]);
    ("price", Numeric [Some (inject_Z 900000); Some (inject_Z 40000);
                       Some (inject_Z 50000); None]) ].

Lemma split_without_regard_to_case_witness :
  exists xs sales_mask rental_mask,
    dict_get labelled_listings "transaction_type" = Some (Object xs)
    /\ select [true; false; false; false] labelled_listings
       = select sales_mask labelled_listings
    /\ select [false; true; false; false] labelled_listings
       = select rental_mask labelled_listings
    /\ List.length sales_mask = List.length xs
    /\ List.length rental_mask = List.length xs
    /\ (forall i x, nth_error xs i = Some x ->
          (nth i sales_mask false = true <-> reads_as sales_labels x)
          /\ (nth i rental_mask false = true <-> reads_as rental_labels x)
          /\ ~ (reads_as sales_labels x /\ reads_as rental_labels x))
    /\ (count_true sales_mask + count_true rental_mask <= List.length xs)%nat.
Proof.
  apply (split_without_regard_to_case labelled_listings).
  vm_compute. reflexivity.
Defined.

Definition rooms_twice : DataFrame :=
  [ ("Rooms", Numeric [Some (inject_Z 3)]);
    ("NbRooms", Numeric [Some (inject_Z 4)]) ].

Lemma final_columns_come_from_mapping_witness :
  exists source,
    In (source, "rooms") column_mapping
    /\ dict_get rooms_twice source = Some (Numeric [Some (inject_Z 4)]).
Proof.
  apply (final_columns_come_from_mapping rooms_twice "rooms").
  vm_compute. tauto.
Defined.

Lemma two_room_columns_share_a_name_witness :
  ~ NoDup (columns (select_final_columns rooms_twice)).
Proof.
  exact (proj2 (proj2 (two_room_columns_share_a_name rooms_twice
                         (Numeric [Some (inject_Z 3)])
                         (Numeric [Some (inject_Z 4)]) eq_refl eq_refl))).
Defined.
End PlatformSplitExamples.

(** ** The critical columns of the platform's cleaning *)
Section CriticalColumns.
Import AdvancedImputation.
Import Platform.
Variable skew : list (option Q) -> option Q.
Variable estimate : estimator.
Variable most_frequent : list (option string) -> string.

Lemma first_absent_found (d : DataFrame) names n :
  In n names -> dict_get d n = None -> exists k, first_absent d names = Some k.
Proof.
  induction names as [|m t IH]; simpl; [contradiction|].
  intros [->|H] G.
  - rewrite G. eauto.
  - destruct (dict_get d m); [now apply IH|eauto].
Qed.

(** X26.  The cleaning needs the four critical columns TransactionType,
    Location, Wilaya and Price: on a table that lacks one of them it
    raises KeyError at the first removal of rows, before the imputation
    and outside its fallback, and no table is created or changed. *)
Theorem clean_data_needs_critical_columns (df : ref) (st : state) (name : string) :
  In name critical_columns ->
  dict_get (nth df (heap st) []) name = None ->
  (exists k, fst (clean_data skew estimate most_frequent df st)
             = Raise (KeyError k))
  /\ snd (clean_data skew estimate most_frequent df st) = st.
Proof.
  intros Hn G.
  destruct (first_absent_found _ _ _ Hn G) as [k Hk].
  unfold clean_data, bind, load, lift, dropna. cbn [fst snd].
  rewrite Hk. cbn [fst snd]. split; [now exists k|reflexivity].
Qed.
End CriticalColumns.

Lemma clean_data_needs_critical_columns_witness :
  (exists k, fst (Platform.clean_data no_skew zero_estimate first_label 0%nat
                    (AdvancedImputation.mkState [table_15_percent]
                       AdvancedImputation.new_imputer))
             = AdvancedImputation.Raise (AdvancedImputation.KeyError k))
  /\ snd (Platform.clean_data no_skew zero_estimate first_label 0%nat
            (AdvancedImputation.mkState [table_15_percent]
               AdvancedImputation.new_imputer))
     = AdvancedImputation.mkState [table_15_percent]
         AdvancedImputation.new_imputer.
Proof.
  apply (clean_data_needs_critical_columns no_skew zero_estimate first_label
           0%nat _ "Wilaya").
  - simpl. tauto.
  - reflexivity.
Defined.

(** ** The price texts of the platform's cleaning *)
Section PlatformPriceText.
Import Platform.

Lemma digits_val_from_nonneg (ds : list ascii) (acc : Z) :
  (0 <= acc)%Z ->
  (0 <= fold_left (fun acc c => (10 * acc + digit_val c)%Z) ds acc)%Z.
Proof.
  revert acc. induction ds as [|d t IH]; intros acc H; cbn [fold_left];
    [exact H|].
  apply IH. pose proof (Nat2Z.is_nonneg (nat_of_ascii d - 48)) as Hd.
  unfold digit_val. lia.
Qed.

Lemma float_of_decimal_nonneg (ip fp : list ascii) :
  0 <= CleanData.float_of_decimal ip fp.
Proof.
  unfold CleanData.float_of_decimal.
  apply Qle_shift_div_l.
  - change 0 with (inject_Z 0). rewrite <- Zlt_Qlt.
    apply Z.pow_pos_nonneg; lia.
  - rewrite Qmult_0_l. change 0 with (inject_Z 0). rewrite <- Zle_Qle.
    apply digits_val_from_nonneg. lia.
Qed.

Lemma float_of_text_nonneg (s : list ascii) (v : Q) :
  float_of_text s = Some v -> 0 <= v.
Proof.
  unfold float_of_text.
  destruct (span is_digit s) as [ip r].
  destruct r as [|c r2].
  - destruct ip; [discriminate|]. intros [= <-]. apply float_of_decimal_nonneg.
  - destruct (is_dot c); [|discriminate].
    destruct (span is_digit r2) as [fp r3].
    destruct r3; [|discriminate].
    destruct (ip ++ fp)%list; [discriminate|].
    intros [= <-]. apply float_of_decimal_nonneg.
Qed.

(** X27.  A price read from a text is never negative: the sign is among
    the characters removed before the number is read, so the text '-500'
    gives 500. *)
Theorem price_text_never_negative (price_str : option string) (v : Q) :
  normalize_price price_str = Some v -> 0 <= v.
Proof.
  unfold normalize_price. destruct price_str as [t|]; [|discriminate].
  apply float_of_text_nonneg.
Qed.

Lemma lstrip_kept (s : list ascii) :
  match s with c :: _ => is_space c = false | [] => True end -> lstrip s = s.
Proof. destruct s as [|c t]; simpl; [reflexivity|]. now intros ->. Qed.

Definition price_char (c : ascii) : bool := is_digit c || is_dot c || is_comma c.

Lemma price_char_no_space (c : ascii) : price_char c = true -> is_space c = false.
Proof.
  unfold price_char, is_digit, is_dot, is_comma, is_space.
  destruct c as [[] [] [] [] [] [] [] []]; vm_compute; congruence.
Qed.

Lemma digit_is_price_char (c : ascii) : is_digit c = true -> price_char c = true.
Proof. unfold price_char. now intros ->. Qed.

Lemma digit_no_comma (c : ascii) : is_digit c = true -> is_comma c = false.
Proof.
  unfold is_digit, is_comma.
  destruct c as [[] [] [] [] [] [] [] []]; vm_compute; congruence.
Qed.

Lemma digit_no_dot (c : ascii) : is_digit c = true -> is_dot c = false.
Proof.
  unfold is_digit, is_dot.
  destruct c as [[] [] [] [] [] [] [] []]; vm_compute; congruence.
Qed.

Lemma strip_price_chars (s : list ascii) :
  forallb price_char s = true -> strip s = s.
Proof.
  intro H. unfold strip.
  assert (L : forall l, forallb price_char l = true -> lstrip l = l).
  { intros l Hl. apply lstrip_kept. destruct l as [|c t]; [exact I|].
    simpl in Hl. apply andb_true_iff in Hl. now apply price_char_no_space. }
  rewrite (L s H). rewrite L.
  - apply rev_involutive.
  - apply forallb_forall. intros c Hc. apply in_rev in Hc.
    rewrite forallb_forall in H. now apply H.
Qed.

Lemma filter_forallb {A} (p : A -> bool) (l : list A) :
  forallb p l = true -> filter p l = l.
Proof.
  induction l as [|x t IH]; simpl; [reflexivity|].
  intro H. apply andb_true_iff in H. destruct H as [Hx Ht].
  rewrite Hx. now rewrite IH.
Qed.

Lemma filter_none {A} (p : A -> bool) (l : list A) :
  forallb (fun x => negb (p x)) l = true -> filter p l = [].
Proof.
  induction l as [|x t IH]; simpl; [reflexivity|].
  intro H. apply andb_true_iff in H. destruct H as [Hx Ht].
  apply negb_true_iff in Hx. rewrite Hx. now apply IH.
Qed.

Lemma existsb_none {A} (p : A -> bool) (l : list A) :
  forallb (fun x => negb (p x)) l = true -> existsb p l = false.
Proof.
  induction l as [|x t IH]; simpl; [reflexivity|].
  intro H. apply andb_true_iff in H. destruct H as [Hx Ht].
  apply negb_true_iff in Hx. rewrite Hx. now apply IH.
Qed.

Lemma no_comma_in l : forallb is_digit l = true ->
  forallb (fun x => negb (is_comma x)) l = true.
Proof.
  apply forallb_impl. intros c Hc. now rewrite digit_no_comma.
Qed.

Lemma no_dot_in l : forallb is_digit l = true ->
  forallb (fun x => negb (is_dot x)) l = true.
Proof.
  apply forallb_impl. intros c Hc. now rewrite digit_no_dot.
Qed.

Lemma span_whole p (l : list ascii) : forallb p l = true -> span p l = (l, []).
Proof.
  intro H. rewrite <- (app_nil_r l) at 1. now apply span_all.
Qed.

Section DigitsAroundAComma.
Variables a b : list ascii.
Hypothesis digits_a : forallb is_digit a = true.
Hypothesis digits_b : forallb is_digit b = true.

Lemma text_price_chars : forallb price_char (a ++ ","%char :: b)%list = true.
Proof.
  rewrite forallb_app. simpl.
  rewrite (forallb_impl is_digit price_char a digit_is_price_char digits_a).
  now rewrite (forallb_impl is_digit price_char b digit_is_price_char digits_b).
Qed.

Lemma text_has_comma : existsb is_comma (a ++ ","%char :: b)%list = true.
Proof. rewrite existsb_app. simpl. apply orb_true_r. Qed.

Lemma text_has_no_dot : existsb is_dot (a ++ ","%char :: b)%list = false.
Proof.
  rewrite existsb_app. simpl.
  rewrite (existsb_none _ _ (no_dot_in a digits_a)).
  now rewrite (existsb_none _ _ (no_dot_in b digits_b)).
Qed.

Lemma text_one_comma :
  count_true (map is_comma (a ++ ","%char :: b)%list) = 1%nat.
Proof.
  unfold count_true. rewrite map_app, filter_app, length_app. simpl.
  assert (Z : forall l, forallb is_digit l = true ->
                        filter id (map is_comma l) = []).
  { intros l Hl. apply filter_none. rewrite forallb_forall.
    intros x Hx. apply in_map_iff in Hx. destruct Hx as (c & <- & Hc).
    rewrite forallb_forall in Hl. unfold id.
    now rewrite (digit_no_comma c (Hl c Hc)). }
  now rewrite (Z a digits_a), (Z b digits_b).
Qed.

Lemma text_after_comma : after_first_comma (a ++ ","%char :: b)%list = b.
Proof.
  revert digits_a. generalize a as l. induction l as [|c t IH]; intro H.
  - cbn [app after_first_comma]. change (is_comma ","%char) with true.
    cbn iota. now rewrite (span_whole _ b (no_comma_in b digits_b)).
  - cbn [forallb] in H. apply andb_true_iff in H. destruct H as [Hc Ht].
    cbn [app after_first_comma]. rewrite (digit_no_comma c Hc). now apply IH.
Qed.

Lemma text_without_commas : remove_commas (a ++ ","%char :: b)%list = (a ++ b)%list.
Proof.
  unfold remove_commas. rewrite filter_app. cbn [filter].
  change (negb (is_comma ","%char)) with false. cbn iota.
  rewrite (filter_forallb _ a (no_comma_in a digits_a)).
  now rewrite (filter_forallb _ b (no_comma_in b digits_b)).
Qed.

Lemma text_with_dot :
  commas_to_dots (a ++ ","%char :: b)%list = (a ++ "."%char :: b)%list.
Proof.
  unfold commas_to_dots. rewrite map_app. cbn [map].
  change (is_comma ","%char) with true. cbn iota.
  assert (Z : forall l, forallb is_digit l = true ->
                        map (fun c => if is_comma c then "."%char else c) l = l).
  { induction l as [|c t IH]; intro H; [reflexivity|].
    cbn [forallb] in H. apply andb_true_iff in H. destruct H as [Hc Ht].
    cbn [map]. rewrite (digit_no_comma c Hc). now rewrite (IH Ht). }
  now rewrite (Z a digits_a), (Z b digits_b).
Qed.

(** X28.  In a text of digits around one comma the comma is read as the
    decimal point when at most two digits follow it, and as a thousands
    separator, that is dropped, when more do: '12,5' is 12.5 and '1,50' is
    1.5, but '1,500' is 1500. *)
Theorem comma_decimal_or_thousands :
  (a ++ b)%list <> [] ->
  normalize_price (Some (string_of_list_ascii (a ++ ","%char :: b)%list))
  = Some (if (List.length b <=? 2)%nat
          then CleanData.float_of_decimal a b
          else CleanData.float_of_decimal (a ++ b)%list []).
Proof.
  intro Hne. unfold normalize_price.
  rewrite list_ascii_of_string_of_list_ascii.
  rewrite (strip_price_chars _ text_price_chars).
  unfold keep_price_chars. fold price_char.
  rewrite (filter_forallb _ _ text_price_chars).
  unfold normalize_separators.
  rewrite text_has_comma, text_has_no_dot, text_one_comma, text_after_comma.
  cbn [andb Nat.eqb].
  destruct (List.length b <=? 2)%nat.
  - rewrite text_with_dot. unfold float_of_text.
    rewrite (span_all is_digit a ("."%char :: b) digits_a eq_refl).
    change (is_dot "."%char) with true. cbn iota.
    rewrite (span_whole _ b digits_b).
    destruct (a ++ b)%list; [contradiction|reflexivity].
  - rewrite text_without_commas. unfold float_of_text.
    assert (D : forallb is_digit (a ++ b)%list = true).
    { rewrite forallb_app. now rewrite digits_a, digits_b. }
    rewrite (span_whole _ _ D).
    destruct (a ++ b)%list; [contradiction|reflexivity].
Qed.
End DigitsAroundAComma.
End PlatformPriceText.

Section PlatformPriceTextExamples.
Import Platform.

Lemma price_text_never_negative_witness : 0 <= inject_Z 500 / inject_Z 1.
Proof.
  apply (price_text_never_negative (Some "-500 DA")).
  vm_compute. reflexivity.
Defined.

Lemma comma_decimal_or_thousands_witness :
  normalize_price (Some "1,50") = Some (inject_Z 150 / inject_Z 100)
  /\ normalize_price (Some "1,500") = Some (inject_Z 1500 / inject_Z 1).
Proof.
  split.
  - apply (comma_decimal_or_thousands ["1"%char] ["5"%char; "0"%char]);
      [reflexivity|reflexivity|discriminate].
  - apply (comma_decimal_or_thousands ["1"%char]
             ["5"%char; "0"%char; "0"%char]);
      [reflexivity|reflexivity|discriminate].
Defined.
End PlatformPriceTextExamples.
